(** * WebSocket-Client: the connection lifecycle engine of [main.go]

    A shallow embedding of the engine of [main.go]: the error classifier
    and the recovery selector, the retry policy and the loop of the
    supervisor, the statistics and the error book, the send path with its
    rate limiter and security check, the reader, the stop sequence, the
    telemetry endpoints, and the locks around the transport.  The
    properties of the specification are stated over it and settled.

    Conventions.  Go's [int] and [int64] are [Z] with the 64-bit
    wrap-around written out ([wrap64]); [int32] likewise ([wrap32]).
    Go strings and byte slices are [string] (bytes).  [time.Time] and
    [time.Duration] are [Z] (nanoseconds); [time.Now()] is the [clock] of
    the client, which the waits move on.  The world (the connector, the
    transport, the peer) answers through explicit arguments; two answers
    of the Go libraries, the lowering of a text beyond ASCII and the
    bytes a pool buffer holds, come through the class [Library], and the
    properties hold whatever they are.  What the client does to the
    world is kept, in order, in its [trace].  [log.Printf] calls and the
    user callbacks are left out: they change no state of the client. *)

From Stdlib Require Import ZArith String Ascii List Bool Lia.
From stdpp Require Import base option gmap strings list.

Local Open Scope string_scope.
Local Open Scope Z_scope.

(** ** Machine integers *)

Module GoInt.

Definition MaxInt32 : Z := 2147483647.
Definition MinInt64 : Z := -9223372036854775808.
Definition MaxInt64 : Z := 9223372036854775807.

(** Two's-complement wrap-around of a [w]-bit signed integer. *)
Definition wrap (w : Z) (x : Z) : Z :=
  (x + 2 ^ (w - 1)) mod 2 ^ w - 2 ^ (w - 1).

Definition wrap32 : Z -> Z := wrap 32.
Definition wrap64 : Z -> Z := wrap 64.

Definition in_int32 (x : Z) : Prop := - 2147483648 <= x <= MaxInt32.
Definition in_int64 (x : Z) : Prop := MinInt64 <= x <= MaxInt64.

End GoInt.
Import GoInt.

(** ** Strings *)

Module GoStrings.

(** [strings.Contains(s, sub)]. *)
Fixpoint Contains (s sub : string) : bool :=
  String.prefix sub s
  || match s with
     | EmptyString => false
     | String _ s' => Contains s' sub
     end.

(** The loop of [FastStringBuilder.WriteInt]: digits are produced from
    the lowest to the highest into the 20-byte array [digits]. *)
Fixpoint WriteInt_digits (room : nat) (i : Z) (acc : string) : string :=
  match room with
  | O => acc
  | S room' =>
      if 0 <? i
      then WriteInt_digits room' (i / 10)
             (String (ascii_of_nat (48 + Z.to_nat (i mod 10))) acc)
      else acc
  end.

(** [FastStringBuilder.WriteInt] on an empty builder. *)
Definition WriteInt (i : Z) : string :=
  if i =? 0 then "0"
  else if i <? 0
       then "-" ++ WriteInt_digits 20 (wrap64 (- i)) ""
       else WriteInt_digits 20 i "".

(** The test that opens [strings.ToLower]: no byte of the text is
    [utf8.RuneSelf] (128) or beyond. *)
Fixpoint is_ascii (s : string) : bool :=
  match s with
  | EmptyString => true
  | String a rest => (nat_of_ascii a <? 128)%nat && is_ascii rest
  end.

(** The ASCII path of [strings.ToLower]: the letters A-Z are lowered,
    every other byte is kept. *)
Definition lower_ascii (a : ascii) : ascii :=
  let n := nat_of_ascii a in
  if ((65 <=? n) && (n <=? 90))%nat then ascii_of_nat (n + 32) else a.

Fixpoint ToLower_ascii (s : string) : string :=
  match s with
  | EmptyString => EmptyString
  | String a s' => String (lower_ascii a) (ToLower_ascii s')
  end.

End GoStrings.
Import GoStrings.

(** ** Error codes, [ErrorCode] *)

Definition ErrorCode := Z.

Definition ErrCodeConnectionRefused : ErrorCode := 1001.
Definition ErrCodeConnectionTimeout : ErrorCode := 1002.
Definition ErrCodeConnectionLost : ErrorCode := 1003.
Definition ErrCodeHandshakeFailed : ErrorCode := 1004.
Definition ErrCodeInvalidURL : ErrorCode := 1005.
Definition ErrCodeTLSError : ErrorCode := 1006.
Definition ErrCodeDNSError : ErrorCode := 1007.
Definition ErrCodeMessageTooLarge : ErrorCode := 2001.
Definition ErrCodeInvalidMessage : ErrorCode := 2002.
Definition ErrCodeSendTimeout : ErrorCode := 2003.
Definition ErrCodeReceiveTimeout : ErrorCode := 2004.
Definition ErrCodeEncodingError : ErrorCode := 2005.
Definition ErrCodeMaxRetriesExceeded : ErrorCode := 3001.
Definition ErrCodeRetryTimeout : ErrorCode := 3002.
Definition ErrCodeInvalidConfig : ErrorCode := 4001.
Definition ErrCodeMissingParameter : ErrorCode := 4002.
Definition ErrCodeFileSystemError : ErrorCode := 5001.
Definition ErrCodeMemoryError : ErrorCode := 5002.
Definition ErrCodeUnknownError : ErrorCode := 5999.
Definition ErrCodeSecurityViolation : ErrorCode := 6001.
Definition ErrCodeRateLimitExceeded : ErrorCode := 6002.
Definition ErrCodeSuspiciousActivity : ErrorCode := 6003.

(** [ErrorCode.String]: the lookup in the [errorMessages] map. *)
Definition errorMessages : list (ErrorCode * string) :=
  [ (ErrCodeConnectionRefused, "连接被拒绝");
    (ErrCodeConnectionTimeout, "连接超时");
    (ErrCodeConnectionLost, "连接丢失");
    (ErrCodeHandshakeFailed, "握手失败");
    (ErrCodeInvalidURL, "无效URL");
    (ErrCodeTLSError, "TLS错误");
    (ErrCodeDNSError, "DNS解析错误");
    (ErrCodeMessageTooLarge, "消息过大");
    (ErrCodeInvalidMessage, "无效消息");
    (ErrCodeSendTimeout, "发送超时");
    (ErrCodeReceiveTimeout, "接收超时");
    (ErrCodeEncodingError, "编码错误");
    (ErrCodeMaxRetriesExceeded, "超过最大重试次数");
    (ErrCodeRetryTimeout, "重试超时");
    (ErrCodeInvalidConfig, "无效配置");
    (ErrCodeMissingParameter, "缺少参数");
    (ErrCodeFileSystemError, "文件系统错误");
    (ErrCodeMemoryError, "内存错误");
    (ErrCodeSecurityViolation, "安全违规");
    (ErrCodeRateLimitExceeded, "频率限制超出");
    (ErrCodeSuspiciousActivity, "可疑活动") ].

Fixpoint assoc_find (k : Z) (l : list (Z * string)) : option string :=
  match l with
  | [] => None
  | (k', v) :: l' => if k =? k' then Some v else assoc_find k l'
  end.

Definition ErrorCode_String (e : ErrorCode) : string :=
  match assoc_find e errorMessages with
  | Some msg => msg
  | None => "未知错误"
  end.

(** ** Go error values *)

(** The package-level error values, created once by [errors.New] and
    compared by identity; [io.EOF] and [io.ErrUnexpectedEOF] with them. *)
Inductive sentinel : Type :=
| ErrInvalidURL | ErrConnectionFailed | ErrConnectionClosed
| ErrInvalidConfig | ErrMaxRetriesReached | ErrContextCanceled
| ErrHandshakeTimeout | ErrReadTimeout | ErrWriteTimeout
| io_EOF | io_ErrUnexpectedEOF.

Definition sentinel_eqb (a b : sentinel) : bool :=
  match a, b with
  | ErrInvalidURL, ErrInvalidURL | ErrConnectionFailed, ErrConnectionFailed
  | ErrConnectionClosed, ErrConnectionClosed | ErrInvalidConfig, ErrInvalidConfig
  | ErrMaxRetriesReached, ErrMaxRetriesReached
  | ErrContextCanceled, ErrContextCanceled
  | ErrHandshakeTimeout, ErrHandshakeTimeout | ErrReadTimeout, ErrReadTimeout
  | ErrWriteTimeout, ErrWriteTimeout | io_EOF, io_EOF
  | io_ErrUnexpectedEOF, io_ErrUnexpectedEOF => true
  | _, _ => false
  end.

Definition sentinel_message (s : sentinel) : string :=
  match s with
  | ErrInvalidURL => "无效的 WebSocket URL"
  | ErrConnectionFailed => "WebSocket 连接失败"
  | ErrConnectionClosed => "WebSocket 连接已关闭"
  | ErrInvalidConfig => "无效的客户端配置"
  | ErrMaxRetriesReached => "达到最大重试次数"
  | ErrContextCanceled => "操作被取消"
  | ErrHandshakeTimeout => "握手超时"
  | ErrReadTimeout => "读取超时"
  | ErrWriteTimeout => "写入超时"
  | io_EOF => "EOF"
  | io_ErrUnexpectedEOF => "unexpected EOF"
  end.

(** The [syscall.Errno] values the classifier names, and one it does not. *)
Inductive errno : Type :=
| ECONNREFUSED | ECONNRESET | ETIMEDOUT | ENETUNREACH | EHOSTUNREACH | EPIPE.

Definition errno_message (e : errno) : string :=
  match e with
  | ECONNREFUSED => "connection refused"
  | ECONNRESET => "connection reset by peer"
  | ETIMEDOUT => "connection timed out"
  | ENETUNREACH => "network is unreachable"
  | EHOSTUNREACH => "no route to host"
  | EPIPE => "broken pipe"
  end.

(** A Go [error].  The types of the Go libraries are kept with what the
    client observes of them: the text of [Error()], the result of
    [Timeout()], the flags of a DNS error and the wrapped error. *)
#[warnings="-register-all"]
Inductive error : Type :=
| ESentinel (s : sentinel)
| EErrno (e : errno)
| ENew (msg : string)
    (* errors.New, or fmt.Errorf without %w: a value of its own *)
| EWrap (pre : string) (inner : error) (post : string)
    (* fmt.Errorf with one %w *)
| EOp (op net : string) (timeout : bool) (inner : error)
    (* *net.OpError *)
| EDNS (name msg : string) (IsNotFound IsTimeout : bool)
    (* *net.DNSError *)
| EConn (Code : ErrorCode) (Op URL : string) (Err : option error) (Retry : bool)
    (* *ConnectionError *)
| ERetry (Code : ErrorCode) (Attempt MaxTry : Z) (Err : option error).
    (* *RetryError *)

(** ** The libraries

    Two answers of the Go libraries are not computed here and are taken
    as they come, whatever they are.  [unicode_ToLower] is what
    [strings.ToLower] returns for a text with a byte beyond ASCII, where
    it goes by the case tables of the [unicode] package.  [pool_buffer e]
    is the array of the buffer that [globalBufferPool] hands to
    [NewFastStringBuilder(128)] when [Error()] is called on the
    [*ConnectionError] or [*RetryError] value [e]: a new buffer of zeros,
    or one that an earlier user (a send, a log line, another [Error()])
    gave back, with the bytes it left there.  The buffers of that pool
    have 1024 bytes.  (The answer goes by the error value: two calls of
    [Error()] on one value meet the same bytes.  The engine asks for the
    text of a [*ConnectionError] of its own where it classifies a failed
    write, in [handleErrorWithRecovery].) *)
Class Library : Type := {
  unicode_ToLower : string -> string;
  pool_buffer : error -> list ascii
}.

(** The libraries of the scenarios: the pool hands out new buffers, and
    a text beyond ASCII is lowered in its ASCII letters only, as
    [strings.ToLower] does when the runes beyond ASCII have no case
    (those of Chinese have none). *)
Definition scenario_library : Library :=
  {| unicode_ToLower := ToLower_ascii;
     pool_buffer := fun _ => repeat Ascii.zero 1024 |}.

Section Classifier.

Context {L : Library}.

(** What [ConnectionError.Error()] and [RetryError.Error()] write into
    their builder; [cause] is the text of [e.Err.Error()], empty for a
    nil cause. *)
Definition ConnectionError_text (Code : ErrorCode) (Op URL cause : string) : string :=
  "[" ++ WriteInt Code ++ "] 连接错误 [" ++ Op ++ "] " ++ URL ++ ": "
  ++ ErrorCode_String Code ++ " - " ++ cause.

Definition RetryError_text (Code : ErrorCode) (Attempt MaxTry : Z) (cause : string)
  : string :=
  "[" ++ WriteInt Code ++ "] 重试失败 [" ++ WriteInt Attempt ++ "/"
  ++ WriteInt MaxTry ++ "]: " ++ ErrorCode_String Code ++ " - " ++ cause.

(** [err.Error()].  The builder of a [*ConnectionError] and of a
    [*RetryError] starts as the first 128 bytes of its pool buffer
    ([globalBufferPool.Get(128)] returns [buf[:128]]) and the text is
    appended to them. *)
Fixpoint Error (e : error) : string :=
  match e with
  | ESentinel s => sentinel_message s
  | EErrno n => errno_message n
  | ENew msg => msg
  | EWrap pre inner post => pre ++ Error inner ++ post
  | EOp op net _ inner =>
      op ++ (if String.eqb net "" then "" else " " ++ net) ++ ": " ++ Error inner
  | EDNS name msg _ _ => "lookup " ++ name ++ ": " ++ msg
  | EConn code op url inner _ =>
      string_of_list_ascii (take 128 (pool_buffer e))
      ++ ConnectionError_text code op url
           match inner with Some i => Error i | None => "" end
  | ERetry code attempt maxTry inner =>
      string_of_list_ascii (take 128 (pool_buffer e))
      ++ RetryError_text code attempt maxTry
           match inner with Some i => Error i | None => "" end
  end.

(** [errors.Is(err, target)] for a package-level [target]: identity on the
    chain of [Unwrap]. *)
Fixpoint errors_Is (e : error) (target : sentinel) : bool :=
  match e with
  | ESentinel s => sentinel_eqb s target
  | EWrap _ inner _ => errors_Is inner target
  | EOp _ _ _ inner => errors_Is inner target
  | EConn _ _ _ (Some inner) _ => errors_Is inner target
  | ERetry _ _ _ (Some inner) => errors_Is inner target
  | _ => false
  end.

(** ** Error classifier *)

(** The pattern table of [containsNetworkErrorPattern], in its order. *)
Definition patterns : list string :=
  [ "connection refused"; "i/o timeout"; "broken pipe";
    "network is unreachable"; "no such host"; "unexpected EOF";
    "connection reset"; "host is down"; "network down"; "protocol error" ].

(** [containsNetworkErrorPattern]: the first pattern found ends the loop. *)
Definition containsNetworkErrorPattern (errStr : string) : bool :=
  existsb (Contains errStr) patterns.

(** [isNetworkError] on a non-nil error. *)
Fixpoint isNetworkError_nonnil (err : error) : bool :=
  match err with
  | EErrno ECONNREFUSED | EErrno ECONNRESET | EErrno ETIMEDOUT
  | EErrno ENETUNREACH | EErrno EHOSTUNREACH
  | ESentinel io_EOF | ESentinel io_ErrUnexpectedEOF => true
  | EOp _ _ timeout inner =>
      if timeout then true else isNetworkError_nonnil inner
  | EDNS _ _ IsNotFound IsTimeout => IsNotFound || IsTimeout
  | _ => containsNetworkErrorPattern (Error err)
  end.

(** [isNetworkError]; [None] is Go's [nil]. *)
Definition isNetworkError (err : option error) : bool :=
  match err with
  | None => false
  | Some e => isNetworkError_nonnil e
  end.

(** [WebSocketClient.inferErrorCode]. *)
Definition inferErrorCode (err : option error) : ErrorCode :=
  match err with
  | None => ErrCodeUnknownError
  | Some e =>
      let errStr := Error e in
      if Contains errStr "connection refused" then ErrCodeConnectionRefused
      else if Contains errStr "timeout" then ErrCodeConnectionTimeout
      else if Contains errStr "no such host" then ErrCodeDNSError
      else if Contains errStr "tls" then ErrCodeTLSError
      else if Contains errStr "handshake" then ErrCodeHandshakeFailed
      else if Contains errStr "message too large" then ErrCodeMessageTooLarge
      else if Contains errStr "invalid" then ErrCodeInvalidMessage
      else if Contains errStr "broken pipe" || Contains errStr "connection reset"
           then ErrCodeConnectionLost
      else ErrCodeUnknownError
  end.

(** [WebSocketClient.extractErrorCode]: the type switch on the error
    itself (not on its chain). *)
Definition extractErrorCode (err : option error) : ErrorCode :=
  match err with
  | Some (EConn code _ _ _ _) => code
  | Some (ERetry code _ _ _) => code
  | _ => inferErrorCode err
  end.

(** ** Recovery selector, [DefaultErrorRecovery] *)

Inductive RecoveryStrategy : Type :=
| RecoveryNone | RecoveryRetry | RecoveryReconnect | RecoveryReset
| RecoveryFallback.

(** [DefaultErrorRecovery.GetRecoveryStrategy]. *)
Definition GetRecoveryStrategy (err : option error) : RecoveryStrategy :=
  match err with
  | None => RecoveryNone
  | Some e =>
      if isNetworkError err then RecoveryReconnect
      else if errors_Is e ErrConnectionClosed then RecoveryReconnect
      else if errors_Is e ErrHandshakeTimeout then RecoveryRetry
      else if errors_Is e ErrReadTimeout || errors_Is e ErrWriteTimeout
           then RecoveryReset
      else
        match e with
        | EConn code _ _ _ _ =>
            if (code =? ErrCodeConnectionRefused) || (code =? ErrCodeConnectionTimeout)
            then RecoveryReconnect
            else if (code =? ErrCodeSendTimeout) || (code =? ErrCodeReceiveTimeout)
            then RecoveryRetry
            else if code =? ErrCodeMessageTooLarge
            then RecoveryFallback
            else RecoveryRetry
        | _ => RecoveryRetry
        end
  end.

(** [DefaultErrorRecovery.CanRecover]. *)
Definition CanRecover (err : option error) : bool :=
  match err with
  | None => false
  | Some e =>
      if isNetworkError err then true
      else if errors_Is e ErrConnectionClosed then true
      else if errors_Is e ErrConnectionFailed then true
      else if errors_Is e ErrHandshakeTimeout then true
      else if errors_Is e ErrReadTimeout then true
      else if errors_Is e ErrWriteTimeout then true
      else match e with
           | EConn _ _ _ _ retry => retry
           | _ => false
           end
  end.

(** The send-timeout failure [SendMessage] builds when the transport
    refuses the write deadline. *)
Definition sendTimeoutErr (url : string) (cause : error) : error :=
  EConn ErrCodeSendTimeout "send" url (Some cause) false.

End Classifier.


(** ** Constants of the package *)

Definition second : Z := 1000000000.

Definition DefaultMaxRetries : Z := 5.
Definition DefaultRetryDelay : Z := 3 * second.
Definition MinRetryDelay : Z := 1 * second.
Definition MaxRetryDelay : Z := 60 * second.
Definition DefaultPingInterval : Z := 30 * second.
Definition HandshakeTimeout : Z := 15 * second.
Definition ReadTimeout : Z := 60 * second.
Definition WriteTimeout : Z := 5 * second.
Definition DefaultReadBufferSize : Z := 4096.
Definition DefaultWriteBufferSize : Z := 4096.
Definition MaxMessageSize : Z := 32768.
Definition SmallBufferSize : Z := 1024.
Definition MediumBufferSize : Z := 4096.
Definition LargeBufferSize : Z := 16384.

(** The message types of the WebSocket library. *)
Definition TextMessage : Z := 1.
Definition BinaryMessage : Z := 2.
Definition CloseMessage : Z := 8.
Definition PingMessage : Z := 9.
Definition PongMessage : Z := 10.

(** ** Data model *)

(** [ConnectionState], an [int32] with six named values. *)
Inductive ConnectionState : Type :=
| StateDisconnected | StateConnecting | StateConnected
| StateReconnecting | StateStopping | StateStopped.

Definition ConnectionState_iota (s : ConnectionState) : Z :=
  match s with
  | StateDisconnected => 0 | StateConnecting => 1 | StateConnected => 2
  | StateReconnecting => 3 | StateStopping => 4 | StateStopped => 5
  end.

Definition ConnectionState_eqb (a b : ConnectionState) : bool :=
  ConnectionState_iota a =? ConnectionState_iota b.

(** [ClientConfig]: the fields the engine reads. *)
Module ClientConfig.
Record t : Type := mk {
  URL : string;
  MaxRetries : Z;
  RetryDelay : Z;
  HandshakeTimeout : Z;
  ReadTimeout : Z;
  WriteTimeout : Z;
  PingInterval : Z;
  DisableAutoPing : bool;
  ReadBufferSize : Z;
  WriteBufferSize : Z;
  MaxMessageSize : Z;
  MetricsEnabled : bool
}.
End ClientConfig.

(** [NewDefaultConfig]. *)
Definition NewDefaultConfig (url : string) : ClientConfig.t :=
  {| ClientConfig.URL := url;
     ClientConfig.MaxRetries := DefaultMaxRetries;
     ClientConfig.RetryDelay := DefaultRetryDelay;
     ClientConfig.HandshakeTimeout := HandshakeTimeout;
     ClientConfig.ReadTimeout := ReadTimeout;
     ClientConfig.WriteTimeout := WriteTimeout;
     ClientConfig.PingInterval := DefaultPingInterval;
     ClientConfig.DisableAutoPing := false;
     ClientConfig.ReadBufferSize := DefaultReadBufferSize;
     ClientConfig.WriteBufferSize := DefaultWriteBufferSize;
     ClientConfig.MaxMessageSize := MaxMessageSize;
     ClientConfig.MetricsEnabled := false |}.

(** [ClientConfig.validateRetryConfig]; [None] is a nil error. *)
Definition validateRetryConfig (c : ClientConfig.t) : option error :=
  if ClientConfig.MaxRetries c <? 0
  then Some (EWrap "" (ESentinel ErrInvalidConfig) ": 重试次数不能为负数")
  else if (ClientConfig.RetryDelay c <? MinRetryDelay)
          || (MaxRetryDelay <? ClientConfig.RetryDelay c)
  then Some (EWrap "" (ESentinel ErrInvalidConfig) ": 重试间隔必须在 1s 到 1m0s 之间")
  else None.

(** [ClientConfig.validateBufferConfig]. *)
Definition validateBufferConfig (c : ClientConfig.t) : option error :=
  if (ClientConfig.ReadBufferSize c <=? 0)
     || (ClientConfig.WriteBufferSize c <=? 0)
     || (ClientConfig.MaxMessageSize c <=? 0)
  then Some (EWrap "" (ESentinel ErrInvalidConfig) ": 缓冲区大小必须为正数")
  else None.

Module ErrorTrendPoint.
Record t : Type := mk {
  Timestamp : Z;
  ErrorCount : Z;
  ErrorCode : Z
}.
End ErrorTrendPoint.

(** [ErrorStats], the error book. *)
Record ErrorStats : Type := mkErrorStats {
  TotalErrors : Z;
  ErrorsByCode : gmap Z Z;
  LastError : option error;
  LastErrorTime : Z;
  ErrorTrend : list ErrorTrendPoint.t
}.

(** [ConnectionStats]. *)
Record ConnectionStats : Type := mkConnectionStats {
  ConnectTime : Z;
  LastMessageTime : Z;
  MessagesSent : Z;
  MessagesReceived : Z;
  BytesSent : Z;
  BytesReceived : Z;
  ReconnectCount : Z;
  Errors : ErrorStats
}.

(** [PrometheusMetrics]: the fields the engine writes. *)
Record PrometheusMetrics : Type := mkPrometheusMetrics {
  ConnectionsActive : Z;
  ReconnectionsTotal : Z;
  MessagesSentTotal : Z;
  MessagesReceivedTotal : Z;
  BytesSentTotal : Z;
  BytesReceivedTotal : Z;
  ErrorsTotal : Z;
  ErrorsByCodeTotal : gmap Z Z
}.

(** [SecurityChecker]. *)
Record SecurityChecker : Type := mkSecurityChecker {
  sc_maxMessageSize : Z;
  blockedPatterns : list string;
  suspiciousCount : Z;
  lastSecurityEvent : Z
}.

(** [RateLimiter]. *)
Record RateLimiter : Type := mkRateLimiter {
  maxRequests : Z;
  timeWindow : Z;
  requests : list Z;
  blockedUntil : Z;
  violationCount : Z
}.

(** [DefaultMessageProcessor]. *)
Record DefaultMessageProcessor : Type := mkDefaultMessageProcessor {
  maxMessageSize : Z;
  validateJSON : bool
}.

(** [DefaultErrorRecovery]. *)
Record DefaultErrorRecovery : Type := mkDefaultErrorRecovery {
  maxRetries : Z;
  retryDelay : Z;
  recoveryHistory : gmap string Z
}.

(** A transport handle, [*websocket.Conn], by its identity. *)
Definition Conn := nat.

(** What the client does to the world, in order: the ghost trace. *)
Inductive sleep_reason : Type := RetryWait | RecoveryWait.

Inductive Event : Type :=
| Dialed                                      (* connector.Connect *)
| Wrote (conn : Conn) (messageType : Z) (data : string)
                                              (* conn.WriteMessage / WriteControl *)
| Closed (conn : Conn)                        (* conn.Close *)
| Slept (why : sleep_reason) (d : Z).         (* a timer ran to its end *)

(** [WebSocketClient].  [ctx_done] is the state of [c.ctx]; [clock] is the
    time [time.Now()] returns, moved on by the waits; [trace] is ghost. *)
Record WebSocketClient : Type := mkWebSocketClient {
  config : ClientConfig.t;
  conn : option Conn;
  ctx_done : bool;
  State : ConnectionState;
  RetryCount : Z;
  Stats : ConnectionStats;
  metrics : PrometheusMetrics;
  messageProcessor : DefaultMessageProcessor;
  errorRecovery : DefaultErrorRecovery;
  AutoRecovery : bool;
  AdaptiveBuffer : bool;
  securityChecker : SecurityChecker;
  rateLimiter : RateLimiter;
  clock : Z;
  trace : list Event
}.

(** Field updates. *)
Definition with_conn (v : option Conn) (c : WebSocketClient) : WebSocketClient :=
  mkWebSocketClient (config c) v (ctx_done c) (State c) (RetryCount c) (Stats c)
    (metrics c) (messageProcessor c) (errorRecovery c) (AutoRecovery c)
    (AdaptiveBuffer c) (securityChecker c) (rateLimiter c) (clock c) (trace c).

Definition with_ctx_done (v : bool) (c : WebSocketClient) : WebSocketClient :=
  mkWebSocketClient (config c) (conn c) v (State c) (RetryCount c) (Stats c)
    (metrics c) (messageProcessor c) (errorRecovery c) (AutoRecovery c)
    (AdaptiveBuffer c) (securityChecker c) (rateLimiter c) (clock c) (trace c).

Definition with_State (v : ConnectionState) (c : WebSocketClient) : WebSocketClient :=
  mkWebSocketClient (config c) (conn c) (ctx_done c) v (RetryCount c) (Stats c)
    (metrics c) (messageProcessor c) (errorRecovery c) (AutoRecovery c)
    (AdaptiveBuffer c) (securityChecker c) (rateLimiter c) (clock c) (trace c).

Definition with_RetryCount (v : Z) (c : WebSocketClient) : WebSocketClient :=
  mkWebSocketClient (config c) (conn c) (ctx_done c) (State c) v (Stats c)
    (metrics c) (messageProcessor c) (errorRecovery c) (AutoRecovery c)
    (AdaptiveBuffer c) (securityChecker c) (rateLimiter c) (clock c) (trace c).

Definition with_Stats (v : ConnectionStats) (c : WebSocketClient) : WebSocketClient :=
  mkWebSocketClient (config c) (conn c) (ctx_done c) (State c) (RetryCount c) v
    (metrics c) (messageProcessor c) (errorRecovery c) (AutoRecovery c)
    (AdaptiveBuffer c) (securityChecker c) (rateLimiter c) (clock c) (trace c).

Definition with_metrics (v : PrometheusMetrics) (c : WebSocketClient) : WebSocketClient :=
  mkWebSocketClient (config c) (conn c) (ctx_done c) (State c) (RetryCount c)
    (Stats c) v (messageProcessor c) (errorRecovery c) (AutoRecovery c)
    (AdaptiveBuffer c) (securityChecker c) (rateLimiter c) (clock c) (trace c).

Definition with_errorRecovery (v : DefaultErrorRecovery) (c : WebSocketClient)
  : WebSocketClient :=
  mkWebSocketClient (config c) (conn c) (ctx_done c) (State c) (RetryCount c)
    (Stats c) (metrics c) (messageProcessor c) v (AutoRecovery c)
    (AdaptiveBuffer c) (securityChecker c) (rateLimiter c) (clock c) (trace c).

Definition with_securityChecker (v : SecurityChecker) (c : WebSocketClient)
  : WebSocketClient :=
  mkWebSocketClient (config c) (conn c) (ctx_done c) (State c) (RetryCount c)
    (Stats c) (metrics c) (messageProcessor c) (errorRecovery c) (AutoRecovery c)
    (AdaptiveBuffer c) v (rateLimiter c) (clock c) (trace c).

Definition with_rateLimiter (v : RateLimiter) (c : WebSocketClient)
  : WebSocketClient :=
  mkWebSocketClient (config c) (conn c) (ctx_done c) (State c) (RetryCount c)
    (Stats c) (metrics c) (messageProcessor c) (errorRecovery c) (AutoRecovery c)
    (AdaptiveBuffer c) (securityChecker c) v (clock c) (trace c).

Definition with_clock (v : Z) (c : WebSocketClient) : WebSocketClient :=
  mkWebSocketClient (config c) (conn c) (ctx_done c) (State c) (RetryCount c)
    (Stats c) (metrics c) (messageProcessor c) (errorRecovery c) (AutoRecovery c)
    (AdaptiveBuffer c) (securityChecker c) (rateLimiter c) v (trace c).

Definition emit (e : Event) (c : WebSocketClient) : WebSocketClient :=
  mkWebSocketClient (config c) (conn c) (ctx_done c) (State c) (RetryCount c)
    (Stats c) (metrics c) (messageProcessor c) (errorRecovery c) (AutoRecovery c)
    (AdaptiveBuffer c) (securityChecker c) (rateLimiter c) (clock c)
    (trace c ++ [e])%list.

(** [len(data)] of a byte slice. *)
Definition len (data : string) : Z := Z.of_nat (String.length data).

(** [NewSecurityChecker], [NewRateLimiter], [NewDefaultMessageProcessor],
    [NewDefaultErrorRecovery]. *)
Definition NewSecurityChecker (maxMessageSize : Z) : SecurityChecker :=
  {| sc_maxMessageSize := maxMessageSize;
     blockedPatterns :=
       [ "<script"; "javascript:"; "eval("; "document.cookie"; "window.location" ];
     suspiciousCount := 0;
     lastSecurityEvent := 0 |}.

Definition NewRateLimiter (maxRequests timeWindow : Z) : RateLimiter :=
  {| maxRequests := maxRequests; timeWindow := timeWindow; requests := [];
     blockedUntil := 0; violationCount := 0 |}.

Definition NewDefaultMessageProcessor (maxSize : Z) (validateJSON : bool)
  : DefaultMessageProcessor :=
  {| maxMessageSize := maxSize; validateJSON := validateJSON |}.

Definition NewDefaultErrorRecovery (maxRetries retryDelay : Z)
  : DefaultErrorRecovery :=
  {| maxRetries := maxRetries; retryDelay := retryDelay; recoveryHistory := ∅ |}.

(** [NewWebSocketClient] on a non-nil configuration, started at time
    [now]: [createClientInstance], [initializeCoreComponents],
    [initializeAdvancedFeatures], [initializeSecurityFeatures]. *)
Definition NewWebSocketClient (cfg : ClientConfig.t) (now : Z) : WebSocketClient :=
  {| config := cfg;
     conn := None;
     ctx_done := false;
     State := StateDisconnected;
     RetryCount := 0;
     Stats := {| ConnectTime := 0; LastMessageTime := 0; MessagesSent := 0;
                 MessagesReceived := 0; BytesSent := 0; BytesReceived := 0;
                 ReconnectCount := 0;
                 Errors := {| TotalErrors := 0; ErrorsByCode := ∅;
                              LastError := None; LastErrorTime := 0;
                              ErrorTrend := [] |} |};
     metrics := {| ConnectionsActive := 0; ReconnectionsTotal := 0;
                   MessagesSentTotal := 0; MessagesReceivedTotal := 0;
                   BytesSentTotal := 0; BytesReceivedTotal := 0;
                   ErrorsTotal := 0; ErrorsByCodeTotal := ∅ |};
     messageProcessor :=
       NewDefaultMessageProcessor (ClientConfig.MaxMessageSize cfg) false;
     errorRecovery :=
       NewDefaultErrorRecovery (ClientConfig.MaxRetries cfg)
         (ClientConfig.RetryDelay cfg);
     AutoRecovery := true;
     AdaptiveBuffer := true;
     securityChecker := NewSecurityChecker (ClientConfig.MaxMessageSize cfg);
     rateLimiter := NewRateLimiter 100 (60 * second);
     clock := now;
     trace := [] |}.

Section Engine.

Context {L : Library}.

(** ** State cell *)

(** [GetState], [setState], [isConnected]. *)
Definition GetState (c : WebSocketClient) : ConnectionState := State c.

Definition setState (state : ConnectionState) (c : WebSocketClient)
  : WebSocketClient := with_State state c.

Definition isConnected (c : WebSocketClient) : bool :=
  ConnectionState_eqb (GetState c) StateConnected.

(** [getConnSafely]. *)
Definition getConnSafely (c : WebSocketClient) : option Conn * bool :=
  (conn c, ConnectionState_eqb (State c) StateConnected).

(** ** Stats and error book *)

(** [m[k]++] on a Go map of [int64]: a missing key reads as zero. *)
Definition map_incr (k : Z) (m : gmap Z Z) : gmap Z Z :=
  <[ k := wrap64 (default 0 (m !! k) + 1) ]> m.

(** The cap of [recordError]: beyond 1000 points the slice is re-sliced to
    its last 1000. *)
Definition cap_trend (l : list ErrorTrendPoint.t) : list ErrorTrendPoint.t :=
  if (1000 <? length l)%nat then drop (length l - 1000) l else l.

(** [WebSocketClient.updateStats]. *)
Definition updateStats (dataLen : Z) (sent : bool) (c : WebSocketClient)
  : WebSocketClient :=
  let s := Stats c in
  let m := metrics c in
  if sent
  then
    with_metrics
      (mkPrometheusMetrics (ConnectionsActive m) (ReconnectionsTotal m)
         (wrap64 (MessagesSentTotal m + 1)) (MessagesReceivedTotal m)
         (wrap64 (BytesSentTotal m + dataLen)) (BytesReceivedTotal m)
         (ErrorsTotal m) (ErrorsByCodeTotal m))
      (with_Stats
         (mkConnectionStats (ConnectTime s) (clock c)
            (wrap64 (MessagesSent s + 1)) (MessagesReceived s)
            (wrap64 (BytesSent s + dataLen)) (BytesReceived s)
            (ReconnectCount s) (Errors s))
         c)
  else
    with_metrics
      (mkPrometheusMetrics (ConnectionsActive m) (ReconnectionsTotal m)
         (MessagesSentTotal m) (wrap64 (MessagesReceivedTotal m + 1))
         (BytesSentTotal m) (wrap64 (BytesReceivedTotal m + dataLen))
         (ErrorsTotal m) (ErrorsByCodeTotal m))
      (with_Stats
         (mkConnectionStats (ConnectTime s) (clock c)
            (MessagesSent s) (wrap64 (MessagesReceived s + 1))
            (BytesSent s) (wrap64 (BytesReceived s + dataLen))
            (ReconnectCount s) (Errors s))
         c).

(** [WebSocketClient.recordError]. *)
Definition recordError (err : option error) (c : WebSocketClient)
  : WebSocketClient :=
  let s := Stats c in
  let e := Errors s in
  let m := metrics c in
  let errorCode := extractErrorCode err in
  let trendPoint :=
    {| ErrorTrendPoint.Timestamp := clock c;
       ErrorTrendPoint.ErrorCount := 1;
       ErrorTrendPoint.ErrorCode := errorCode |} in
  with_metrics
    (mkPrometheusMetrics (ConnectionsActive m) (ReconnectionsTotal m)
       (MessagesSentTotal m) (MessagesReceivedTotal m)
       (BytesSentTotal m) (BytesReceivedTotal m)
       (wrap64 (ErrorsTotal m + 1)) (map_incr errorCode (ErrorsByCodeTotal m)))
    (with_Stats
       (mkConnectionStats (ConnectTime s) (LastMessageTime s)
          (MessagesSent s) (MessagesReceived s) (BytesSent s) (BytesReceived s)
          (ReconnectCount s)
          (mkErrorStats (wrap64 (TotalErrors e + 1))
             (map_incr errorCode (ErrorsByCode e))
             err (clock c)
             (cap_trend (ErrorTrend e ++ [trendPoint])%list)))
       c).

(** [errors_by_code_total{code}]: the tally of the error book. *)
Definition errors_by_code (code : ErrorCode) (c : WebSocketClient) : Z :=
  default 0 (ErrorsByCode (Errors (Stats c)) !! code).

(** ** Waiting on a context *)

(** [select { case <-ctx.Done(): ...; case <-time.After(d): ... }]: does
    the timer of [d] run to its end?  Not when the context is done
    already, nor when its time budget ends before [d] has passed.  (When
    both cases are ready at once Go takes either; the model takes the
    context if it is done and the timer if the budget ends with it.)  No
    cancellation arrives during a wait. *)
Definition timer_elapses (done : bool) (budget : option Z) (d : Z) : bool :=
  negb done
  && match budget with
     | Some t => d <=? t
     | None => true
     end.

Definition sleep (why : sleep_reason) (d : Z) (c : WebSocketClient)
  : WebSocketClient :=
  emit (Slept why d) (with_clock (clock c + d) c).

(** ** Recovery operations of [DefaultErrorRecovery] *)

(** [fmt.Sprintf("%T", err)]. *)
Definition type_name (e : error) : string :=
  match e with
  | ESentinel _ | ENew _ => "*errors.errorString"
  | EErrno _ => "syscall.Errno"
  | EWrap _ _ _ => "*fmt.wrapError"
  | EOp _ _ _ _ => "*net.OpError"
  | EDNS _ _ _ _ => "*net.DNSError"
  | EConn _ _ _ _ _ => "*main.ConnectionError"
  | ERetry _ _ _ _ => "*main.RetryError"
  end.

Definition with_der (v : DefaultErrorRecovery) (c : WebSocketClient)
  : WebSocketClient := with_errorRecovery v c.

(** [retryOperation]; the result [true] stands for a nil error. *)
Definition retryOperation (budget : option Z) (e : error) (c : WebSocketClient)
  : WebSocketClient * bool :=
  let der := errorRecovery c in
  let errType := type_name e in
  let retryCount := default 0 (recoveryHistory der !! errType) in
  let c1 :=
    with_der (mkDefaultErrorRecovery (maxRetries der) (retryDelay der)
                (<[ errType := wrap64 (retryCount + 1) ]> (recoveryHistory der))) c in
  if maxRetries der <=? retryCount then (c1, false)
  else if timer_elapses (ctx_done c1) budget (retryDelay der)
       then (sleep RecoveryWait (retryDelay der) c1, true)
       else (c1, false).

(** [reconnectOperation]. *)
Definition reconnectOperation (budget : option Z) (c : WebSocketClient)
  : WebSocketClient * bool :=
  let der := errorRecovery c in
  if timer_elapses (ctx_done c) budget (retryDelay der)
  then (sleep RecoveryWait (retryDelay der) c, true)
  else (c, false).

(** [resetOperation]. *)
Definition resetOperation (budget : option Z) (c : WebSocketClient)
  : WebSocketClient * bool :=
  let der := errorRecovery c in
  let c1 := with_der (mkDefaultErrorRecovery (maxRetries der) (retryDelay der) ∅) c in
  if timer_elapses (ctx_done c1) budget second
  then (sleep RecoveryWait second c1, true)
  else (c1, false).

(** [fallbackOperation]. *)
Definition fallbackOperation (c : WebSocketClient) : WebSocketClient * bool :=
  let der := errorRecovery c in
  (with_der
     (mkDefaultErrorRecovery
        (Z.max (Z.quot (maxRetries der) 2) 1)
        (Z.min (wrap64 (retryDelay der * 2)) (30 * second))
        (recoveryHistory der)) c,
   true).

(** [DefaultErrorRecovery.Recover]. *)
Definition Recover (budget : option Z) (e : error) (c : WebSocketClient)
  : WebSocketClient * bool :=
  if negb (CanRecover (Some e)) then (c, false)
  else
    match GetRecoveryStrategy (Some e) with
    | RecoveryRetry => retryOperation budget e c
    | RecoveryReconnect => reconnectOperation budget c
    | RecoveryReset => resetOperation budget c
    | RecoveryFallback => fallbackOperation c
    | RecoveryNone => (c, false)
    end.

(** [attemptErrorRecovery]: the recovery runs under a context bounded by
    the handshake timeout. *)
Definition attemptErrorRecovery (e : error) (c : WebSocketClient)
  : WebSocketClient :=
  if AutoRecovery c && CanRecover (Some e)
  then fst (Recover (Some (ClientConfig.HandshakeTimeout (config c))) e c)
  else c.

(** [handleErrorWithRecovery]: the recovery runs under [c.ctx]. *)
Definition handleErrorWithRecovery (e : error) (c : WebSocketClient)
  : WebSocketClient :=
  let c1 := recordError (Some e) c in
  if AutoRecovery c1 && CanRecover (Some e)
  then fst (Recover None e c1)
  else c1.

(** ** Connecting *)

(** The close frame of a polite close:
    [FormatCloseMessage(CloseNormalClosure, ...)], status 1000 in two
    bytes and the reason. *)
Definition closeFrame : string :=
  String (ascii_of_nat 3) (String (ascii_of_nat 232) "客户端主动关闭").

(** [DefaultConnector.Disconnect] on a non-nil handle. *)
Definition Disconnect (k : Conn) (c : WebSocketClient) : WebSocketClient :=
  emit (Closed k) (emit (Wrote k CloseMessage closeFrame) c).

(** [setupConnection]. *)
Definition setupConnection (newConn : Conn) (c : WebSocketClient)
  : WebSocketClient :=
  let c1 := match conn c with
            | Some old => Disconnect old c
            | None => c
            end in
  let c2 := with_conn (Some newConn) c1 in
  let s := Stats c2 in
  let c3 :=
    with_Stats
      (mkConnectionStats (clock c2) (LastMessageTime s) (MessagesSent s)
         (MessagesReceived s) (BytesSent s) (BytesReceived s)
         (wrap64 (ReconnectCount s + 1)) (Errors s)) c2 in
  setState StateConnected c3.

(** [handleConnectionError]: the new state and the error returned. *)
Definition handleConnectionError (e : error) (c : WebSocketClient)
  : WebSocketClient * error :=
  let c1 := setState StateDisconnected c in
  let c2 := recordError (Some e) c1 in
  let c3 := attemptErrorRecovery e c2 in
  (c3, EConn (inferErrorCode (Some e)) "connect" (ClientConfig.URL (config c3))
         (Some e) true).

(** What one dial of the connector yields. *)
Inductive dial : Type :=
| DialFailed (e : error)
| DialOk (k : Conn).

(** [Connect], against the outcome [d] of [establishConnection]. *)
Definition Connect (d : dial) (c : WebSocketClient)
  : WebSocketClient * option error :=
  let c1 := emit Dialed (setState StateConnecting c) in
  match d with
  | DialFailed e =>
      let (c2, err) := handleConnectionError e c1 in (c2, Some err)
  | DialOk k => (setupConnection k c1, None)
  end.

(** ** Retry policy *)

(** The guarded conversion of an [int] limit to [int32] that
    [shouldStopRetrying] and [calculateRetryDelay] share: the decimal
    round trip through [strconv.ParseInt(_, 10, 32)] is the identity on
    [0 .. MaxInt32]. *)
Definition limit_to_int32 (limit : Z) : Z :=
  if limit <? 0 then 0
  else if MaxInt32 <? limit then MaxInt32
  else limit.

(** [shouldStopRetrying]. *)
Definition shouldStopRetrying (c : WebSocketClient) : bool :=
  let fastLimit := ClientConfig.MaxRetries (config c) in
  if fastLimit =? 0 then false
  else
    let totalLimit := wrap64 (ClientConfig.MaxRetries (config c) * 2) in
    let retryCount := RetryCount c in
    let totalLimitInt32 := limit_to_int32 totalLimit in
    (0 <? totalLimit) && (totalLimitInt32 <=? retryCount).

(** [calculateRetryDelay]. *)
Definition calculateRetryDelay (c : WebSocketClient) : Z :=
  let fastLimit :=
    if ClientConfig.MaxRetries (config c) =? 0 then 5
    else ClientConfig.MaxRetries (config c) in
  let totalLimit := wrap64 (ClientConfig.MaxRetries (config c) * 2) in
  let retryCount := RetryCount c in
  let fastLimitInt32 := limit_to_int32 fastLimit in
  if retryCount <=? fastLimitInt32 then 0
  else if totalLimit =? 0 then ClientConfig.RetryDelay (config c)
  else ClientConfig.RetryDelay (config c).

(** [waitForRetry]. *)
Definition waitForRetry (c : WebSocketClient) : WebSocketClient * bool :=
  let retryDelay := calculateRetryDelay c in
  if timer_elapses (ctx_done c) None retryDelay
  then (sleep RetryWait retryDelay c, true)
  else (c, false).

(** [attemptConnection]. *)
Definition attemptConnection (d : dial) (c : WebSocketClient)
  : WebSocketClient * bool :=
  match Connect d c with
  | (c1, Some _) =>
      let c2 := with_RetryCount (wrap32 (RetryCount c1 + 1)) c1 in
      if shouldStopRetrying c2 then (c2, false)
      else waitForRetry c2
  | (c1, None) => (with_RetryCount 0 c1, true)
  end.

(** ** Message validation, security check, rate limit *)

(** [%d] of [fmt]. *)
Definition fmt_d (i : Z) : string :=
  if i =? 0 then "0"
  else if i <? 0 then "-" ++ WriteInt_digits 20 (- i) ""
       else WriteInt_digits 20 i "".

(** [DefaultMessageProcessor.ValidateMessage]; [None] is a nil error. *)
Definition ValidateMessage (dmp : DefaultMessageProcessor)
    (messageType : Z) (data : string) : option error :=
  if negb ((messageType =? TextMessage) || (messageType =? BinaryMessage)
           || (messageType =? PingMessage) || (messageType =? PongMessage)
           || (messageType =? CloseMessage))
  then Some (ENew ("无效的消息类型: " ++ fmt_d messageType))
  else if maxMessageSize dmp <? len data
  then Some (ENew ("消息大小 " ++ fmt_d (len data) ++ " 超过限制 "
                   ++ fmt_d (maxMessageSize dmp)))
  else None.

(** [DefaultMessageProcessor.ProcessMessage]. *)
Definition ProcessMessage (dmp : DefaultMessageProcessor)
    (messageType : Z) (data : string) : option error :=
  match ValidateMessage dmp messageType data with
  | Some e => Some (EWrap "消息验证失败: " e "")
  | None => None
  end.

(** [strings.ToLower]: the ASCII path for a text of ASCII bytes, the
    case tables of the library otherwise. *)
Definition ToLower (s : string) : string :=
  if is_ascii s then ToLower_ascii s else unicode_ToLower s.

(** The pattern loop of [CheckMessage]: the first blocked pattern found. *)
Fixpoint first_blocked (contentLower : string) (ps : list string) : option string :=
  match ps with
  | [] => None
  | p :: ps' => if Contains contentLower p then Some p else first_blocked contentLower ps'
  end.

(** [SecurityChecker.recordSecurityEvent]. *)
Definition recordSecurityEvent (now : Z) (sc : SecurityChecker) : SecurityChecker :=
  mkSecurityChecker (sc_maxMessageSize sc) (blockedPatterns sc)
    (wrap64 (suspiciousCount sc + 1)) now.

(** [SecurityChecker.CheckMessage]. *)
Definition CheckMessage (now : Z) (sc : SecurityChecker)
    (messageType : Z) (data : string) : SecurityChecker * option error :=
  if sc_maxMessageSize sc <? len data
  then (recordSecurityEvent now sc,
        Some (ENew ("消息大小超过安全限制: " ++ fmt_d (len data) ++ " > "
                    ++ fmt_d (sc_maxMessageSize sc))))
  else if messageType =? TextMessage
  then match first_blocked (ToLower data) (blockedPatterns sc) with
       | Some p => (recordSecurityEvent now sc,
                    Some (ENew ("检测到可疑内容模式: " ++ p)))
       | None => (sc, None)
       end
  else (sc, None).

(** [RateLimiter.Allow]. *)
Definition Allow (now : Z) (rl : RateLimiter) : RateLimiter * bool :=
  if now <? blockedUntil rl then (rl, false)
  else
    let cutoff := now - timeWindow rl in
    let validRequests := filter (fun reqTime => cutoff < reqTime) (requests rl) in
    if maxRequests rl <=? Z.of_nat (length validRequests)
    then (mkRateLimiter (maxRequests rl) (timeWindow rl) validRequests
            (now + timeWindow rl) (wrap64 (violationCount rl + 1)), false)
    else (mkRateLimiter (maxRequests rl) (timeWindow rl)
            (validRequests ++ [now])%list (blockedUntil rl) (violationCount rl), true).

(** ** Sending *)

(** What the transport answers to one [SendMessage]: the outcome of
    [SetWriteDeadline] and of [WriteMessage] ([None] is a nil error). *)
Record transport : Type := mkTransport {
  deadline_err : option error;
  write_err : option error
}.

(** [WebSocketClient.SendMessage].  The bytes handed to [WriteMessage]
    are those of [data], whichever buffer of the pool carries them. *)
Definition SendMessage (tr : transport) (messageType : Z) (data : string)
    (c : WebSocketClient) : WebSocketClient * option error :=
  let url := ClientConfig.URL (config c) in
  let (rl, allowed) := Allow (clock c) (rateLimiter c) in
  let c := with_rateLimiter rl c in
  if negb allowed then
    let err := EConn ErrCodeRateLimitExceeded "send" url
                 (Some (ENew "发送频率超过限制")) true in
    (recordError (Some err) c, Some err)
  else
  let (sc, secErr) := CheckMessage (clock c) (securityChecker c) messageType data in
  let c := with_securityChecker sc c in
  match secErr with
  | Some e =>
      let securityErr := EConn ErrCodeSecurityViolation "send" url (Some e) false in
      (recordError (Some securityErr) c, Some securityErr)
  | None =>
  match getConnSafely c with
  | (None, _) | (Some _, false) =>
      let err := EConn ErrCodeConnectionLost "send" url
                   (Some (ESentinel ErrConnectionClosed)) false in
      (recordError (Some err) c, Some err)
  | (Some k, true) =>
  match ValidateMessage (messageProcessor c) messageType data with
  | Some e =>
      let validationErr := EConn ErrCodeInvalidMessage "send" url (Some e) false in
      (recordError (Some validationErr) c, Some validationErr)
  | None =>
  let formattedData := data in
  if ClientConfig.MaxMessageSize (config c) <? len formattedData then
    let err := EConn ErrCodeMessageTooLarge "send" url
                 (Some (ENew ("消息大小 " ++ fmt_d (len formattedData) ++ " 超过限制 "
                              ++ fmt_d (ClientConfig.MaxMessageSize (config c)))))
                 false in
    (recordError (Some err) c, Some err)
  else
  match deadline_err tr with
  | Some e =>
      let timeoutErr := EConn ErrCodeSendTimeout "send" url (Some e) false in
      (recordError (Some timeoutErr) c, Some timeoutErr)
  | None =>
  let c := emit (Wrote k messageType formattedData) c in
  match write_err tr with
  | Some e =>
      let sendErr := EConn (inferErrorCode (Some e)) "send" url (Some e) true in
      (handleErrorWithRecovery sendErr c, Some sendErr)
  | None =>
      (updateStats (len formattedData) true c, None)
  end end end end end.

(** [sendControlMessage]: pings of the heartbeat and pongs of the ping
    handler. *)
Definition sendControlMessage (write_err : option error) (messageType : Z)
    (data : string) (c : WebSocketClient) : WebSocketClient * option error :=
  match getConnSafely c with
  | (None, _) | (Some _, false) => (c, Some (ENew "连接已关闭"))
  | (Some k, true) => (emit (Wrote k messageType data) c, write_err)
  end.

(** ** Reading *)

(** [processReceivedMessage]. *)
Definition processReceivedMessage (messageType : Z) (message : string)
    (c : WebSocketClient) : WebSocketClient :=
  let c1 := updateStats (len message) false c in
  match ProcessMessage (messageProcessor c1) messageType message with
  | Some e => handleErrorWithRecovery e c1
  | None => c1
  end.

(** [shouldContinueReading]. *)
Definition shouldContinueReading (c : WebSocketClient) : bool :=
  if ctx_done c then false
  else match getConnSafely c with
       | (Some _, true) => true
       | _ => false
       end.

(** [handleReadError]. *)
Definition handleReadError (c : WebSocketClient) : WebSocketClient :=
  setState StateDisconnected c.

(** The handlers that [setupPingPongHandlers] installs on a new
    handle.  A ping is answered with a pong of the same application data
    through [sendControlMessage], whose error the handler returns;
    [pong_err] is what [WriteControl] answers.  A pong is taken note of.
    ([resetTimeout] moves the read deadline of the transport and no
    state of the client.) *)
Definition PingHandler (pong_err : option error) (appData : string)
    (c : WebSocketClient) : WebSocketClient * option error :=
  sendControlMessage pong_err PongMessage appData c.

Definition PongHandler (appData : string) (c : WebSocketClient)
  : WebSocketClient * option error := (c, None).

(** What one call of [conn.ReadMessage] meets.  The library hands the
    control frames that arrive to the handlers, in order, and returns
    when a data message is complete or when the read fails.  It delivers
    text and binary messages and no other type; a frame of an unknown
    type, a close frame or the error of a handler fails the read.  (What
    the library writes by itself, the echo of a close frame, is no write
    of the client and is not in the trace.) *)
Inductive control_frame : Type :=
| Ping (appData : string) (pong_err : option error)
| Pong (appData : string).

Inductive data_type : Type := Text | Binary.

Definition messageType_of (t : data_type) : Z :=
  match t with
  | Text => TextMessage
  | Binary => BinaryMessage
  end.

Record incoming : Type := mkIncoming {
  controls : list control_frame;
  delivered : option (data_type * string)       (* [None]: the read fails *)
}.

(** The control frames of one read, handled in order; [false] when the
    error of a handler fails the read. *)
Fixpoint handle_controls (cs : list control_frame) (c : WebSocketClient)
  : WebSocketClient * bool :=
  match cs with
  | [] => (c, true)
  | Ping appData pong_err :: rest =>
      match PingHandler pong_err appData c with
      | (c1, Some _) => (c1, false)
      | (c1, None) => handle_controls rest c1
      end
  | Pong appData :: rest =>
      match PongHandler appData c with
      | (c1, Some _) => (c1, false)
      | (c1, None) => handle_controls rest c1
      end
  end.

(** [conn.ReadMessage()] as the client meets it; [None] is an error. *)
Definition ReadMessage (i : incoming) (c : WebSocketClient)
  : WebSocketClient * option (Z * string) :=
  let (c1, ok) := handle_controls (controls i) c in
  if ok
  then (c1, option_map (fun d => (messageType_of (fst d), snd d)) (delivered i))
  else (c1, None).

(** The loop of [ReadMessages] over what the reads meet, one after the
    other; when nothing is left the read fails. *)
Fixpoint ReadMessages_loop (reads : list incoming) (c : WebSocketClient)
  : WebSocketClient :=
  if negb (shouldContinueReading c) then c
  else match reads with
       | [] => handleReadError c
       | i :: rest =>
           match ReadMessage i c with
           | (c1, None) => handleReadError c1
           | (c1, Some (messageType, message)) =>
               ReadMessages_loop rest (processReceivedMessage messageType message c1)
           end
       end.

(** [ReadMessages] with its deferred cleanup. *)
Definition ReadMessages (reads : list incoming) (c : WebSocketClient)
  : WebSocketClient :=
  let c1 := setState StateDisconnected (ReadMessages_loop reads c) in
  match conn c1 with
  | Some k => with_conn None (emit (Closed k) c1)
  | None => c1
  end.

(** [handleConnectedSession], the reader run to its end. *)
Definition handleConnectedSession (reads : list incoming)
    (c : WebSocketClient) : WebSocketClient * bool :=
  let c1 := ReadMessages reads c in
  (c1, negb (ctx_done c1)).

(** ** Supervisor *)

(** One turn of the main loop as the world answers it: the outcome of the
    dial and, for a live connection, what the reads meet until it drops. *)
Record turn : Type := mkTurn {
  outcome : dial;
  received : list incoming
}.

(** The loop of [Start]. *)
Fixpoint Start_loop (script : list turn) (c : WebSocketClient) : WebSocketClient :=
  match script with
  | [] => c
  | t :: rest =>
      if ctx_done c then c
      else
        let (c1, go) := attemptConnection (outcome t) c in
        if negb go then c1
        else
          let (c2, again) := handleConnectedSession (received t) c1 in
          if negb again then c2 else Start_loop rest c2
  end.

(** [Start]: the loop, then the deferred [c.cancel()]. *)
Definition Start (script : list turn) (c : WebSocketClient) : WebSocketClient :=
  with_ctx_done true (Start_loop script c).

(** ** Stopping *)

(** [WebSocketClient.Stop]. *)
Definition Stop (c : WebSocketClient) : WebSocketClient :=
  let c1 := with_ctx_done true c in
  let c2 := setState StateDisconnected c1 in
  match conn c2 with
  | Some k =>
      with_conn None (emit (Closed k) (emit (Wrote k CloseMessage closeFrame) c2))
  | None => c2
  end.

(** ** Telemetry endpoints *)

Definition StatusOK : Z := 200.
Definition StatusServiceUnavailable : Z := 503.

(** The answer of an endpoint: the HTTP status and the flag of the JSON
    body ([ready] for [/ready], [status == "healthy"] for [/health]). *)
Record response : Type := mkResponse {
  status : Z;
  flag : bool;
  state_name : ConnectionState
}.

(** [handleReady]. *)
Definition handleReady (c : WebSocketClient) : response :=
  let ready := isConnected c in
  let httpStatus := if negb ready then StatusServiceUnavailable else StatusOK in
  mkResponse httpStatus ready (GetState c).

(** [handleHealth]. *)
Definition handleHealth (c : WebSocketClient) : response :=
  let state := GetState c in
  if ConnectionState_eqb state StateStopped || ConnectionState_eqb state StateStopping
  then mkResponse StatusServiceUnavailable false state
  else mkResponse StatusOK true state.

(** [updatePrometheusMetrics]. *)
Definition updatePrometheusMetrics (c : WebSocketClient) : WebSocketClient :=
  let s := Stats c in
  let m := metrics c in
  with_metrics
    (mkPrometheusMetrics
       (if isConnected c then 1 else 0)
       (ReconnectCount s)
       (MessagesSent s) (MessagesReceived s) (BytesSent s) (BytesReceived s)
       (TotalErrors (Errors s))
       (ErrorsByCode (Errors s) ∪ ErrorsByCodeTotal m))
    c.

(** ** Vocabulary of the properties *)

(** The kind of an error, as the error book files it. *)
Definition kind (e : error) : ErrorCode := extractErrorCode (Some e).

(** Two failures of the timeout kinds: the one [SendMessage] builds when
    the write deadline is refused, and a receive timeout. *)
Definition send_timeout_example : error :=
  sendTimeoutErr "ws://h"
    (EOp "set" "tcp" false (ENew "use of closed network connection")).

Definition receive_timeout_example : error :=
  EConn ErrCodeReceiveTimeout "recv" "ws://h" None true.

(** A live session over the handle [k] whose three size limits are the
    one limit [M], as [NewWebSocketClient] sets them from the
    configuration. *)
Definition connected_with_limit (c : WebSocketClient) (k : Conn) (M : Z) : Prop :=
  conn c = Some k
  /\ State c = StateConnected
  /\ ClientConfig.MaxMessageSize (config c) = M
  /\ maxMessageSize (messageProcessor c) = M
  /\ sc_maxMessageSize (securityChecker c) = M.

(** A transport that accepts the deadline and the write. *)
Definition transport_ok : transport :=
  {| deadline_err := None; write_err := None |}.

(** The configuration of the oversized-send scenario: a limit of 10 bytes. *)
Definition config_limit_10 : ClientConfig.t :=
  ClientConfig.mk "wss://echo.example/ws" DefaultMaxRetries DefaultRetryDelay
    HandshakeTimeout ReadTimeout WriteTimeout DefaultPingInterval false
    DefaultReadBufferSize DefaultWriteBufferSize 10 false.

(** One live session of that configuration. *)
Definition session_limit_10 : WebSocketClient :=
  fst (Connect (DialOk 1%nat) (NewWebSocketClient config_limit_10 0)).

(** The waits of the retry policy in a trace, in order, and the number of
    dials. *)
Definition retry_waits (tr : list Event) : list Z :=
  omap (fun ev => match ev with
                  | Slept RetryWait d => Some d
                  | _ => None
                  end) tr.

Definition dials (tr : list Event) : nat :=
  length (omap (fun ev => match ev with
                          | Dialed => Some tt
                          | _ => None
                          end) tr).

(** The frames handed to the transport in a trace. *)
Definition written (tr : list Event) : list (Conn * Z * string) :=
  omap (fun ev => match ev with
                  | Wrote k t d => Some (k, t, d)
                  | _ => None
                  end) tr.

(** A dial that times out, and a world in which every dial does. *)
Definition dial_timeout : error := EOp "dial" "tcp" true (ENew "i/o timeout").

Definition always_failing (e : error) (n : nat) : list turn :=
  repeat (mkTurn (DialFailed e) []) n.

(** The configuration of the exhausted-retries scenario: [max_retries]
    is [n], the slow delay the default 3 s. *)
Definition config_retries (n : Z) : ClientConfig.t :=
  ClientConfig.mk "wss://echo.example/ws" n DefaultRetryDelay
    HandshakeTimeout ReadTimeout WriteTimeout DefaultPingInterval false
    DefaultReadBufferSize DefaultWriteBufferSize MaxMessageSize false.

(** The operations of the client, with what the world answers them. *)
Inductive operation : Type :=
| OpSendMessage (tr : transport) (messageType : Z) (data : string)
| OpSendControl (write_err : option error) (messageType : Z) (data : string)
| OpConnect (d : dial)
| OpAttemptConnection (d : dial)
| OpReceive (t : data_type) (message : string)
| OpReadMessages (reads : list incoming)
| OpRecordError (err : option error)
| OpMetrics
| OpStop
| OpStart (script : list turn).

Definition apply (o : operation) (c : WebSocketClient) : WebSocketClient :=
  match o with
  | OpSendMessage tr messageType data => fst (SendMessage tr messageType data c)
  | OpSendControl werr messageType data =>
      fst (sendControlMessage werr messageType data c)
  | OpConnect d => fst (Connect d c)
  | OpAttemptConnection d => fst (attemptConnection d c)
  | OpReceive t message => processReceivedMessage (messageType_of t) message c
  | OpReadMessages reads => ReadMessages reads c
  | OpRecordError err => recordError err c
  | OpMetrics => updatePrometheusMetrics c
  | OpStop => Stop c
  | OpStart script => Start script c
  end.

(** The six counters of the statistics. *)
Inductive counter : Type :=
| messages_sent | messages_received | bytes_sent | bytes_received
| reconnect_count | errors_total.

Definition read (k : counter) (c : WebSocketClient) : Z :=
  match k with
  | messages_sent => MessagesSent (Stats c)
  | messages_received => MessagesReceived (Stats c)
  | bytes_sent => BytesSent (Stats c)
  | bytes_received => BytesReceived (Stats c)
  | reconnect_count => ReconnectCount (Stats c)
  | errors_total => TotalErrors (Errors (Stats c))
  end.

(** Each counter of [c'] is at least that of [c]. *)
Definition counters_le (c c' : WebSocketClient) : Prop :=
  forall k, read k c <= read k c'.

(** Each counter of [c'] is that of [c] plus something in [0 .. w]. *)
Definition grows_by (w : Z) (c c' : WebSocketClient) : Prop :=
  forall k, read k c <= read k c' <= read k c + w.

(** The counters are [int64] values with room for [n] more. *)
Definition fits (c : WebSocketClient) (n : Z) : Prop :=
  forall k, MinInt64 <= read k c /\ read k c + n <= MaxInt64.

(** Room enough for what an operation can add to a counter. *)
Definition incoming_weight (i : incoming) : Z :=
  match delivered i with
  | Some d => 2 + len (snd d)
  | None => 0
  end.

Definition reads_weight (reads : list incoming) : Z :=
  foldr (fun i acc => incoming_weight i + acc) 0 reads.

Definition script_weight (script : list turn) : Z :=
  foldr (fun t acc => 1 + reads_weight (received t) + acc) 0 script.

Definition weight (o : operation) : Z :=
  match o with
  | OpSendMessage _ _ data => 1 + len data
  | OpSendControl _ _ _ => 0
  | OpConnect _ => 1
  | OpAttemptConnection _ => 1
  | OpReceive _ message => 2 + len message
  | OpReadMessages reads => reads_weight reads
  | OpRecordError _ => 1
  | OpMetrics => 0
  | OpStop => 0
  | OpStart script => script_weight script
  end.

(** What a recovery operation may touch: the recovery's own fields, the
    clock and the recovery waits of the trace; nothing else. *)
Definition recovery_frame (c c' : WebSocketClient) : Prop :=
  config c' = config c
  /\ conn c' = conn c
  /\ ctx_done c' = ctx_done c
  /\ State c' = State c
  /\ RetryCount c' = RetryCount c
  /\ Stats c' = Stats c
  /\ AutoRecovery c' = AutoRecovery c
  /\ retry_waits (trace c') = retry_waits (trace c)
  /\ dials (trace c') = dials (trace c)
  /\ written (trace c') = written (trace c).

(** The wait the policy takes when the counter stands at [j]. *)
Definition policy_wait (N D j : Z) : Z := if j <=? N then 0 else D.

(** The waits still to come when [m] attempts are left before the limit
    [2N]: the attempt that reaches the limit is followed by no wait. *)
Fixpoint waits_left (N D : Z) (m : nat) : list Z :=
  match m with
  | O => []
  | S m' =>
      match m' with
      | O => []
      | S _ => policy_wait N D (2 * N - Z.of_nat m') :: waits_left N D m'
      end
  end.

(** The exhausted-retries scenario: [max_retries = 2], every dial timing
    out, run to the end of [Start]. *)
Definition exhausted_run : WebSocketClient :=
  Start (always_failing dial_timeout 5) (NewWebSocketClient (config_retries 2) 0).

(** The same world with [max_retries = 1]. *)
Definition exhausted_run_1 : WebSocketClient :=
  Start (always_failing dial_timeout 5) (NewWebSocketClient (config_retries 1) 0).

(** The client of that scenario after three failed turns, one short of
    the limit. *)
Definition before_give_up : WebSocketClient :=
  Start_loop (always_failing dial_timeout 3) (NewWebSocketClient (config_retries 2) 0).

(** The states the code ever stores. *)
Definition stored_state (s : ConnectionState) : Prop :=
  s = StateDisconnected \/ s = StateConnecting \/ s = StateConnected.

(** A five-byte text sent over the live session of the 10-byte limit. *)
Definition send_hello : operation := OpSendMessage transport_ok TextMessage "hello".

End Engine.

(** ** Goroutines, locks and the transport *)

(** The two locks of the client: [c.mu] (a reader-writer lock) and
    [c.writeMu]. *)
Inductive mutex : Type := mu | writeMu.

(** What a goroutine does to the locks and to the transport. *)
Inductive action : Type :=
| RLock                 (* c.mu.RLock() *)
| RUnlock               (* c.mu.RUnlock() *)
| Lock (m : mutex)
| Unlock (m : mutex)
| BeginWrite            (* conn.WriteMessage / conn.WriteControl is entered *)
| EndWrite.             (* and returns *)

(** The lock and write actions of [SendMessage] on its successful path,
    in program order. *)
Definition SendMessage_actions : list action :=
  [ RLock; RUnlock;        (* getConnSafely *)
    Lock writeMu;          (* c.writeMu.Lock() *)
    BeginWrite; EndWrite;  (* conn.WriteMessage(messageType, sendData) *)
    Lock mu; Unlock mu;    (* updateStats *)
    Unlock writeMu ].      (* deferred c.writeMu.Unlock() *)

(** Those of [sendControlMessage]: the pings of [sendPeriodicPing] and
    the pongs of the ping handler. *)
Definition sendControlMessage_actions : list action :=
  [ RLock; RUnlock;        (* getConnSafely *)
    Lock writeMu;
    BeginWrite; EndWrite;  (* conn.WriteControl *)
    Unlock writeMu ].

(** Those of [Stop] with a live handle: the close frame is written under
    [c.mu]. *)
Definition Stop_actions : list action :=
  [ Lock mu;               (* c.mu.Lock() *)
    BeginWrite; EndWrite;  (* c.conn.WriteMessage(websocket.CloseMessage, ...) *)
    Unlock mu ].

(** Those of [setupConnection] over an old handle: the close frame of
    [DefaultConnector.Disconnect] is written under [c.mu] as well. *)
Definition setupConnection_actions : list action :=
  [ Lock mu;               (* c.mu.Lock() *)
    BeginWrite; EndWrite;  (* conn.WriteMessage(websocket.CloseMessage, ...) *)
    Unlock mu ].           (* deferred *)

(** A goroutine: what it has still to do, the locks it holds and whether
    it is inside a transport write. *)
Record goroutine : Type := mkGoroutine {
  todo : list action;
  has_writeMu : bool;
  has_mu : bool;
  has_rmu : bool;
  writing : bool
}.

Definition spawn (code : list action) : goroutine :=
  mkGoroutine code false false false false.

Definition pool := list goroutine.

Fixpoint count (f : goroutine -> bool) (p : pool) : nat :=
  match p with
  | [] => 0
  | g :: p' => ((if f g then 1 else 0) + count f p')%nat
  end.

(** The transport writes in flight. *)
Definition in_flight (p : pool) : nat := count writing p.

(** A lock can be taken when no goroutine holds it; [c.mu] is taken for
    writing when it has no reader either, for reading when it has no
    writer. *)
Definition free_writeMu (p : pool) : bool := (count has_writeMu p =? 0)%nat.
Definition free_mu (p : pool) : bool :=
  ((count has_mu p =? 0) && (count has_rmu p =? 0))%nat.
Definition free_rmu (p : pool) : bool := (count has_mu p =? 0)%nat.

(** One action of the goroutine [g] in the pool [p]; [None] when it is
    blocked or has finished. *)
Definition step_goroutine (p : pool) (g : goroutine) : option goroutine :=
  match todo g with
  | [] => None
  | a :: rest =>
      match a with
      | RLock =>
          if free_rmu p
          then Some (mkGoroutine rest (has_writeMu g) (has_mu g) true (writing g))
          else None
      | RUnlock =>
          Some (mkGoroutine rest (has_writeMu g) (has_mu g) false (writing g))
      | Lock writeMu =>
          if free_writeMu p
          then Some (mkGoroutine rest true (has_mu g) (has_rmu g) (writing g))
          else None
      | Lock mu =>
          if free_mu p
          then Some (mkGoroutine rest (has_writeMu g) true (has_rmu g) (writing g))
          else None
      | Unlock writeMu =>
          Some (mkGoroutine rest false (has_mu g) (has_rmu g) (writing g))
      | Unlock mu =>
          Some (mkGoroutine rest (has_writeMu g) false (has_rmu g) (writing g))
      | BeginWrite =>
          Some (mkGoroutine rest (has_writeMu g) (has_mu g) (has_rmu g) true)
      | EndWrite =>
          Some (mkGoroutine rest (has_writeMu g) (has_mu g) (has_rmu g) false)
      end
  end.

(** The scheduler lets the goroutine [i] take one action. *)
Definition step (i : nat) (p : pool) : option pool :=
  match p !! i with
  | None => None
  | Some g =>
      match step_goroutine p g with
      | None => None
      | Some g' => Some (<[ i := g' ]> p)
      end
  end.

(** A schedule: which goroutine moves at each instant. *)
Fixpoint run (schedule : list nat) (p : pool) : option pool :=
  match schedule with
  | [] => Some p
  | i :: rest =>
      match step i p with
      | None => None
      | Some p' => run rest p'
      end
  end.

(** Code that writes to the transport only while it holds [writeMu]:
    [held] and [inside] are the flags of the goroutine that runs it. *)
Fixpoint gated (held inside : bool) (code : list action) : bool :=
  match code with
  | [] => negb inside
  | BeginWrite :: rest => held && negb inside && gated held true rest
  | EndWrite :: rest => inside && gated held false rest
  | Lock writeMu :: rest => negb held && gated true inside rest
  | Unlock writeMu :: rest => held && negb inside && gated false inside rest
  | _ :: rest => gated held inside rest
  end.

Definition gated_goroutine (g : goroutine) : bool :=
  gated (has_writeMu g) (writing g) (todo g) && implb (writing g) (has_writeMu g).

(** The pools in which every goroutine writes under [writeMu] and at most
    one holds it. *)
Definition serialized (p : pool) : Prop :=
  Forall (fun g => gated_goroutine g = true) p /\ (count has_writeMu p <= 1)%nat.

(** A user sending while the client stops. *)
Definition send_and_stop : pool := [spawn SendMessage_actions; spawn Stop_actions].

Section Runs.

Context {L : Library}.

(** ** Runs of operations *)

(** The client after a sequence of operations, each with what the world
    answers it. *)
Definition run_ops (ops : list operation) (c : WebSocketClient) : WebSocketClient :=
  foldl (fun c o => apply o c) c ops.

(** The operations that dial: a direct call of [Connect] or of
    [attemptConnection]. *)
Definition dials_directly (o : operation) : bool :=
  match o with
  | OpConnect _ | OpAttemptConnection _ => true
  | _ => false
  end.

(** ** Handles *)

(** From [c] to [c'] the trace has only grown, and the handle [c] held is
    still held or has been closed on the way. *)
Definition handle_safe (c c' : WebSocketClient) : Prop :=
  exists s, trace c' = (trace c ++ s)%list
            /\ (conn c' = conn c
                \/ forall k, conn c = Some k -> In (Closed k) s).

(** A session on which Stop is then called, and what is tried after it. *)
Definition after_stop_ops : list operation :=
  [ send_hello;
    OpSendControl None PingMessage "";
    OpReadMessages [mkIncoming [] (Some (Text, "late"))];
    OpStop;
    OpStart (always_failing dial_timeout 2) ].

(** ** What a reader receives *)

(** The client after the events [evs], in turn, and the pongs written to
    the handle [k] for the pings of application data [ps]. *)
Definition emit_all (evs : list Event) (c : WebSocketClient) : WebSocketClient :=
  foldl (fun c ev => emit ev c) c evs.

Definition pong_writes (k : Conn) (ps : list string) : list Event :=
  map (Wrote k PongMessage) ps.

(** The pings among the control frames of one read that the handler
    answers: every ping up to the first whose pong the transport
    refuses, that one included; and whether every handler returned nil. *)
Fixpoint pings_answered (cs : list control_frame) : list string * bool :=
  match cs with
  | [] => ([], true)
  | Ping appData (Some _) :: _ => ([appData], false)
  | Ping appData None :: rest =>
      let (ps, ok) := pings_answered rest in (appData :: ps, ok)
  | Pong _ :: rest => pings_answered rest
  end.

(** What a live reader takes of a run of reads: the messages delivered
    to it and the pings it answers, up to the read that fails. *)
Fixpoint taken (reads : list incoming) : list (data_type * string) * list string :=
  match reads with
  | [] => ([], [])
  | i :: rest =>
      let (ps, ok) := pings_answered (controls i) in
      if ok
      then match delivered i with
           | Some d => let (ms, ps') := taken rest in (d :: ms, (ps ++ ps')%list)
           | None => ([], ps)
           end
      else ([], ps)
  end.

(** The bytes of the messages, and the number of them that the message
    processor refuses. *)
Definition messages_bytes (ms : list (data_type * string)) : Z :=
  foldr (fun d acc => len (snd d) + acc) 0 ms.

Definition refused_messages (dmp : DefaultMessageProcessor)
    (ms : list (data_type * string)) : Z :=
  foldr (fun d acc =>
           match ProcessMessage dmp (messageType_of (fst d)) (snd d) with
           | Some _ => 1 + acc
           | None => acc
           end) 0 ms.

(** What the reads of the 10-byte session meet in turn: a text; a ping
    and then a text beyond the limit; a pong and then the end of the
    connection. *)
Definition three_reads : list incoming :=
  [ mkIncoming [] (Some (Text, "hi"));
    mkIncoming [Ping "p" None] (Some (Text, "much too long"));
    mkIncoming [Pong ""] None ].

(** ** The retry policy without a limit *)

(** The waits of [n] failed attempts in a row when the counter stands at
    [j] and [max_retries] is 0: the fast phase lasts to the counter
    value 5. *)
Fixpoint unlimited_waits (D : Z) (j : Z) (n : nat) : list Z :=
  match n with
  | O => []
  | S n' => policy_wait 5 D (j + 1) :: unlimited_waits D (j + 1) n'
  end.

(** ** Runs of the rate limiter *)

(** [Allow] called at each of the [times] in turn: the limiter at the end
    and the times at which the call was let through. *)
Fixpoint Allow_run (times : list Z) (rl : RateLimiter) : RateLimiter * list Z :=
  match times with
  | [] => (rl, [])
  | t :: ts =>
      let (rl1, ok) := Allow t rl in
      let (rl2, g) := Allow_run ts rl1 in
      (rl2, if ok then t :: g else g)
  end.

(** The readings of a clock that does not go back, as those of
    [time.Now()] are. *)
Fixpoint monotone_from (lo : Z) (times : list Z) : bool :=
  match times with
  | [] => true
  | t :: ts => (lo <=? t) && monotone_from t ts
  end.

Definition nondecreasing (times : list Z) : bool :=
  match times with
  | [] => true
  | t :: ts => monotone_from t ts
  end.

(** What holds of the limiter [rl] at the time [now] of its last call,
    [G] being the times let through so far: every request still inside
    a window that can come is on record, the record is no longer than
    the limit, and no window of the past holds more grants than the
    limit. *)
Definition limiter_inv (now : Z) (rl : RateLimiter) (G : list Z) : Prop :=
  (forall s, now - timeWindow rl <= s ->
             filter (fun x => s < x) G = filter (fun x => s < x) (requests rl))
  /\ Forall (fun x => x <= now) G
  /\ Z.of_nat (length (requests rl)) <= Z.max 0 (maxRequests rl)
  /\ (forall t, Z.of_nat (length (filter (fun x => t - timeWindow rl < x /\ x <= t) G))
                <= Z.max 0 (maxRequests rl)).

(** A burst of five calls within one second, then one call after the
    window, against a limiter of 3 requests per 10 s. *)
Definition burst : list Z := [0; 1; 2; 3; 4; 15 * second].

(** ** The books: statistics and metrics *)

(** The books of the client: its statistics and its Prometheus metrics. *)
Definition books (c : WebSocketClient) : ConnectionStats * PrometheusMetrics :=
  (Stats c, metrics c).

(** One step on the books: they stay, or they change as [updateStats],
    [recordError], [setupConnection] or [updatePrometheusMetrics]
    changes them. *)
Definition books_step (c c' : WebSocketClient) : Prop :=
  books c' = books c
  \/ (exists n b, 0 <= n /\ books c' = books (updateStats n b c))
  \/ (exists err, books c' = books (recordError err c))
  \/ (exists k, books c' = books (setupConnection k c))
  \/ books c' = books (updatePrometheusMetrics c).

(** The metrics kept on the way agree with the statistics. *)
Definition mirrored (b : ConnectionStats * PrometheusMetrics) : Prop :=
  let (s, m) := b in
  MessagesSentTotal m = MessagesSent s
  /\ MessagesReceivedTotal m = MessagesReceived s
  /\ BytesSentTotal m = BytesSent s
  /\ BytesReceivedTotal m = BytesReceived s
  /\ ErrorsTotal m = TotalErrors (Errors s)
  /\ ErrorsByCodeTotal m = ErrorsByCode (Errors s).

(** The sum of the tallies of a book of errors by code. *)
Definition tally_sum (m : gmap Z Z) : Z :=
  map_fold (fun _ v acc => v + acc) 0 m.

(** The total of the error book is the sum of its tallies, as [int64]
    values are. *)
Definition adds_up (b : ConnectionStats * PrometheusMetrics) : Prop :=
  TotalErrors (Errors (fst b)) = wrap64 (tally_sum (ErrorsByCode (Errors (fst b)))).

End Runs.

(** ** Reading a decimal numeral *)

(** The reference reading of a decimal numeral, against which
    [FastStringBuilder.WriteInt] is checked: digits only, an optional
    minus sign before them, at least one digit. *)
Fixpoint read_digits (s : string) (acc : Z) : option Z :=
  match s with
  | EmptyString => Some acc
  | String a rest =>
      let n := nat_of_ascii a in
      if ((48 <=? n) && (n <=? 57))%nat
      then read_digits rest (acc * 10 + Z.of_nat (n - 48))
      else None
  end.

Definition read_decimal (s : string) : option Z :=
  match s with
  | EmptyString => None
  | String a rest =>
      if Ascii.eqb a "-"
      then match rest with
           | EmptyString => None
           | String _ _ => option_map Z.opp (read_digits rest 0)
           end
      else read_digits s 0
  end.

(** ** Byte slices, the buffer pool and the string builder *)

(** A Go byte slice that starts where its backing array starts: the
    array, whose length is the capacity, and the length of the slice. *)
Module GoSlice.

Record t : Type := mk {
  array : list ascii;
  length_ : nat
}.

Definition cap (b : t) : nat := length (array b).

(** The elements of the slice. *)
Definition bytes (b : t) : list ascii := take (length_ b) (array b).

(** [make([]byte, n)]. *)
Definition make (n : nat) : t := mk (repeat Ascii.zero n) n.

(** [b[:n]]; beyond the capacity it panics ([None]). *)
Definition reslice (b : t) (n : nat) : option t :=
  if (n <=? cap b)%nat then Some (mk (array b) n) else None.

(** [append(b, s...)]: in place while the capacity suffices, into a new
    array otherwise (of which only the elements are kept: nothing here
    reads its spare capacity, which the runtime chooses). *)
Definition append (b : t) (s : list ascii) : t :=
  if (length_ b + length s <=? cap b)%nat
  then mk (bytes b ++ s ++ drop (length_ b + length s) (array b))%list
          (length_ b + length s)
  else mk (bytes b ++ s)%list (length_ b + length s).

(** [copy(dst, src)]. *)
Definition copy (dst : t) (src : list ascii) : t :=
  let n := Nat.min (length_ dst) (length src) in
  mk (take n src ++ drop n (array dst))%list (length_ dst).

End GoSlice.

Module BufferPool.

(** [BufferPool.Get(size)].  [pooled T] is the array of the buffer that
    the [sync.Pool] of the buffers of capacity [T] hands out: a buffer
    that [Put] gave back, with the bytes it held, or a new one of
    zeros.  Either has length and capacity [T]. *)
Definition Get (pooled : Z -> list ascii) (size : Z) : option GoSlice.t :=
  if size <? 0 then None
  else if size <=? SmallBufferSize
  then GoSlice.reslice
         (GoSlice.mk (pooled SmallBufferSize) (length (pooled SmallBufferSize)))
         (Z.to_nat size)
  else if size <=? MediumBufferSize
  then GoSlice.reslice
         (GoSlice.mk (pooled MediumBufferSize) (length (pooled MediumBufferSize)))
         (Z.to_nat size)
  else if size <=? LargeBufferSize
  then GoSlice.reslice
         (GoSlice.mk (pooled LargeBufferSize) (length (pooled LargeBufferSize)))
         (Z.to_nat size)
  else Some (GoSlice.make (Z.to_nat size)).

(** [BufferPool.Put(buf)]: the capacity of the pool that takes the
    buffer back, and the array it takes; [None] when the buffer is
    dropped. *)
Definition Put (buf : GoSlice.t) : option (Z * list ascii) :=
  if (GoSlice.length_ buf =? 0)%nat then None
  else
    let c := Z.of_nat (GoSlice.cap buf) in
    if (c =? SmallBufferSize) || (c =? MediumBufferSize) || (c =? LargeBufferSize)
    then Some (c, GoSlice.array buf)
    else None.

(** The capacity of the pool that serves a size within the largest. *)
Definition tier (size : Z) : Z :=
  if size <=? SmallBufferSize then SmallBufferSize
  else if size <=? MediumBufferSize then MediumBufferSize
  else LargeBufferSize.

(** The buffers of a pool have the capacity of their pool. *)
Definition well_formed (pooled : Z -> list ascii) : Prop :=
  length (pooled SmallBufferSize) = Z.to_nat SmallBufferSize
  /\ length (pooled MediumBufferSize) = Z.to_nat MediumBufferSize
  /\ length (pooled LargeBufferSize) = Z.to_nat LargeBufferSize.

(** A pool that has handed nothing back yet: every buffer is new. *)
Definition fresh (T : Z) : list ascii := repeat Ascii.zero (Z.to_nat T).

End BufferPool.

Module FastStringBuilder.

Definition t : Type := GoSlice.t.

(** [NewFastStringBuilder(initialSize)]. *)
Definition New (pooled : Z -> list ascii) (initialSize : Z) : option t :=
  BufferPool.Get pooled initialSize.

(** [WriteString], [WriteByte]. *)
Definition WriteString (s : string) (fsb : t) : t :=
  GoSlice.append fsb (list_ascii_of_string s).

Definition WriteByte (b : ascii) (fsb : t) : t := GoSlice.append fsb [b].

(** [WriteInt]. *)
Definition WriteInt (i : Z) (fsb : t) : t :=
  if i =? 0 then WriteByte "0" fsb
  else
    let fsb1 := if i <? 0 then WriteByte "-" fsb else fsb in
    let i1 := if i <? 0 then wrap64 (- i) else i in
    GoSlice.append fsb1 (list_ascii_of_string (WriteInt_digits 20 i1 "")).

(** [String()]. *)
Definition String_ (fsb : t) : string := string_of_list_ascii (GoSlice.bytes fsb).

(** The writes of a builder, and the text each appends. *)
Inductive write : Type :=
| WString (s : string)
| WByte (b : ascii)
| WInt (i : Z).

Definition do_write (fsb : t) (w : write) : t :=
  match w with
  | WString s => WriteString s fsb
  | WByte b => WriteByte b fsb
  | WInt i => WriteInt i fsb
  end.

Definition text (w : write) : string :=
  match w with
  | WString s => s
  | WByte b => String b ""
  | WInt i => GoStrings.WriteInt i
  end.

Definition texts (ws : list write) : string :=
  foldr (fun w acc => text w ++ acc) "" ws.

End FastStringBuilder.

(** The writes of [ConnectionError.Error()] into its builder; [cause] is
    the text of [e.Err.Error()], when there is a cause. *)
Definition ConnectionError_writes (Code : ErrorCode) (Op URL : string)
    (cause : option string) (builder : FastStringBuilder.t) : FastStringBuilder.t :=
  let builder := FastStringBuilder.WriteByte "[" builder in
  let builder := FastStringBuilder.WriteInt Code builder in
  let builder := FastStringBuilder.WriteString "] 连接错误 [" builder in
  let builder := FastStringBuilder.WriteString Op builder in
  let builder := FastStringBuilder.WriteString "] " builder in
  let builder := FastStringBuilder.WriteString URL builder in
  let builder := FastStringBuilder.WriteString ": " builder in
  let builder := FastStringBuilder.WriteString (ErrorCode_String Code) builder in
  let builder := FastStringBuilder.WriteString " - " builder in
  match cause with
  | Some text => FastStringBuilder.WriteString text builder
  | None => builder
  end.

(** [ConnectionError.Error()]: the builder of initial size 128, the
    writes, and [String()]. *)
Definition ConnectionError_Error (pooled : Z -> list ascii)
    (Code : ErrorCode) (Op URL : string) (cause : option string) : option string :=
  match FastStringBuilder.New pooled 128 with
  | None => None
  | Some builder =>
      Some (FastStringBuilder.String_ (ConnectionError_writes Code Op URL cause builder))
  end.

(** The libraries after a send of the text "connection refused": the
    pool hands to [Error()] the buffer that carried the payload. *)
Definition stale_library : Library :=
  {| unicode_ToLower := ToLower_ascii;
     pool_buffer := fun _ =>
       (list_ascii_of_string "connection refused" ++ repeat Ascii.zero 1006)%list |}.

(** A failure of the send path that is no network error by itself. *)
Definition invalid_message_failure : error :=
  EConn ErrCodeInvalidMessage "send" "ws://h" (Some (ENew "type")) false.

(** ** The buffer of a send *)

(** What [calculateOptimalBufferSize] takes from the runtime: the two
    readings of the performance report and the two products in floating
    point, [int(float64(n) * 0.8)] and [int(float64(n) * 0.9)], of which
    nothing is assumed. *)
Record runtime : Type := mkRuntime {
  cpu_high : bool;       (* cpu_usage_percent > 80.0 *)
  mem_high : bool;       (* memory_usage_bytes > 100 MB *)
  times_0_8 : Z -> Z;
  times_0_9 : Z -> Z
}.

(** [calculateOptimalBufferSize]. *)
Definition calculateOptimalBufferSize (rt : runtime) (messageSize : Z) : Z :=
  let baseSize :=
    if messageSize <=? SmallBufferSize then SmallBufferSize
    else if messageSize <=? MediumBufferSize then MediumBufferSize
    else if messageSize <=? LargeBufferSize then LargeBufferSize
    else messageSize in
  let baseSize := if cpu_high rt then times_0_8 rt baseSize else baseSize in
  let baseSize := if mem_high rt then times_0_9 rt baseSize else baseSize in
  if baseSize <? messageSize then messageSize else baseSize.

(** The buffer part of [SendMessage]: the bytes handed to
    [conn.WriteMessage] and, when a pool buffer carried them, what the
    deferred [Put] does with it.  [None] is a panic. *)
Definition send_buffer (rt : runtime) (pooled : Z -> list ascii)
    (adaptive : bool) (formattedData : list ascii)
  : option (list ascii * option (option (Z * list ascii))) :=
  let n := length formattedData in
  let via_pool (size : Z) :=
    match BufferPool.Get pooled size with
    | None => None
    | Some buf =>
        let buf := GoSlice.copy buf formattedData in
        match GoSlice.reslice buf n with
        | None => None
        | Some sendData => Some (GoSlice.bytes sendData, Some (BufferPool.Put buf))
        end
    end in
  if adaptive
  then
    let bufferSize := calculateOptimalBufferSize rt (Z.of_nat n) in
    if bufferSize <=? LargeBufferSize then via_pool bufferSize
    else Some (formattedData, None)
  else
    if Z.of_nat n <=? LargeBufferSize then via_pool (Z.of_nat n)
    else Some (formattedData, None).

(** The builder of [getMessageTypeString(11)] on new buffers, and its
    two writes. *)
Definition type_11_builder : FastStringBuilder.t :=
  GoSlice.mk (BufferPool.fresh SmallBufferSize) 16.

Definition type_11_writes : list FastStringBuilder.write :=
  [ FastStringBuilder.WString "TYPE_"; FastStringBuilder.WInt 11 ].

(** A runtime under load, whose products round down. *)
Definition busy_runtime : runtime :=
  {| cpu_high := true; mem_high := true;
     times_0_8 := fun n => n * 8 / 10;
     times_0_9 := fun n => n * 9 / 10 |}.

(** ** Further vocabulary *)

(** A text with a blocked pattern in capitals. *)
Definition shouting_script : string := "Hello <SCRIPT>alert(1)</SCRIPT>".

(** [retryOperation] called for each of the errors in turn, under a
    context that is not bounded in time: the client at the end and, for
    each call, whether it returned nil. *)
Fixpoint retry_run (es : list error) (c : WebSocketClient)
  : WebSocketClient * list bool :=
  match es with
  | [] => (c, [])
  | e :: rest =>
      let (c1, ok) := retryOperation None e c in
      let (c2, oks) := retry_run rest c1 in
      (c2, ok :: oks)
  end.

(** Four failures of the send path, all of them [*ConnectionError]
    values, of different kinds. *)
Definition four_send_failures : list error :=
  [ sendTimeoutErr "ws://h" (ENew "deadline");
    EConn ErrCodeInvalidMessage "send" "ws://h" (Some (ENew "type")) false;
    EConn ErrCodeUnknownError "send" "ws://h" (Some (ENew "short write")) true;
    EConn ErrCodeSendTimeout "send" "ws://h" (Some (ENew "deadline")) false ].

(** ** The message log *)

Definition hexChars : string := "0123456789abcdef".

(** What the loop of [writeHexBytes] appends for one byte: a "0" for a
    byte below 16, then [hexChars[b>>4]] and [hexChars[b&0xf]]. *)
Definition writeHexByte (b : ascii) : string :=
  let v := Z.of_nat (nat_of_ascii b) in
  (if v <? 16 then "0" else "")
  ++ substring (Z.to_nat (Z.shiftr v 4)) 1 hexChars
  ++ substring (Z.to_nat (Z.land v 15)) 1 hexChars.

(** [writeHexBytes]: the text appended to the builder. *)
Fixpoint writeHexBytes (data : string) : string :=
  match data with
  | EmptyString => ""
  | String b rest => writeHexByte b ++ writeHexBytes rest
  end.

(** The bytes below 16 of a payload. *)
Fixpoint bytes_below_16 (data : string) : nat :=
  match data with
  | EmptyString => 0
  | String b rest =>
      ((if (nat_of_ascii b <? 16)%nat then 1 else 0) + bytes_below_16 rest)%nat
  end.

(** The reference reading of that text: a byte of two digits when the
    first is not 0, and of three digits, the first two of them 0,
    otherwise. *)
Definition hex_digit (a : ascii) : option Z :=
  let n := nat_of_ascii a in
  if ((48 <=? n) && (n <=? 57))%nat then Some (Z.of_nat n - 48)
  else if ((97 <=? n) && (n <=? 102))%nat then Some (Z.of_nat n - 87)
  else None.

Fixpoint readHexBytes (s : string) : option string :=
  match s with
  | EmptyString => Some ""
  | String _ EmptyString => None
  | String a (String b rest) =>
      match hex_digit a, hex_digit b with
      | Some 0, Some 0 =>
          match rest with
          | EmptyString => None
          | String c rest' =>
              match hex_digit c with
              | Some x =>
                  option_map (String (ascii_of_nat (Z.to_nat x))) (readHexBytes rest')
              | None => None
              end
          end
      | Some 0, _ => None
      | Some h, Some l =>
          option_map (String (ascii_of_nat (Z.to_nat (16 * h + l)))) (readHexBytes rest)
      | _, _ => None
      end
  end.

Section Recovery.

Context {L : Library}.

(** ** The waits of the recovery *)

(** The waits of the recovery operations in a trace, in order. *)
Definition recovery_waits (tr : list Event) : list Z :=
  omap (fun ev => match ev with
                  | Slept RecoveryWait d => Some d
                  | _ => None
                  end) tr.

(** The wait that [Recover] takes for a recoverable error under a
    context that is neither done nor bounded in time. *)
Definition recovery_wait (der : DefaultErrorRecovery) (e : error) : list Z :=
  match GetRecoveryStrategy (Some e) with
  | RecoveryReconnect => [retryDelay der]
  | RecoveryRetry =>
      if default 0 (recoveryHistory der !! type_name e) <? maxRetries der
      then [retryDelay der]
      else []
  | RecoveryReset => [second]
  | RecoveryFallback | RecoveryNone => []
  end.

(** A transport that takes the deadline and then fails the write with a
    broken pipe. *)
Definition transport_broken : transport :=
  {| deadline_err := None;
     write_err := Some (EOp "write" "tcp" false (EErrno EPIPE)) |}.

End Recovery.

(** [buildTextContent], [buildBinaryContent], [buildMessageContent]: the
    text each appends to the builder of a log line. *)
Definition buildTextContent (data : string) : string :=
  if len data <=? 500 then data
  else substring 0 500 data ++ "...(truncated)".

Definition buildBinaryContent (data : string) : string :=
  if len data <=? 32 then "HEX: " ++ writeHexBytes data
  else "BINARY: " ++ WriteInt (len data) ++ " bytes, preview: "
       ++ writeHexBytes (substring 0 16 data) ++ "...".

Definition buildMessageContent (messageType : Z) (data : string) : string :=
  if messageType =? BinaryMessage then buildBinaryContent data
  else buildTextContent data.

(** A text of 501 bytes, one more than a log line shows in full. *)
Definition long_text : string := string_of_list_ascii (repeat "a"%char 501).

(** * Properties *)

(** ** Tactics *)

(** Reading a field of an updated client. *)
Ltac fields :=
  cbn [with_conn with_ctx_done with_State with_RetryCount with_Stats
       with_metrics with_errorRecovery with_securityChecker with_rateLimiter
       with_clock with_der emit setState sleep
       config conn ctx_done State RetryCount Stats metrics messageProcessor
       errorRecovery AutoRecovery AdaptiveBuffer securityChecker rateLimiter
       clock trace fst snd] in *.

Lemma retry_waits_app a b :
  retry_waits (a ++ b) = (retry_waits a ++ retry_waits b)%list.
Proof. apply omap_app. Qed.

Lemma written_app a b : written (a ++ b) = (written a ++ written b)%list.
Proof. apply omap_app. Qed.

Lemma dials_app a b : dials (a ++ b) = (dials a + dials b)%nat.
Proof. unfold dials. rewrite omap_app, length_app. reflexivity. Qed.

Ltac trace_simpl :=
  rewrite ?retry_waits_app, ?written_app, ?dials_app;
  change (retry_waits [Dialed]) with (@nil Z);
  change (written [Dialed]) with (@nil (Conn * Z * string));
  change (dials [Dialed]) with 1%nat;
  repeat match goal with
    | |- context [retry_waits [Slept RecoveryWait ?d]] =>
        change (retry_waits [Slept RecoveryWait d]) with (@nil Z)
    | |- context [retry_waits [Slept RetryWait ?d]] =>
        change (retry_waits [Slept RetryWait d]) with [d]
    | |- context [retry_waits [Wrote ?k ?t ?d]] =>
        change (retry_waits [Wrote k t d]) with (@nil Z)
    | |- context [retry_waits [Closed ?k]] =>
        change (retry_waits [Closed k]) with (@nil Z)
    | |- context [written [Slept ?w ?d]] =>
        change (written [Slept w d]) with (@nil (Conn * Z * string))
    | |- context [written [Closed ?k]] =>
        change (written [Closed k]) with (@nil (Conn * Z * string))
    | |- context [written [Wrote ?k ?t ?d]] =>
        change (written [Wrote k t d]) with [(k, t, d)]
    | |- context [dials [Slept ?w ?d]] =>
        change (dials [Slept w d]) with 0%nat
    | |- context [dials [Wrote ?k ?t ?d]] =>
        change (dials [Wrote k t d]) with 0%nat
    | |- context [dials [Closed ?k]] =>
        change (dials [Closed k]) with 0%nat
    end;
  rewrite ?app_nil_r, ?Nat.add_0_r, ?Nat.add_1_r.

(** The six counters, one goal each. *)
Ltac counter_cases Hf :=
  let k := fresh "k" in
  intros k;
  pose proof (Hf messages_sent); pose proof (Hf messages_received);
  pose proof (Hf bytes_sent); pose proof (Hf bytes_received);
  pose proof (Hf reconnect_count); pose proof (Hf errors_total);
  destruct k; cbn [read] in *.

(** The properties hold whatever the libraries answer. *)
Section Properties.

Context {L : Library}.

(** ** Machine integers *)

Lemma wrap64_id x : in_int64 x -> wrap64 x = x.
Proof.
  unfold in_int64, MinInt64, MaxInt64, wrap64, wrap. intros H.
  change (2 ^ (64 - 1)) with 9223372036854775808.
  change (2 ^ 64) with 18446744073709551616.
  rewrite Z.mod_small; lia.
Qed.

Lemma wrap32_id x : in_int32 x -> wrap32 x = x.
Proof.
  unfold in_int32, MaxInt32, wrap32, wrap. intros H.
  change (2 ^ (32 - 1)) with 2147483648.
  change (2 ^ 32) with 4294967296.
  rewrite Z.mod_small; lia.
Qed.

Lemma wrap64_range x : in_int64 (wrap64 x).
Proof.
  unfold in_int64, MinInt64, MaxInt64, wrap64, wrap.
  change (2 ^ (64 - 1)) with 9223372036854775808.
  change (2 ^ 64) with 18446744073709551616.
  pose proof (Z.mod_pos_bound (x + 9223372036854775808) 18446744073709551616).
  lia.
Qed.

(** ** Classifier and recovery selector *)

(** ** The error trend is bounded and evicts the oldest first *)

Lemma cap_trend_length l : (length (cap_trend l) <= 1000)%nat.
Proof.
  unfold cap_trend. destruct (1000 <? length l)%nat eqn:E.
  - apply Nat.ltb_lt in E. rewrite length_drop. lia.
  - apply Nat.ltb_ge in E. exact E.
Qed.

Lemma cap_trend_suffix l : cap_trend l = drop (length l - 1000) l.
Proof.
  unfold cap_trend. destruct (1000 <? length l)%nat eqn:E; [reflexivity|].
  apply Nat.ltb_ge in E.
  replace (length l - 1000)%nat with 0%nat by lia. reflexivity.
Qed.

Lemma recordError_trend err c :
  ErrorTrend (Errors (Stats (recordError err c)))
  = cap_trend
      (ErrorTrend (Errors (Stats c))
       ++ [ErrorTrendPoint.mk (clock c) 1 (extractErrorCode err)])%list.
Proof. reflexivity. Qed.

(** C7.  After every [recordError] the error trend holds at most 1000
    points; it is the old trend with the new point appended, less a
    prefix: the points dropped are the oldest, the points kept are the
    most recent [min 1000 (old length + 1)] in their order. *)
Theorem recordError_trend_bounded (err : option error) (c : WebSocketClient) :
  let old := ErrorTrend (Errors (Stats c)) in
  let point := ErrorTrendPoint.mk (clock c) 1 (extractErrorCode err) in
  let new := ErrorTrend (Errors (Stats (recordError err c))) in
  (length new <= 1000)%nat
  /\ length new = Nat.min 1000 (length old + 1)
  /\ exists dropped, (old ++ [point] = dropped ++ new)%list.
Proof.
  cbv zeta. rewrite recordError_trend. split; [apply cap_trend_length|].
  rewrite cap_trend_suffix. split.
  - rewrite length_drop, length_app. cbn [length]. lia.
  - eexists. symmetry. apply take_drop.
Qed.

(** ** The readiness endpoint *)

(** C9.  For every connection state [s], [GET /ready] answers 200 with
    [ready:true] exactly when [s] is [StateConnected], and 503 with
    [ready:false] in every other state. *)
Theorem handleReady_iff_connected (s : ConnectionState) (c : WebSocketClient) :
  let r := handleReady (setState s c) in
  ((status r = StatusOK /\ flag r = true) <-> s = StateConnected)
  /\ ((status r = StatusServiceUnavailable /\ flag r = false) <-> s <> StateConnected).
Proof.
  destruct s; cbn; repeat split; intros; try tauto; try discriminate;
    try congruence; intuition (congruence || discriminate).
Qed.

(** ** The reconnect counter counts the first connection *)

Lemma setupConnection_ReconnectCount k c :
  ReconnectCount (Stats (setupConnection k c))
  = wrap64 (ReconnectCount (Stats c) + 1).
Proof. unfold setupConnection. destruct (conn c); reflexivity. Qed.

(** C10.  [setupConnection] adds one to [Stats.ReconnectCount] whatever
    the client was doing, so the first successful [Connect] of a new
    client, before any reconnection, already leaves the counter at 1. *)
Theorem first_connection_counts_as_reconnect
    (cfg : ClientConfig.t) (now : Z) (k : Conn) :
  (forall c k', ReconnectCount (Stats (setupConnection k' c))
                = wrap64 (ReconnectCount (Stats c) + 1))
  /\ ReconnectCount (Stats (NewWebSocketClient cfg now)) = 0
  /\ ReconnectCount (Stats (fst (Connect (DialOk k) (NewWebSocketClient cfg now)))) = 1
  /\ State (fst (Connect (DialOk k) (NewWebSocketClient cfg now))) = StateConnected.
Proof.
  split; [intros c k'; apply setupConnection_ReconnectCount|].
  repeat split.
Qed.

(** ** Recovery strategy of the timeout kinds *)

Lemma inferErrorCode_not_a_timeout_kind err :
  inferErrorCode err <> ErrCodeSendTimeout
  /\ inferErrorCode err <> ErrCodeReceiveTimeout.
Proof.
  unfold inferErrorCode. destruct err as [e|]; [|split; discriminate].
  repeat match goal with
         | |- context [if ?b then _ else _] => destruct b
         end; split; discriminate.
Qed.

(** C2, amended.  For every error whose kind is SendTimeout or
    ReceiveTimeout the selector answers Retry, unless an earlier case of
    its switch takes the error: Reconnect when it is a network error or
    wraps [ErrConnectionClosed], Reset only when it wraps the
    [ErrReadTimeout] or [ErrWriteTimeout] value (and not
    [ErrHandshakeTimeout]). *)
Theorem timeout_kind_strategy (e : error) :
  kind e = ErrCodeSendTimeout \/ kind e = ErrCodeReceiveTimeout ->
  GetRecoveryStrategy (Some e)
  = if isNetworkError (Some e) || errors_Is e ErrConnectionClosed
    then RecoveryReconnect
    else if errors_Is e ErrHandshakeTimeout then RecoveryRetry
    else if errors_Is e ErrReadTimeout || errors_Is e ErrWriteTimeout
    then RecoveryReset
    else RecoveryRetry.
Proof.
  intros Hk. unfold GetRecoveryStrategy.
  destruct (isNetworkError (Some e)); [reflexivity|].
  destruct (errors_Is e ErrConnectionClosed); [reflexivity|]. cbn [orb].
  destruct (errors_Is e ErrHandshakeTimeout); [reflexivity|].
  destruct (errors_Is e ErrReadTimeout || errors_Is e ErrWriteTimeout);
    [reflexivity|].
  destruct e; try reflexivity.
  unfold kind in Hk. cbn in Hk. destruct Hk as [-> | ->]; reflexivity.
Qed.

(** Whatever the pool buffers hold, the selector does not answer Reset
    for the send-timeout failure that [SendMessage] builds, nor for a
    receive-timeout failure: over bytes that read as a network error it
    answers Reconnect, and Retry otherwise. *)
Lemma timeout_examples_are_never_reset :
  (GetRecoveryStrategy (Some send_timeout_example) = RecoveryReconnect
   \/ GetRecoveryStrategy (Some send_timeout_example) = RecoveryRetry)
  /\ (GetRecoveryStrategy (Some receive_timeout_example) = RecoveryReconnect
      \/ GetRecoveryStrategy (Some receive_timeout_example) = RecoveryRetry).
Proof.
  split; unfold GetRecoveryStrategy;
    match goal with
    | |- context [isNetworkError ?x] => destruct (isNetworkError x)
    end; [left; reflexivity | right; reflexivity
         | left; reflexivity | right; reflexivity].
Qed.

(** Only the two structured errors can be of a timeout kind: the string
    inference never yields one. *)
Lemma timeout_kind_is_structured e :
  kind e = ErrCodeSendTimeout \/ kind e = ErrCodeReceiveTimeout ->
  (exists op url inner retry, e = EConn (kind e) op url inner retry)
  \/ (exists attempt maxTry inner, e = ERetry (kind e) attempt maxTry inner).
Proof.
  intros Hk.
  destruct e;
    try (exfalso; unfold kind, extractErrorCode in Hk;
         match type of Hk with
         | context [inferErrorCode ?x] =>
             destruct (inferErrorCode_not_a_timeout_kind x) as [H1 H2]
         end; destruct Hk; contradiction).
  - left. unfold kind. cbn. eauto.
  - right. unfold kind. cbn. eauto.
Qed.

(** ** What [recordError] and [updateStats] leave alone *)

Lemma recordError_frame err c :
  config (recordError err c) = config c
  /\ conn (recordError err c) = conn c
  /\ ctx_done (recordError err c) = ctx_done c
  /\ State (recordError err c) = State c
  /\ RetryCount (recordError err c) = RetryCount c
  /\ trace (recordError err c) = trace c
  /\ clock (recordError err c) = clock c
  /\ MessagesSent (Stats (recordError err c)) = MessagesSent (Stats c)
  /\ MessagesReceived (Stats (recordError err c)) = MessagesReceived (Stats c)
  /\ BytesSent (Stats (recordError err c)) = BytesSent (Stats c)
  /\ BytesReceived (Stats (recordError err c)) = BytesReceived (Stats c)
  /\ ReconnectCount (Stats (recordError err c)) = ReconnectCount (Stats c).
Proof. repeat split. Qed.

Lemma recordError_TotalErrors err c :
  TotalErrors (Errors (Stats (recordError err c)))
  = wrap64 (TotalErrors (Errors (Stats c)) + 1).
Proof. reflexivity. Qed.

Lemma errors_by_code_recordError code err c :
  errors_by_code code (recordError err c)
  = if decide (extractErrorCode err = code)
    then wrap64 (errors_by_code code c + 1)
    else errors_by_code code c.
Proof.
  unfold errors_by_code, recordError, map_incr. cbn.
  case_decide as H.
  - subst code. rewrite lookup_insert_eq. reflexivity.
  - rewrite lookup_insert_ne by exact H. reflexivity.
Qed.

(** ** The size limit of a send *)

Lemma first_blocked_nothing t ps :
  Forall (fun p => Contains t p = false) ps -> first_blocked t ps = None.
Proof.
  induction 1 as [|p ps Hp _ IH]; [reflexivity|].
  cbn [first_blocked]. rewrite Hp. exact IH.
Qed.

(** C3, amended.  Over a live session whose rate limiter lets the call
    through: a payload of exactly the limit [M], of a valid message type
    and, when it is a text, with none of the blocked patterns in its
    lowered form, passes the size guard of the security check and the
    two size checks after it, is written whole to the transport and
    counted (one message, [M] bytes); a payload of [M + 1] bytes is
    refused with a typed failure of kind SecurityViolation (6001), nothing
    is written, [bytes_sent] and [messages_sent] keep their values, the
    state stays Connected, the tally of 6001 grows by one and that of
    MessageTooLarge (2001) does not move. *)
Theorem send_size_boundary
    (c : WebSocketClient) (k : Conn) (M : Z) (messageType : Z)
    (exact over : string) :
  connected_with_limit c k M ->
  snd (Allow (clock c) (rateLimiter c)) = true ->
  In messageType [TextMessage; BinaryMessage; PingMessage; PongMessage; CloseMessage] ->
  (messageType = TextMessage ->
   Forall (fun p => Contains (ToLower exact) p = false)
     (blockedPatterns (securityChecker c))) ->
  len exact = M ->
  len over = M + 1 ->
  (snd (SendMessage transport_ok messageType exact c) = None
   /\ trace (fst (SendMessage transport_ok messageType exact c))
      = (trace c ++ [Wrote k messageType exact])%list
   /\ MessagesSent (Stats (fst (SendMessage transport_ok messageType exact c)))
      = wrap64 (MessagesSent (Stats c) + 1)
   /\ BytesSent (Stats (fst (SendMessage transport_ok messageType exact c)))
      = wrap64 (BytesSent (Stats c) + M)
   /\ State (fst (SendMessage transport_ok messageType exact c)) = StateConnected)
  /\ (forall tr : transport,
        option_map kind (snd (SendMessage tr messageType over c))
        = Some ErrCodeSecurityViolation
        /\ trace (fst (SendMessage tr messageType over c)) = trace c
        /\ MessagesSent (Stats (fst (SendMessage tr messageType over c)))
           = MessagesSent (Stats c)
        /\ BytesSent (Stats (fst (SendMessage tr messageType over c)))
           = BytesSent (Stats c)
        /\ State (fst (SendMessage tr messageType over c)) = StateConnected
        /\ errors_by_code ErrCodeSecurityViolation (fst (SendMessage tr messageType over c))
           = wrap64 (errors_by_code ErrCodeSecurityViolation c + 1)
        /\ errors_by_code ErrCodeMessageTooLarge (fst (SendMessage tr messageType over c))
           = errors_by_code ErrCodeMessageTooLarge c).
Proof.
  intros (Hconn & Hstate & Hcfg & Hmp & Hsc) Hallow Htype Hclean Hexact Hover.
  split.
  - assert (Hcheck : CheckMessage (clock c) (securityChecker c) messageType exact
                     = (securityChecker c, None)).
    { unfold CheckMessage. rewrite Hsc, Hexact, Z.ltb_irrefl.
      destruct (messageType =? TextMessage) eqn:Et; [|reflexivity].
      apply Z.eqb_eq in Et.
      rewrite (first_blocked_nothing _ _ (Hclean Et)). reflexivity. }
    unfold SendMessage.
    destruct (Allow (clock c) (rateLimiter c)) as [rl allowed] eqn:EA.
    cbn in Hallow. subst allowed. cbn [negb].
    fields. rewrite Hcheck.
    unfold getConnSafely. fields.
    rewrite Hconn, Hstate. cbn [ConnectionState_eqb ConnectionState_iota Z.eqb Pos.eqb].
    fields.
    assert (Hv : ValidateMessage (messageProcessor c) messageType exact = None).
    { unfold ValidateMessage.
      replace (negb _) with false
        by (cbn in Htype; intuition (subst; reflexivity)).
      rewrite Hmp, Hexact. rewrite Z.ltb_irrefl. reflexivity. }
    rewrite Hv, Hcfg, Hexact, Z.ltb_irrefl. cbn.
    rewrite Hstate. repeat split.
  - intros tr. unfold SendMessage.
    destruct (Allow (clock c) (rateLimiter c)) as [rl allowed] eqn:EA.
    cbn in Hallow. subst allowed. cbn [negb].
    fields.
    unfold CheckMessage. rewrite Hsc, Hover.
    replace (M <? M + 1) with true by (symmetry; apply Z.ltb_lt; lia).
    cbn [fst snd option_map].
    rewrite !errors_by_code_recordError.
    cbn. rewrite Hstate. repeat split.
Qed.

(** ** The recovery operations touch only their own state *)

Lemma recovery_frame_refl c : recovery_frame c c.
Proof. repeat split. Qed.

Lemma recovery_frame_sleep d c :
  recovery_frame c (sleep RecoveryWait d c).
Proof.
  unfold recovery_frame, sleep. fields.
  repeat split; trace_simpl; reflexivity.
Qed.

Lemma recovery_frame_with_der v c : recovery_frame c (with_der v c).
Proof. repeat split. Qed.

Lemma recovery_frame_trans a b c :
  recovery_frame a b -> recovery_frame b c -> recovery_frame a c.
Proof.
  unfold recovery_frame. intros H1 H2.
  repeat match goal with H : _ /\ _ |- _ => destruct H end.
  repeat split; congruence.
Qed.

Lemma Recover_frame budget e c : recovery_frame c (fst (Recover budget e c)).
Proof.
  unfold Recover.
  destruct (negb (CanRecover (Some e))); [apply recovery_frame_refl|].
  destruct (GetRecoveryStrategy (Some e)); cbn [fst].
  - apply recovery_frame_refl.
  - unfold retryOperation.
    destruct (_ <=? _); [apply recovery_frame_with_der|].
    destruct (timer_elapses _ _ _); cbn [fst].
    + eapply recovery_frame_trans;
        [apply recovery_frame_with_der | apply recovery_frame_sleep].
    + apply recovery_frame_with_der.
  - unfold reconnectOperation.
    destruct (timer_elapses _ _ _); cbn [fst];
      [apply recovery_frame_sleep | apply recovery_frame_refl].
  - unfold resetOperation.
    destruct (timer_elapses _ _ _); cbn [fst].
    + eapply recovery_frame_trans;
        [apply recovery_frame_with_der | apply recovery_frame_sleep].
    + apply recovery_frame_with_der.
  - unfold fallbackOperation. cbn [fst]. apply recovery_frame_with_der.
Qed.

Lemma attemptErrorRecovery_frame e c :
  recovery_frame c (attemptErrorRecovery e c).
Proof.
  unfold attemptErrorRecovery.
  destruct (AutoRecovery c && CanRecover (Some e));
    [apply Recover_frame | apply recovery_frame_refl].
Qed.

Lemma handleErrorWithRecovery_frame e c :
  recovery_frame (recordError (Some e) c) (handleErrorWithRecovery e c).
Proof.
  unfold handleErrorWithRecovery.
  destruct (AutoRecovery _ && CanRecover (Some e));
    [apply Recover_frame | apply recovery_frame_refl].
Qed.

(** ** The handlers of the reader *)

Lemma emit_all_eq evs : forall c,
  emit_all evs c
  = mkWebSocketClient (config c) (conn c) (ctx_done c) (State c) (RetryCount c)
      (Stats c) (metrics c) (messageProcessor c) (errorRecovery c)
      (AutoRecovery c) (AdaptiveBuffer c) (securityChecker c) (rateLimiter c)
      (clock c) (trace c ++ evs)%list.
Proof.
  induction evs as [|ev evs IH]; intros c.
  - cbn. rewrite app_nil_r. destruct c; reflexivity.
  - change (emit_all (ev :: evs) c) with (emit_all evs (emit ev c)).
    rewrite IH. unfold emit. fields. rewrite <- app_assoc. reflexivity.
Qed.

Lemma emit_all_nil c : emit_all [] c = c.
Proof. reflexivity. Qed.

Lemma emit_all_app evs evs' c :
  emit_all (evs ++ evs') c = emit_all evs' (emit_all evs c).
Proof. unfold emit_all. apply foldl_app. Qed.

Lemma shouldContinueReading_live c :
  shouldContinueReading c = true
  <-> ctx_done c = false /\ State c = StateConnected /\ exists k, conn c = Some k.
Proof.
  unfold shouldContinueReading, getConnSafely.
  destruct (ctx_done c); [split; [discriminate | intros [H _]; discriminate]|].
  destruct (conn c) as [k|];
    [|split; [discriminate | intros (_ & _ & k & H); discriminate]].
  destruct (State c); cbn; split; try discriminate; eauto;
    intros (_ & H & _); discriminate.
Qed.

(** On a live session the handlers write one pong for each ping they
    answer, to the handle of the session, and touch nothing else. *)
Lemma handle_controls_live cs : forall c k,
  conn c = Some k -> State c = StateConnected ->
  handle_controls cs c
  = (emit_all (pong_writes k (fst (pings_answered cs))) c, snd (pings_answered cs)).
Proof.
  induction cs as [|[appData [e|]|appData] rest IH]; intros c k Hk Hs;
    cbn [handle_controls pings_answered fst snd].
  - reflexivity.
  - unfold PingHandler, sendControlMessage, getConnSafely. rewrite Hk, Hs.
    reflexivity.
  - unfold PingHandler, sendControlMessage, getConnSafely. rewrite Hk, Hs.
    cbn [ConnectionState_eqb ConnectionState_iota Z.eqb Pos.eqb].
    rewrite (IH (emit (Wrote k PongMessage appData) c) k Hk Hs).
    destruct (pings_answered rest) as [ps ok]. reflexivity.
  - unfold PongHandler. apply IH; assumption.
Qed.

(** Off a live session they write nothing. *)
Lemma handle_controls_dead cs : forall c,
  conn c = None \/ State c <> StateConnected ->
  fst (handle_controls cs c) = c.
Proof.
  induction cs as [|[appData pong_err|appData] rest IH]; intros c H;
    cbn [handle_controls fst].
  - reflexivity.
  - unfold PingHandler, sendControlMessage, getConnSafely.
    destruct H as [H|H].
    + rewrite H. reflexivity.
    + destruct (conn c); [|reflexivity].
      destruct (State c); try reflexivity. contradiction.
  - unfold PongHandler. apply IH; auto.
Qed.

(** What one read of a live session leaves: the pongs written, and the
    message delivered when every handler returned nil. *)
Lemma ReadMessage_live i c k :
  conn c = Some k -> State c = StateConnected ->
  ReadMessage i c
  = (emit_all (pong_writes k (fst (pings_answered (controls i)))) c,
     if snd (pings_answered (controls i))
     then option_map (fun d => (messageType_of (fst d), snd d)) (delivered i)
     else None).
Proof.
  intros Hk Hs. unfold ReadMessage.
  rewrite (handle_controls_live (controls i) c k Hk Hs).
  destruct (snd (pings_answered (controls i))); reflexivity.
Qed.

(** One step of the loop on a live session. *)
Lemma ReadMessages_loop_step i rest c k :
  conn c = Some k -> State c = StateConnected -> ctx_done c = false ->
  ReadMessages_loop (i :: rest) c
  = let c1 := emit_all (pong_writes k (fst (pings_answered (controls i)))) c in
    if snd (pings_answered (controls i))
    then match delivered i with
         | Some d =>
             ReadMessages_loop rest
               (processReceivedMessage (messageType_of (fst d)) (snd d) c1)
         | None => handleReadError c1
         end
    else handleReadError c1.
Proof.
  intros Hk Hs Hd. cbn [ReadMessages_loop].
  replace (shouldContinueReading c) with true
    by (symmetry; apply shouldContinueReading_live; eauto).
  cbn [negb]. rewrite (ReadMessage_live i c k Hk Hs). cbv zeta.
  destruct (snd (pings_answered (controls i))); [|reflexivity].
  destruct (delivered i) as [[t m]|]; reflexivity.
Qed.

Lemma ReadMessages_loop_stopped reads c :
  shouldContinueReading c = false -> ReadMessages_loop reads c = c.
Proof. intros H. destruct reads; cbn [ReadMessages_loop]; rewrite H; reflexivity. Qed.

(** ** One failed turn of the supervisor *)

Lemma Connect_failed e c :
  exists c' err,
    Connect (DialFailed e) c = (c', Some err)
    /\ config c' = config c
    /\ conn c' = conn c
    /\ ctx_done c' = ctx_done c
    /\ State c' = StateDisconnected
    /\ RetryCount c' = RetryCount c
    /\ Stats c' = Stats (recordError (Some e) c)
    /\ retry_waits (trace c') = retry_waits (trace c)
    /\ dials (trace c') = S (dials (trace c))
    /\ written (trace c') = written (trace c).
Proof.
  unfold Connect, handleConnectionError.
  set (c2 := recordError (Some e) (setState StateDisconnected
                                     (emit Dialed (setState StateConnecting c)))).
  destruct (attemptErrorRecovery_frame e c2)
    as (H1 & H2 & H3 & H4 & H5 & H6 & _ & H7 & H8 & H9).
  eexists _, _. split; [reflexivity|].
  rewrite H1, H2, H3, H4, H5, H6, H7, H8, H9. subst c2.
  unfold recordError. fields.
  repeat split; trace_simpl; reflexivity.
Qed.

Lemma limit_to_int32_id x : 0 <= x <= MaxInt32 -> limit_to_int32 x = x.
Proof.
  unfold limit_to_int32. intros H.
  destruct (x <? 0) eqn:E1; [apply Z.ltb_lt in E1; lia|].
  destruct (MaxInt32 <? x) eqn:E2; [apply Z.ltb_lt in E2; lia|]. reflexivity.
Qed.

Lemma wrap64_small x : 0 <= x <= 2 * MaxInt32 -> wrap64 x = x.
Proof. intros H. apply wrap64_id. unfold in_int64, MinInt64, MaxInt64, MaxInt32 in *. lia. Qed.

(** The policy for a limit [N > 0] whose double is an [int32]. *)
Section PolicyWithLimit.

Variable N : Z.
Hypothesis Hpos : 0 < N.
Hypothesis Hmax : 2 * N <= MaxInt32.

Lemma shouldStopRetrying_spec c :
  ClientConfig.MaxRetries (config c) = N ->
  shouldStopRetrying c = (2 * N <=? RetryCount c).
Proof.
  intros HN. unfold shouldStopRetrying. rewrite HN.
  destruct (N =? 0) eqn:E; [apply Z.eqb_eq in E; lia|].
  replace (N * 2) with (2 * N) by lia.
  rewrite wrap64_small by (unfold MaxInt32 in *; lia).
  rewrite limit_to_int32_id by lia.
  replace (0 <? 2 * N) with true by (symmetry; apply Z.ltb_lt; lia).
  reflexivity.
Qed.

Lemma calculateRetryDelay_spec c :
  ClientConfig.MaxRetries (config c) = N ->
  calculateRetryDelay c
  = policy_wait N (ClientConfig.RetryDelay (config c)) (RetryCount c).
Proof.
  intros HN. unfold calculateRetryDelay, policy_wait. rewrite HN.
  destruct (N =? 0) eqn:E; [apply Z.eqb_eq in E; lia|].
  rewrite limit_to_int32_id by lia.
  destruct (RetryCount c <=? N); [reflexivity|].
  destruct (wrap64 (N * 2) =? 0); reflexivity.
Qed.

Lemma attemptConnection_failed e c :
  ClientConfig.MaxRetries (config c) = N ->
  ctx_done c = false -> 0 <= RetryCount c < 2 * N ->
  let j := RetryCount c + 1 in
  let r := attemptConnection (DialFailed e) c in
  config (fst r) = config c
  /\ conn (fst r) = conn c
  /\ ctx_done (fst r) = false
  /\ State (fst r) = StateDisconnected
  /\ RetryCount (fst r) = j
  /\ Stats (fst r) = Stats (recordError (Some e) c)
  /\ dials (trace (fst r)) = S (dials (trace c))
  /\ written (trace (fst r)) = written (trace c)
  /\ snd r = (j <? 2 * N)
  /\ retry_waits (trace (fst r))
     = (retry_waits (trace c)
        ++ if j <? 2 * N
           then [policy_wait N (ClientConfig.RetryDelay (config c)) j]
           else [])%list.
Proof.
  intros HN Hctx Hk. cbv zeta. unfold attemptConnection.
  destruct (Connect_failed e c)
    as (c' & err & -> & H1 & H2 & H3 & H4 & H5 & H6 & H7 & H8 & H9).
  set (c2 := with_RetryCount (wrap32 (RetryCount c' + 1)) c').
  assert (Hj : RetryCount c2 = RetryCount c + 1).
  { subst c2. fields. rewrite H5. apply wrap32_id.
    unfold in_int32, MaxInt32 in *. lia. }
  assert (Hcfg : config c2 = config c) by (subst c2; fields; exact H1).
  rewrite (shouldStopRetrying_spec c2) by (rewrite ?Hcfg; assumption).
  rewrite Hj.
  destruct (2 * N <=? RetryCount c + 1) eqn:E.
  - apply Z.leb_le in E.
    replace (RetryCount c + 1 <? 2 * N) with false
      by (symmetry; apply Z.ltb_ge; lia).
    subst c2. fields. rewrite app_nil_r.
    repeat split; try assumption; try congruence.
  - apply Z.leb_gt in E.
    replace (RetryCount c + 1 <? 2 * N) with true
      by (symmetry; apply Z.ltb_lt; lia).
    unfold waitForRetry.
    rewrite (calculateRetryDelay_spec c2) by (rewrite ?Hcfg; assumption).
    rewrite Hcfg, Hj.
    assert (Hd : ctx_done c2 = false) by (subst c2; fields; congruence).
    unfold timer_elapses. rewrite Hd. cbn [negb andb].
    unfold sleep. subst c2. fields.
    repeat split; try assumption; try congruence.
    + rewrite <- H8. trace_simpl. reflexivity.
    + rewrite <- H9. trace_simpl. reflexivity.
    + rewrite <- H7. trace_simpl. reflexivity.
Qed.

Lemma ReadMessages_without_conn reads c :
  conn c = None -> ReadMessages reads c = setState StateDisconnected c.
Proof.
  intros H. unfold ReadMessages.
  assert (E : ReadMessages_loop reads c = c).
  { destruct reads as [|i rest]; cbn [ReadMessages_loop];
      unfold shouldContinueReading, getConnSafely; rewrite H;
      destruct (ctx_done c); reflexivity. }
  rewrite E. fields. rewrite H. reflexivity.
Qed.

(** ** The schedule of the retry policy *)

Lemma waits_left_step D m :
  waits_left N D (S (S m))
  = policy_wait N D (2 * N - Z.of_nat (S m)) :: waits_left N D (S m).
Proof. reflexivity. Qed.

Lemma Start_loop_all_failing (e : error) :
  forall (m n : nat) (c : WebSocketClient),
    ClientConfig.MaxRetries (config c) = N ->
    ctx_done c = false -> conn c = None ->
    (1 <= m)%nat -> RetryCount c = 2 * N - Z.of_nat m -> 0 <= RetryCount c ->
    (m <= n)%nat ->
    let c' := Start_loop (always_failing e n) c in
    RetryCount c' = 2 * N
    /\ config c' = config c
    /\ ctx_done c' = false
    /\ conn c' = None
    /\ State c' = StateDisconnected
    /\ dials (trace c') = (dials (trace c) + m)%nat
    /\ written (trace c') = written (trace c)
    /\ retry_waits (trace c')
       = (retry_waits (trace c)
          ++ waits_left N (ClientConfig.RetryDelay (config c)) m)%list.
Proof.
  induction m as [|m IH]; intros n c HN Hctx Hconn Hm Hk Hk0 Hn.
  - lia.
  - destruct n as [|n]; [lia|].
    cbv zeta. cbn [always_failing repeat Start_loop outcome received].
    rewrite Hctx.
    destruct (attemptConnection_failed e c HN Hctx ltac:(lia))
      as (A1 & A2 & A3 & A4 & A5 & A6 & A7 & A8 & A9 & A10).
    destruct (attemptConnection (DialFailed e) c) as [c1 go] eqn:EA.
    cbn [fst snd] in *. subst go.
    destruct m as [|m].
    + (* the attempt that reaches the limit *)
      replace (RetryCount c + 1 <? 2 * N) with false in *
        by (symmetry; apply Z.ltb_ge; lia).
      cbn [negb]. rewrite app_nil_r in A10.
      repeat split; try congruence; try lia.
      rewrite A10. cbn [waits_left]. rewrite app_nil_r. reflexivity.
    + replace (RetryCount c + 1 <? 2 * N) with true in *
        by (symmetry; apply Z.ltb_lt; lia).
      cbn [negb]. unfold handleConnectedSession.
      rewrite ReadMessages_without_conn by congruence.
      fields. rewrite A3. cbn [negb].
      specialize (IH n (setState StateDisconnected c1)).
      cbv zeta in IH. fields.
      destruct IH as (I1 & I2 & I3 & I4 & I5 & I6 & I7 & I8);
        try congruence; try lia.
      change (Start_loop (repeat {| outcome := DialFailed e; received := [] |} n))
        with (Start_loop (always_failing e n)).
      repeat split; try congruence.
      * rewrite I6, A7. lia.
      * rewrite I8, A10, A1, <- app_assoc. rewrite waits_left_step.
        cbn [app]. do 3 f_equal. lia.
Qed.

Lemma waits_left_slow D m :
  (1 <= m)%nat -> Z.of_nat m <= N ->
  waits_left N D m = repeat D (m - 1).
Proof.
  induction m as [|m IH]; intros Hm Hle; [lia|].
  destruct m as [|m]; [reflexivity|].
  rewrite waits_left_step, IH by lia.
  unfold policy_wait.
  replace (2 * N - Z.of_nat (S m) <=? N) with false
    by (symmetry; apply Z.leb_gt; lia).
  replace (S (S m) - 1)%nat with (S (S m - 1)) by lia. reflexivity.
Qed.

Lemma waits_left_fast D m :
  N <= Z.of_nat m -> Z.of_nat m <= 2 * N ->
  waits_left N D m
  = (repeat 0 (m - Z.to_nat N) ++ repeat D (Z.to_nat N - 1))%list.
Proof.
  induction m as [|m IH]; intros Hlo Hhi; [lia|].
  destruct (Z.eq_dec (Z.of_nat (S m)) N) as [E|E].
  - rewrite waits_left_slow by lia.
    replace (S m - Z.to_nat N)%nat with 0%nat by lia.
    replace (Z.to_nat N) with (S m) by lia. reflexivity.
  - destruct m as [|m]; [lia|].
    rewrite waits_left_step, IH by lia.
    unfold policy_wait.
    replace (2 * N - Z.of_nat (S m) <=? N) with true
      by (symmetry; apply Z.leb_le; lia).
    replace (S (S m) - Z.to_nat N)%nat with (S (S m - Z.to_nat N)) by lia.
    reflexivity.
Qed.

End PolicyWithLimit.

(** With [max_retries = 0] the policy never gives up by itself. *)
Lemma unlimited_never_stops c :
  ClientConfig.MaxRetries (config c) = 0 -> shouldStopRetrying c = false.
Proof. intros H. unfold shouldStopRetrying. rewrite H. reflexivity. Qed.

(** X22.  The schedule of a run in which every dial fails, for a limit [N > 0]
    (with [2N] an [int32]) and a slow delay [D]: [2N] dials; between them
    [N] waits of zero, then [N - 1] waits of [D]; the dial that brings
    the counter to [2N] is followed by the give-up, not by a wait. *)
Theorem retry_schedule (cfg : ClientConfig.t) (now : Z) (e : error) (n : nat) :
  0 < ClientConfig.MaxRetries cfg ->
  2 * ClientConfig.MaxRetries cfg <= MaxInt32 ->
  (Z.to_nat (2 * ClientConfig.MaxRetries cfg) <= n)%nat ->
  let N := ClientConfig.MaxRetries cfg in
  let D := ClientConfig.RetryDelay cfg in
  let c := Start (always_failing e n) (NewWebSocketClient cfg now) in
  retry_waits (trace c)
  = (repeat 0 (Z.to_nat N) ++ repeat D (Z.to_nat N - 1))%list
  /\ dials (trace c) = Z.to_nat (2 * N)
  /\ RetryCount c = 2 * N
  /\ written (trace c) = []
  /\ State c = StateDisconnected
  /\ ctx_done c = true.
Proof.
  intros Hpos Hmax Hn. cbv zeta.
  set (N := ClientConfig.MaxRetries cfg) in *.
  destruct (Start_loop_all_failing N Hpos Hmax e (Z.to_nat (2 * N)) n
              (NewWebSocketClient cfg now))
    as (I1 & I2 & I3 & I4 & I5 & I6 & I7 & I8);
    try reflexivity; try lia.
  { cbn [RetryCount NewWebSocketClient]. lia. }
  unfold Start. fields.
  rewrite I8, I6, I7, I1. cbn [NewWebSocketClient config trace].
  change (retry_waits []) with (@nil Z). change (dials []) with 0%nat.
  change (written []) with (@nil (Conn * Z * string)).
  rewrite (waits_left_fast N Hpos) by lia.
  replace (Z.to_nat (2 * N) - Z.to_nat N)%nat with (Z.to_nat N) by lia.
  repeat split; try assumption.
Qed.

(** ** Giving up *)


(** ** The counters never decrease *)

Lemma grows_by_le w c c' : grows_by w c c' -> counters_le c c'.
Proof. intros H k. apply H. Qed.

Lemma grows_by_same w c c' : 0 <= w -> Stats c' = Stats c -> grows_by w c c'.
Proof. intros Hw H k. unfold read. rewrite H. lia. Qed.

Lemma grows_by_trans w1 w2 a b c :
  grows_by w1 a b -> grows_by w2 b c -> grows_by (w1 + w2) a c.
Proof. intros H1 H2 k. specialize (H1 k). specialize (H2 k). lia. Qed.

Lemma grows_by_weaken w w' c c' : w <= w' -> grows_by w c c' -> grows_by w' c c'.
Proof. intros Hw H k. specialize (H k). lia. Qed.

Lemma fits_after n w c c' : fits c n -> grows_by w c c' -> fits c' (n - w).
Proof. intros Hf Hg k. specialize (Hf k). specialize (Hg k). lia. Qed.

Lemma fits_weaken n m c : m <= n -> fits c n -> fits c m.
Proof. intros Hm Hf k. specialize (Hf k). lia. Qed.

Lemma fits_same n c c' : Stats c' = Stats c -> fits c n -> fits c' n.
Proof. intros H Hf k. specialize (Hf k). unfold read in *. rewrite H. exact Hf. Qed.

Lemma len_nonneg s : 0 <= len s.
Proof. unfold len. lia. Qed.

Lemma wrap64_add x d n :
  MinInt64 <= x -> x + n <= MaxInt64 -> 0 <= d <= n -> wrap64 (x + d) = x + d.
Proof.
  intros H1 H2 H3. apply wrap64_id. unfold in_int64, MinInt64, MaxInt64 in *. lia.
Qed.

Lemma updateStats_grows dataLen sent c :
  0 <= dataLen -> fits c (1 + dataLen) ->
  grows_by (1 + dataLen) c (updateStats dataLen sent c).
Proof.
  intros Hd Hf. counter_cases Hf; unfold updateStats; destruct sent; fields;
    cbn [MessagesSent MessagesReceived BytesSent BytesReceived ReconnectCount
         Errors TotalErrors];
    rewrite ?(wrap64_add _ 1 (1 + dataLen)), ?(wrap64_add _ dataLen (1 + dataLen))
      by lia; lia.
Qed.

Lemma recordError_grows err c :
  fits c 1 -> grows_by 1 c (recordError err c).
Proof.
  intros Hf. counter_cases Hf; unfold recordError; fields;
    cbn [MessagesSent MessagesReceived BytesSent BytesReceived ReconnectCount
         Errors TotalErrors];
    rewrite ?(wrap64_add _ 1 1) by lia; lia.
Qed.

Lemma setupConnection_grows k c :
  fits c 1 -> grows_by 1 c (setupConnection k c).
Proof.
  intros Hf. counter_cases Hf; unfold setupConnection, Disconnect;
    destruct (conn c); fields;
    cbn [MessagesSent MessagesReceived BytesSent BytesReceived ReconnectCount
         Errors TotalErrors];
    rewrite ?(wrap64_add _ 1 1) by lia; lia.
Qed.

Lemma recovery_frame_grows c c' : recovery_frame c c' -> grows_by 0 c c'.
Proof. intros H. apply grows_by_same; [lia | apply H]. Qed.

Lemma handleErrorWithRecovery_grows e c :
  fits c 1 -> grows_by 1 c (handleErrorWithRecovery e c).
Proof.
  intros Hf. change 1 with (1 + 0).
  eapply grows_by_trans; [apply recordError_grows; exact Hf|].
  apply recovery_frame_grows, handleErrorWithRecovery_frame.
Qed.

Lemma Connect_grows d c : fits c 1 -> grows_by 1 c (fst (Connect d c)).
Proof.
  intros Hf. destruct d as [e|k].
  - destruct (Connect_failed e c) as (c' & err & -> & H). cbn [fst].
    destruct H as (_ & _ & _ & _ & _ & Hs & _).
    intros x. pose proof (recordError_grows (Some e) c Hf x) as Hx.
    unfold read in *. rewrite Hs. exact Hx.
  - unfold Connect. cbn [fst].
    intros x.
    pose proof (setupConnection_grows k (emit Dialed (setState StateConnecting c))) as Hx.
    apply Hx. exact Hf.
Qed.

Lemma attemptConnection_Stats d c :
  Stats (fst (attemptConnection d c)) = Stats (fst (Connect d c)).
Proof.
  unfold attemptConnection. destruct (Connect d c) as [c1 [err|]]; cbn [fst].
  - destruct (shouldStopRetrying _); [reflexivity|].
    unfold waitForRetry. destruct (timer_elapses _ _ _); reflexivity.
  - reflexivity.
Qed.

Lemma attemptConnection_grows d c :
  fits c 1 -> grows_by 1 c (fst (attemptConnection d c)).
Proof.
  intros Hf x. pose proof (Connect_grows d c Hf x) as Hx.
  unfold read in *. rewrite attemptConnection_Stats. exact Hx.
Qed.

Lemma SendMessage_grows tr messageType data c :
  fits c (1 + len data) ->
  grows_by (1 + len data) c (fst (SendMessage tr messageType data c)).
Proof.
  intros Hf. pose proof (len_nonneg data) as Hl.
  assert (Hf1 : fits c 1) by (eapply fits_weaken; [|exact Hf]; lia).
  assert (Hrec : forall err rl sc,
             grows_by (1 + len data) c
               (recordError err (with_securityChecker sc (with_rateLimiter rl c)))).
  { intros err rl sc. apply (grows_by_weaken 1); [lia|].
    intros x. apply (recordError_grows err (with_securityChecker sc (with_rateLimiter rl c))).
    exact Hf1. }
  unfold SendMessage.
  destruct (Allow (clock c) (rateLimiter c)) as [rl allowed].
  destruct allowed; cbn [negb];
    [|apply (Hrec _ rl (securityChecker c))].
  destruct (CheckMessage _ _ _ _) as [sc [e|]]; [apply Hrec|].
  destruct (getConnSafely _) as [[k|] [|]]; try apply Hrec.
  destruct (ValidateMessage _ _ _); [apply Hrec|].
  destruct (_ <? len data); [apply Hrec|].
  destruct (deadline_err tr); [apply Hrec|].
  destruct (write_err tr); cbn [fst].
  - apply (grows_by_weaken 1); [lia|]. intros x.
    exact (handleErrorWithRecovery_grows _
             (emit (Wrote k messageType data)
                (with_securityChecker sc (with_rateLimiter rl c))) Hf1 x).
  - intros x.
    exact (updateStats_grows (len data) true
             (emit (Wrote k messageType data)
                (with_securityChecker sc (with_rateLimiter rl c))) Hl Hf x).
Qed.

Lemma processReceivedMessage_grows messageType message c :
  fits c (2 + len message) ->
  grows_by (2 + len message) c (processReceivedMessage messageType message c).
Proof.
  intros Hf. pose proof (len_nonneg message) as Hl.
  assert (H1 : grows_by (1 + len message) c (updateStats (len message) false c)).
  { apply updateStats_grows; [exact Hl|]. eapply fits_weaken; [|exact Hf]. lia. }
  unfold processReceivedMessage.
  destruct (ProcessMessage _ _ _).
  - replace (2 + len message) with ((1 + len message) + 1) by lia.
    eapply grows_by_trans; [exact H1|].
    apply handleErrorWithRecovery_grows.
    eapply fits_weaken; [|eapply fits_after; [exact Hf | exact H1]]. lia.
  - eapply grows_by_weaken; [|exact H1]. lia.
Qed.

Lemma incoming_weight_nonneg i : 0 <= incoming_weight i.
Proof.
  unfold incoming_weight. destruct (delivered i) as [d|]; [|lia].
  pose proof (len_nonneg (snd d)). lia.
Qed.

Lemma reads_weight_nonneg reads : 0 <= reads_weight reads.
Proof.
  induction reads as [|i rest IH]; cbn; [lia|].
  pose proof (incoming_weight_nonneg i). unfold reads_weight in IH. lia.
Qed.

Lemma script_weight_nonneg script : 0 <= script_weight script.
Proof.
  induction script as [|t rest IH]; cbn; [lia|].
  pose proof (reads_weight_nonneg (received t)). unfold script_weight in IH. lia.
Qed.

Lemma emit_all_Stats evs c : Stats (emit_all evs c) = Stats c.
Proof. rewrite emit_all_eq. reflexivity. Qed.

Lemma ReadMessages_loop_grows reads : forall c,
  fits c (reads_weight reads) ->
  grows_by (reads_weight reads) c (ReadMessages_loop reads c).
Proof.
  induction reads as [|i rest IH]; intros c Hf.
  - cbn [ReadMessages_loop]. destruct (negb _);
      apply grows_by_same; cbn; try lia; reflexivity.
  - pose proof (reads_weight_nonneg rest) as Hr.
    pose proof (incoming_weight_nonneg i) as Hi.
    change (reads_weight (i :: rest))
      with (incoming_weight i + reads_weight rest) in *.
    destruct (shouldContinueReading c) eqn:Hc.
    2:{ rewrite ReadMessages_loop_stopped by exact Hc.
        apply grows_by_same; [lia | reflexivity]. }
    apply shouldContinueReading_live in Hc as (Hd & Hs & k & Hk).
    rewrite (ReadMessages_loop_step i rest c k Hk Hs Hd). cbv zeta.
    set (c1 := emit_all _ c).
    assert (E1 : Stats c1 = Stats c) by apply emit_all_Stats.
    destruct (snd (pings_answered (controls i)));
      [|apply grows_by_same; [lia | exact E1]].
    unfold incoming_weight in *.
    destruct (delivered i) as [[t m]|];
      [|apply grows_by_same; [lia | exact E1]].
    cbn [fst snd] in *.
    assert (Hf1 : fits c1 (2 + len m + reads_weight rest))
      by (eapply fits_same; [exact E1 | exact Hf]).
    assert (H1 : grows_by (2 + len m) c1
                   (processReceivedMessage (messageType_of t) m c1)).
    { apply processReceivedMessage_grows. eapply fits_weaken; [|exact Hf1]. lia. }
    assert (H2 : grows_by (2 + len m + reads_weight rest) c1
                   (ReadMessages_loop rest
                      (processReceivedMessage (messageType_of t) m c1))).
    { eapply grows_by_trans; [exact H1|].
      apply IH. eapply fits_weaken; [|eapply fits_after; [exact Hf1 | exact H1]].
      lia. }
    intros x. specialize (H2 x). unfold read in *. rewrite E1 in H2. exact H2.
Qed.

Lemma ReadMessages_Stats reads c :
  Stats (ReadMessages reads c) = Stats (ReadMessages_loop reads c).
Proof.
  unfold ReadMessages. fields.
  destruct (conn (ReadMessages_loop reads c)); reflexivity.
Qed.

Lemma ReadMessages_grows reads c :
  fits c (reads_weight reads) ->
  grows_by (reads_weight reads) c (ReadMessages reads c).
Proof.
  intros Hf x. pose proof (ReadMessages_loop_grows reads c Hf x) as Hx.
  unfold read in *. rewrite ReadMessages_Stats. exact Hx.
Qed.

Lemma Start_loop_grows script c :
  fits c (script_weight script) ->
  grows_by (script_weight script) c (Start_loop script c).
Proof.
  revert c. induction script as [|t rest IH]; intros c Hf.
  - apply grows_by_same; [cbn; lia | reflexivity].
  - pose proof (script_weight_nonneg rest) as Hr.
    pose proof (reads_weight_nonneg (received t)) as Hw.
    change (script_weight (t :: rest))
      with (1 + reads_weight (received t) + script_weight rest) in *.
    cbn [Start_loop].
    destruct (ctx_done c); [apply grows_by_same; [lia | reflexivity]|].
    assert (H1 : grows_by 1 c (fst (attemptConnection (outcome t) c))).
    { apply attemptConnection_grows. eapply fits_weaken; [|exact Hf]. lia. }
    destruct (attemptConnection (outcome t) c) as [c1 go]. cbn [fst] in H1.
    destruct go; cbn [negb];
      [|eapply grows_by_weaken; [|exact H1]; lia].
    unfold handleConnectedSession.
    assert (H2 : grows_by (reads_weight (received t)) c1
                   (ReadMessages (received t) c1)).
    { apply ReadMessages_grows.
      eapply fits_weaken; [|eapply fits_after; [exact Hf | exact H1]]. lia. }
    assert (H12 : grows_by (1 + reads_weight (received t)) c
                    (ReadMessages (received t) c1))
      by (eapply grows_by_trans; eassumption).
    destruct (negb (negb _)); [eapply grows_by_weaken; [|exact H12]; lia|].
    eapply grows_by_trans; [exact H12|].
    apply IH.
    eapply fits_weaken; [|eapply fits_after; [exact Hf | exact H12]]. lia.
Qed.

Lemma weight_nonneg o : 0 <= weight o.
Proof.
  destruct o; cbn [weight]; try lia;
    try (match goal with |- context [len ?s] => pose proof (len_nonneg s) end; lia).
  - apply reads_weight_nonneg.
  - apply script_weight_nonneg.
Qed.

Lemma apply_grows (o : operation) (c : WebSocketClient) :
  fits c (weight o) -> grows_by (weight o) c (apply o c).
Proof.
  intros Hf. destruct o; cbn [apply weight] in *.
  - apply SendMessage_grows. exact Hf.
  - apply grows_by_same; [lia|]. unfold sendControlMessage.
    destruct (getConnSafely c) as [[k|] [|]]; reflexivity.
  - apply Connect_grows. exact Hf.
  - apply attemptConnection_grows. exact Hf.
  - apply processReceivedMessage_grows. exact Hf.
  - apply ReadMessages_grows. exact Hf.
  - apply recordError_grows. exact Hf.
  - apply grows_by_same; [lia | reflexivity].
  - apply grows_by_same; [lia|]. unfold Stop. fields.
    destruct (conn c); reflexivity.
  - intros x. pose proof (Start_loop_grows script c Hf x) as Hx. exact Hx.
Qed.

(** C8.  Every operation of the client leaves each of [messages_sent],
    [messages_received], [bytes_sent], [bytes_received], [reconnect_count]
    and [errors_total] equal or larger, the counters being [int64] values
    with room for what the operation adds. *)
Theorem counters_never_decrease (o : operation) (c : WebSocketClient) :
  fits c (weight o) ->
  counters_le c (apply o c).
Proof. intros Hf. eapply grows_by_le, apply_grows, Hf. Qed.

(** ** Stopping *)

Lemma recovery_frame_State c c' : recovery_frame c c' -> State c' = State c.
Proof. intros H. apply H. Qed.

Lemma handleErrorWithRecovery_State e c :
  State (handleErrorWithRecovery e c) = State c.
Proof.
  rewrite (recovery_frame_State _ _ (handleErrorWithRecovery_frame e c)).
  reflexivity.
Qed.

Lemma SendMessage_State tr messageType data c :
  State (fst (SendMessage tr messageType data c)) = State c.
Proof.
  unfold SendMessage.
  destruct (Allow (clock c) (rateLimiter c)) as [rl allowed].
  destruct allowed; cbn [negb]; [|reflexivity].
  destruct (CheckMessage _ _ _ _) as [sc [e|]]; [reflexivity|].
  destruct (getConnSafely _) as [[k|] [|]]; try reflexivity.
  destruct (ValidateMessage _ _ _); [reflexivity|].
  destruct (_ <? len data); [reflexivity|].
  destruct (deadline_err tr); [reflexivity|].
  destruct (write_err tr); cbn [fst]; [|reflexivity].
  rewrite handleErrorWithRecovery_State. reflexivity.
Qed.

Lemma processReceivedMessage_State messageType message c :
  State (processReceivedMessage messageType message c) = State c.
Proof.
  unfold processReceivedMessage. destruct (ProcessMessage _ _ _); [|reflexivity].
  rewrite handleErrorWithRecovery_State. reflexivity.
Qed.

Lemma ReadMessages_State reads c :
  State (ReadMessages reads c) = StateDisconnected.
Proof.
  unfold ReadMessages. fields.
  destruct (conn (ReadMessages_loop reads c)); reflexivity.
Qed.

Lemma Connect_State d c :
  State (fst (Connect d c)) = StateDisconnected
  \/ State (fst (Connect d c)) = StateConnected.
Proof.
  destruct d as [e|k].
  - destruct (Connect_failed e c) as (c' & err & -> & H). cbn [fst].
    left. apply H.
  - right. unfold Connect, setupConnection, Disconnect. cbn [fst]. fields.
    destruct (conn c); reflexivity.
Qed.

Lemma attemptConnection_State d c :
  State (fst (attemptConnection d c)) = State (fst (Connect d c)).
Proof.
  unfold attemptConnection. destruct (Connect d c) as [c1 [err|]]; cbn [fst].
  - destruct (shouldStopRetrying _); [reflexivity|].
    unfold waitForRetry. destruct (timer_elapses _ _ _); reflexivity.
  - reflexivity.
Qed.

Lemma Start_loop_State script c :
  State (Start_loop script c) = State c \/ stored_state (State (Start_loop script c)).
Proof.
  revert c. induction script as [|t rest IH]; intros c; [left; reflexivity|].
  cbn [Start_loop]. destruct (ctx_done c); [left; reflexivity|].
  pose proof (attemptConnection_State (outcome t) c) as HA.
  pose proof (Connect_State (outcome t) c) as HC.
  destruct (attemptConnection (outcome t) c) as [c1 go]. cbn [fst] in HA.
  destruct go; cbn [negb].
  - unfold handleConnectedSession.
    destruct (negb (negb _)).
    + right. left. apply ReadMessages_State.
    + destruct (IH (ReadMessages (received t) c1)) as [E|E].
      * right. left. rewrite E. apply ReadMessages_State.
      * right. exact E.
  - right. rewrite HA. unfold stored_state. tauto.
Qed.

Lemma apply_State (o : operation) (c : WebSocketClient) :
  State (apply o c) = State c \/ stored_state (State (apply o c)).
Proof.
  destruct o; cbn [apply].
  - left. apply SendMessage_State.
  - left. unfold sendControlMessage.
    destruct (getConnSafely c) as [[k|] [|]]; reflexivity.
  - right. destruct (Connect_State d c); unfold stored_state; tauto.
  - right. rewrite attemptConnection_State.
    destruct (Connect_State d c); unfold stored_state; tauto.
  - left. apply processReceivedMessage_State.
  - right. left. apply ReadMessages_State.
  - left. reflexivity.
  - left. reflexivity.
  - right. left. unfold Stop. fields. destruct (conn c); reflexivity.
  - apply (Start_loop_State script c).
Qed.

(** X24.  What the code does at a stop, for every client: after [Stop] the
    state is Disconnected, the context is cancelled and the handle
    released.  No operation stores Stopping or Stopped: each leaves the
    state as it was or stores Disconnected, Connecting or Connected.
    What ends the engine is the cancelled context, on which the loop of
    the supervisor makes no further attempt. *)
Theorem stop_leaves_Disconnected (c : WebSocketClient) :
  State (Stop c) = StateDisconnected
  /\ ctx_done (Stop c) = true
  /\ conn (Stop c) = None
  /\ (forall script, Start_loop script (Stop c) = Stop c)
  /\ (forall o c0, State (apply o c0) = State c0
                   \/ stored_state (State (apply o c0)))
  /\ (forall o, State (apply o (Stop c)) <> StateStopping
                /\ State (apply o (Stop c)) <> StateStopped)
  /\ (forall k, State (apply (OpConnect (DialOk k)) (Stop c)) = StateConnected).
Proof.
  assert (H1 : State (Stop c) = StateDisconnected)
    by (unfold Stop; fields; destruct (conn c); reflexivity).
  assert (H2 : ctx_done (Stop c) = true)
    by (unfold Stop; fields; destruct (conn c); reflexivity).
  split; [exact H1|]. split; [exact H2|].
  split; [unfold Stop; fields; destruct (conn c) eqn:E; fields; auto|].
  split.
  { intros [|t rest]; [reflexivity|]. cbn [Start_loop]. rewrite H2. reflexivity. }
  split; [exact apply_State|].
  split.
  - intros o. destruct (apply_State o (Stop c)) as [E|[E|[E|E]]];
      rewrite E, ?H1; split; discriminate.
  - intros k. cbn [apply]. unfold Connect, setupConnection, Disconnect.
    cbn [fst]. fields.
    destruct (conn (Stop c)); reflexivity.
Qed.

(** ** The writer gate *)

Lemma count_insert f (p : pool) i g g' :
  p !! i = Some g ->
  (count f (<[ i := g' ]> p) + (if f g then 1 else 0)
   = count f p + (if f g' then 1 else 0))%nat.
Proof.
  revert i. induction p as [|h p IH]; intros i H; [discriminate|].
  destruct i as [|i].
  - cbn in H. injection H as ->. cbn [count]. 
    change (<[0%nat:=g']> (g :: p)) with (g' :: p). cbn [count].
    destruct (f g), (f g'); lia.
  - change (<[S i:=g']> (h :: p)) with (h :: <[i:=g']> p).
    cbn in H. cbn [count]. specialize (IH i H).
    unfold insert in IH |- *.
    destruct (f g), (f g'), (f h); lia.
Qed.

Lemma count_le f h (p : pool) :
  Forall (fun g => f g = true -> h g = true) p -> (count f p <= count h p)%nat.
Proof.
  induction 1 as [|g p Hg Hp IH]; cbn; [lia|].
  destruct (f g); [rewrite Hg by reflexivity|destruct (h g)]; lia.
Qed.

Lemma step_goroutine_gated p g g' :
  gated_goroutine g = true -> step_goroutine p g = Some g' ->
  gated_goroutine g' = true.
Proof.
  unfold gated_goroutine, step_goroutine.
  destruct g as [code hw hm hr w]. cbn [todo has_writeMu has_mu has_rmu writing].
  destruct code as [|a rest]; [discriminate|].
  destruct a as [| |[|]|[|]| |]; cbn [gated];
    repeat match goal with
           | |- context [if ?b then _ else _] => destruct b
           end;
    intros H E; try discriminate; injection E as <-;
    cbn [todo has_writeMu has_mu has_rmu writing];
    destruct hw, w; cbn in *; try discriminate; try assumption;
    rewrite ?andb_true_r in *; try assumption; try reflexivity.
  all: repeat match goal with
              | H : _ && _ = true |- _ =>
                  apply andb_true_iff in H; destruct H
              end;
       try discriminate; try assumption.
Qed.

Lemma step_goroutine_writeMu p g g' :
  step_goroutine p g = Some g' ->
  has_writeMu g' = has_writeMu g
  \/ has_writeMu g' = false
  \/ (has_writeMu g' = true /\ count has_writeMu p = 0%nat).
Proof.
  unfold step_goroutine. destruct (todo g) as [|a rest]; [discriminate|].
  destruct a as [| |[|]|[|]| |].
  - destruct (free_rmu p); intros E; [injection E as <-; auto | discriminate].
  - intros E; injection E as <-; auto.
  - destruct (free_mu p); intros E; [injection E as <-; auto | discriminate].
  - destruct (free_writeMu p) eqn:F; intros E; [injection E as <- | discriminate].
    right. right. split; [reflexivity|].
    unfold free_writeMu in F. apply Nat.eqb_eq in F. exact F.
  - intros E; injection E as <-; auto.
  - intros E; injection E as <-; auto.
  - intros E; injection E as <-; auto.
  - intros E; injection E as <-; auto.
Qed.

Lemma step_serialized i p p' : serialized p -> step i p = Some p' -> serialized p'.
Proof.
  intros [Hg Hc]. unfold step.
  destruct (p !! i) as [g|] eqn:Ei; [|discriminate].
  destruct (step_goroutine p g) as [g'|] eqn:Es; [|discriminate].
  intros E. injection E as <-.
  assert (Hgi : gated_goroutine g = true)
    by (eapply Forall_lookup_1 in Hg; eauto).
  split.
  - apply Forall_insert; [exact Hg|].
    eapply step_goroutine_gated; eassumption.
  - pose proof (count_insert has_writeMu p i g g' Ei) as Hi.
    destruct (step_goroutine_writeMu p g g' Es) as [E|[E|[E E0]]];
      rewrite E in Hi; destruct (has_writeMu g); lia.
Qed.

Lemma run_serialized schedule p p' :
  serialized p -> run schedule p = Some p' -> serialized p'.
Proof.
  revert p. induction schedule as [|i rest IH]; intros p Hp; cbn [run].
  - intros E. injection E as <-. exact Hp.
  - destruct (step i p) as [p1|] eqn:E; [|discriminate].
    apply IH. eapply step_serialized; eassumption.
Qed.

Lemma serialized_in_flight p : serialized p -> (in_flight p <= 1)%nat.
Proof.
  intros [Hg Hc]. unfold in_flight.
  etransitivity; [|exact Hc]. apply count_le.
  eapply Forall_impl; [exact Hg|]. intros g H Hw.
  unfold gated_goroutine in H. apply andb_true_iff in H as [_ H].
  rewrite Hw in H. exact H.
Qed.

Lemma spawn_serialized codes :
  Forall (fun code => gated false false code = true) codes ->
  serialized (map spawn codes).
Proof.
  intros H. split.
  - apply Forall_map. eapply Forall_impl; [exact H|].
    intros code Hc. unfold gated_goroutine, spawn. cbn. rewrite Hc. reflexivity.
  - induction codes as [|code codes IH]; cbn; [lia|].
    apply IH. inversion H; assumption.
Qed.

(** X23.  The sibling paths keep the gate: however many user sends, heartbeat
    pings and pong responses race, and whatever the schedule, at most one
    transport write is in flight. *)
Theorem gated_producers_are_serialized
    (codes : list (list action)) (schedule : list nat) (p' : pool) :
  Forall (fun code => code = SendMessage_actions
                      \/ code = sendControlMessage_actions) codes ->
  run schedule (map spawn codes) = Some p' ->
  (in_flight p' <= 1)%nat.
Proof.
  intros H E. apply serialized_in_flight.
  eapply run_serialized; [|exact E].
  apply spawn_serialized. eapply Forall_impl; [exact H|].
  intros code [-> | ->]; reflexivity.
Qed.

Lemma gated_producers_are_serialized_witness :
  run [0; 1; 0; 0; 0; 1; 0]%nat
      (map spawn [SendMessage_actions; sendControlMessage_actions])
  <> None
  /\ forall p', run [0; 1; 0; 0; 0; 1; 0]%nat
                    (map spawn [SendMessage_actions; sendControlMessage_actions])
                = Some p' -> (in_flight p' <= 1)%nat.
Proof.
  split; [vm_compute; discriminate|].
  intros p'.
  apply (gated_producers_are_serialized
           [SendMessage_actions; sendControlMessage_actions]).
  constructor; [left; reflexivity|].
  constructor; [right; reflexivity|].
  constructor.
Defined.

(** C6, at an input where the code departs from the specification: a
    user send racing with [Stop].  [Stop] writes the close frame under
    [c.mu], not under [writeMu] (as does [setupConnection] over an old
    handle); in the schedule below the send has entered its write under
    [writeMu] when [Stop] takes [c.mu] and enters its own: two transport
    writes are in flight. *)
Theorem stop_writes_outside_the_gate :
  gated false false SendMessage_actions = true
  /\ gated false false sendControlMessage_actions = true
  /\ gated false false Stop_actions = false
  /\ gated false false setupConnection_actions = false
  /\ option_map in_flight (run [0; 0; 0; 0; 1; 1]%nat send_and_stop) = Some 2%nat.
Proof. vm_compute. repeat split. Qed.

(** * Further properties of the engine *)

(** ** What a send does *)

Lemma ConnectionState_eqb_eq a b : ConnectionState_eqb a b = true <-> a = b.
Proof. destruct a, b; cbn; split; intros H; try reflexivity; discriminate. Qed.

(** Every path of [SendMessage] that ends in [recordError]. *)
Lemma SendMessage_refusal err rl sc c :
  let c' := recordError err (with_securityChecker sc (with_rateLimiter rl c)) in
  config c' = config c /\ conn c' = conn c /\ ctx_done c' = ctx_done c
  /\ State c' = State c /\ RetryCount c' = RetryCount c
  /\ trace c' = trace c.
Proof. repeat split. Qed.

Lemma SendMessage_frame tr messageType data c :
  let r := SendMessage tr messageType data c in
  config (fst r) = config c /\ conn (fst r) = conn c
  /\ ctx_done (fst r) = ctx_done c /\ State (fst r) = State c
  /\ RetryCount (fst r) = RetryCount c
  /\ dials (trace (fst r)) = dials (trace c)
  /\ retry_waits (trace (fst r)) = retry_waits (trace c).
Proof.
  cbv zeta. unfold SendMessage.
  destruct (Allow (clock c) (rateLimiter c)) as [rl allowed].
  destruct allowed; cbn [negb]; [|repeat split].
  destruct (CheckMessage _ _ _ _) as [sc [e|]]; [repeat split|].
  destruct (getConnSafely _) as [[k|] [|]]; try (repeat split; fail).
  destruct (ValidateMessage _ _ _); [repeat split|].
  destruct (_ <? len data); [repeat split|].
  destruct (deadline_err tr); [repeat split|].
  destruct (write_err tr); cbn [fst].
  - match goal with
    | |- context [handleErrorWithRecovery ?x ?c1] =>
        destruct (handleErrorWithRecovery_frame x c1)
          as (H1 & H2 & H3 & H4 & H5 & _ & _ & H7 & H8 & _)
    end.
    rewrite H1, H2, H3, H4, H5, H7, H8.
    unfold recordError. fields. repeat split; trace_simpl; reflexivity.
  - unfold updateStats. fields. repeat split; trace_simpl; reflexivity.
Qed.

(** A send writes nothing and fails, or writes its payload, once, to the
    current handle, every check passed. *)
Lemma SendMessage_effect tr messageType data c :
  let r := SendMessage tr messageType data c in
  (snd r <> None /\ written (trace (fst r)) = written (trace c))
  \/ (exists k,
        conn c = Some k /\ State c = StateConnected
        /\ snd (Allow (clock c) (rateLimiter c)) = true
        /\ snd (CheckMessage (clock c) (securityChecker c) messageType data) = None
        /\ ValidateMessage (messageProcessor c) messageType data = None
        /\ len data <= ClientConfig.MaxMessageSize (config c)
        /\ deadline_err tr = None
        /\ written (trace (fst r))
           = (written (trace c) ++ [(k, messageType, data)])%list
        /\ snd r
           = option_map
               (fun e => EConn (inferErrorCode (Some e)) "send"
                           (ClientConfig.URL (config c)) (Some e) true)
               (write_err tr)).
Proof.
  cbv zeta. unfold SendMessage.
  destruct (Allow (clock c) (rateLimiter c)) as [rl allowed] eqn:EA.
  destruct allowed; cbn [negb];
    [|left; split; [discriminate | reflexivity]].
  fields.
  destruct (CheckMessage (clock c) (securityChecker c) messageType data)
    as [sc secErr] eqn:EC.
  destruct secErr as [e|]; [left; split; [discriminate | reflexivity]|].
  unfold getConnSafely. fields.
  destruct (conn c) as [k|] eqn:Ek;
    [|left; split; [discriminate | reflexivity]].
  destruct (ConnectionState_eqb (State c) StateConnected) eqn:Es;
    [|left; split; [discriminate | reflexivity]].
  apply ConnectionState_eqb_eq in Es.
  destruct (ValidateMessage (messageProcessor c) messageType data) as [e|] eqn:EV;
    [left; split; [discriminate | reflexivity]|].
  destruct (ClientConfig.MaxMessageSize (config c) <? len data) eqn:El;
    [left; split; [discriminate | reflexivity]|].
  apply Z.ltb_ge in El.
  destruct (deadline_err tr) as [e|] eqn:Ed;
    [left; split; [discriminate | reflexivity]|].
  set (c1 := emit (Wrote k messageType data)
               (with_securityChecker sc (with_rateLimiter rl c))).
  assert (Hw : written (trace c1)
               = (written (trace c) ++ [(k, messageType, data)])%list)
    by (subst c1; fields; trace_simpl; reflexivity).
  right. exists k.
  destruct (write_err tr) as [e|] eqn:Ew; cbn [fst snd option_map].
  - match goal with
    | |- context [handleErrorWithRecovery ?x c1] =>
        destruct (handleErrorWithRecovery_frame x c1)
          as (_ & _ & _ & _ & _ & _ & _ & _ & _ & H9)
    end.
    rewrite H9.
    repeat split; try assumption; reflexivity.
  - repeat split; try assumption; reflexivity.
Qed.

Lemma CheckMessage_None now sc messageType data :
  snd (CheckMessage now sc messageType data) = None
  <-> len data <= sc_maxMessageSize sc
      /\ (messageType = TextMessage ->
          first_blocked (ToLower data) (blockedPatterns sc) = None).
Proof.
  unfold CheckMessage.
  destruct (sc_maxMessageSize sc <? len data) eqn:E1.
  - apply Z.ltb_lt in E1. cbn [snd]. split; [discriminate | lia].
  - apply Z.ltb_ge in E1.
    destruct (messageType =? TextMessage) eqn:E2.
    + apply Z.eqb_eq in E2.
      destruct (first_blocked _ _) as [p|]; cbn [snd].
      * split; [discriminate|]. intros [_ H]. specialize (H E2). discriminate.
      * split; [auto | reflexivity].
    + apply Z.eqb_neq in E2. cbn [snd].
      split; [|reflexivity]. intros _. split; [exact E1 | contradiction].
Qed.

Lemma ValidateMessage_None dmp messageType data :
  ValidateMessage dmp messageType data = None
  <-> In messageType
        [TextMessage; BinaryMessage; PingMessage; PongMessage; CloseMessage]
      /\ len data <= maxMessageSize dmp.
Proof.
  unfold ValidateMessage.
  destruct (messageType =? TextMessage) eqn:E1;
    destruct (messageType =? BinaryMessage) eqn:E2;
    destruct (messageType =? PingMessage) eqn:E3;
    destruct (messageType =? PongMessage) eqn:E4;
    destruct (messageType =? CloseMessage) eqn:E5;
    cbn [orb negb];
    try (destruct (maxMessageSize dmp <? len data) eqn:E6;
         [apply Z.ltb_lt in E6; split; [discriminate | lia]
         |apply Z.ltb_ge in E6; split; [|reflexivity]; intros _; split; [|exact E6];
          cbn [In];
          repeat match goal with
                 | H : (_ =? _) = true |- _ => apply Z.eqb_eq in H
                 end; auto 6]).
  split; [discriminate|]. intros [H _]. cbn [In] in H.
  repeat match goal with
         | H : (_ =? _) = false |- _ => apply Z.eqb_neq in H
         end.
  intuition congruence.
Qed.

(** X1.  What [SendMessage] hands to the transport.  Either it writes
    nothing and returns an error, or it writes one frame, the payload as
    given and under the message type given, to the handle the client
    holds.  A frame is written only in the Connected state, only when the
    rate limiter lets the call through, only with one of the five message
    types, only within each of the three size limits (the security
    checker's, the message processor's and the configuration's), and for
    a text only when it holds no blocked pattern; the call then returns
    nil exactly when the transport accepts the write. *)
Theorem SendMessage_writes_only_checked_frames
    (tr : transport) (messageType : Z) (data : string) (c : WebSocketClient) :
  let r := SendMessage tr messageType data c in
  (written (trace (fst r)) = written (trace c) /\ snd r <> None)
  \/ (exists k,
        written (trace (fst r))
        = (written (trace c) ++ [(k, messageType, data)])%list
        /\ conn c = Some k /\ State c = StateConnected
        /\ snd (Allow (clock c) (rateLimiter c)) = true
        /\ In messageType
             [TextMessage; BinaryMessage; PingMessage; PongMessage; CloseMessage]
        /\ len data <= sc_maxMessageSize (securityChecker c)
        /\ len data <= maxMessageSize (messageProcessor c)
        /\ len data <= ClientConfig.MaxMessageSize (config c)
        /\ (messageType = TextMessage ->
            first_blocked (ToLower data) (blockedPatterns (securityChecker c)) = None)
        /\ (snd r = None <-> write_err tr = None)).
Proof.
  cbv zeta.
  destruct (SendMessage_effect tr messageType data c)
    as [[H1 H2] | (k & H1 & H2 & H3 & H4 & H5 & H6 & H7 & H8 & H9)].
  - left. split; assumption.
  - right. exists k.
    apply CheckMessage_None in H4 as [H4 H4'].
    apply ValidateMessage_None in H5 as [H5 H5'].
    repeat split; try assumption.
    + rewrite H9. destruct (write_err tr); [discriminate | reflexivity].
    + rewrite H9. intros ->. reflexivity.
Qed.

(** ** The error book of a send *)

Lemma recordError_books e c :
  let c' := recordError (Some e) c in
  TotalErrors (Errors (Stats c')) = wrap64 (TotalErrors (Errors (Stats c)) + 1)
  /\ LastError (Errors (Stats c')) = Some e
  /\ errors_by_code (kind e) c' = wrap64 (errors_by_code (kind e) c + 1)
  /\ MessagesSent (Stats c') = MessagesSent (Stats c)
  /\ BytesSent (Stats c') = BytesSent (Stats c).
Proof.
  cbv zeta. split; [reflexivity|]. split; [reflexivity|].
  split; [|split; reflexivity].
  rewrite errors_by_code_recordError. unfold kind.
  case_decide; [reflexivity | contradiction].
Qed.

(** X2.  The bookkeeping of [SendMessage].  Every failure it returns is a
    [*ConnectionError] of operation "send" for the configured URL, and
    is entered in the error book once: the total and the tally of the
    error's code go up by one, the error is the last error, and the sent
    counters stay.  A success enters no error and counts one message and
    the bytes of the payload, stamped with the time of the call. *)
Theorem SendMessage_books_every_failure
    (tr : transport) (messageType : Z) (data : string) (c : WebSocketClient) :
  let r := SendMessage tr messageType data c in
  match snd r with
  | Some err =>
      TotalErrors (Errors (Stats (fst r)))
      = wrap64 (TotalErrors (Errors (Stats c)) + 1)
      /\ LastError (Errors (Stats (fst r))) = Some err
      /\ errors_by_code (kind err) (fst r)
         = wrap64 (errors_by_code (kind err) c + 1)
      /\ MessagesSent (Stats (fst r)) = MessagesSent (Stats c)
      /\ BytesSent (Stats (fst r)) = BytesSent (Stats c)
      /\ exists code inner retry,
           err = EConn code "send" (ClientConfig.URL (config c)) (Some inner) retry
  | None =>
      Errors (Stats (fst r)) = Errors (Stats c)
      /\ MessagesSent (Stats (fst r)) = wrap64 (MessagesSent (Stats c) + 1)
      /\ BytesSent (Stats (fst r)) = wrap64 (BytesSent (Stats c) + len data)
      /\ LastMessageTime (Stats (fst r)) = clock c
  end.
Proof.
  cbv zeta.
  assert (Hrec : forall e rl sc,
             let c' := recordError (Some e)
                         (with_securityChecker sc (with_rateLimiter rl c)) in
             TotalErrors (Errors (Stats c'))
             = wrap64 (TotalErrors (Errors (Stats c)) + 1)
             /\ LastError (Errors (Stats c')) = Some e
             /\ errors_by_code (kind e) c' = wrap64 (errors_by_code (kind e) c + 1)
             /\ MessagesSent (Stats c') = MessagesSent (Stats c)
             /\ BytesSent (Stats c') = BytesSent (Stats c)).
  { intros e rl sc.
    exact (recordError_books e (with_securityChecker sc (with_rateLimiter rl c))). }
  unfold SendMessage.
  destruct (Allow (clock c) (rateLimiter c)) as [rl allowed].
  destruct allowed; cbn [negb fst snd].
  2:{ destruct (Hrec (EConn ErrCodeRateLimitExceeded "send"
                        (ClientConfig.URL (config c))
                        (Some (ENew "发送频率超过限制")) true) rl (securityChecker c))
        as (A & B & C & D & E).
      repeat split; try assumption. eauto. }
  fields.
  destruct (CheckMessage _ _ _ _) as [sc [e|]]; cbn [fst snd].
  { destruct (Hrec (EConn ErrCodeSecurityViolation "send"
                      (ClientConfig.URL (config c)) (Some e) false) rl sc)
      as (A & B & C & D & E).
    repeat split; try assumption. eauto. }
  destruct (getConnSafely _) as [[k|] [|]]; cbn [fst snd];
    try (destruct (Hrec (EConn ErrCodeConnectionLost "send"
                           (ClientConfig.URL (config c))
                           (Some (ESentinel ErrConnectionClosed)) false) rl sc)
           as (A & B & C & D & E);
         repeat split; try assumption; eauto; fail).
  destruct (ValidateMessage _ _ _) as [e|]; cbn [fst snd].
  { destruct (Hrec (EConn ErrCodeInvalidMessage "send"
                      (ClientConfig.URL (config c)) (Some e) false) rl sc)
      as (A & B & C & D & E).
    repeat split; try assumption. eauto. }
  destruct (_ <? len data); cbn [fst snd].
  { match goal with
    | |- context [recordError (Some ?x) _] =>
        destruct (Hrec x rl sc) as (A & B & C & D & E)
    end.
    repeat split; try assumption. eauto. }
  destruct (deadline_err tr) as [e|]; cbn [fst snd].
  { destruct (Hrec (EConn ErrCodeSendTimeout "send"
                      (ClientConfig.URL (config c)) (Some e) false) rl sc)
      as (A & B & C & D & E).
    repeat split; try assumption. eauto. }
  destruct (write_err tr) as [e|]; cbn [fst snd].
  - match goal with
    | |- context [handleErrorWithRecovery ?x ?c1] =>
        destruct (handleErrorWithRecovery_frame x c1)
          as (_ & _ & _ & _ & _ & H6 & _);
        destruct (recordError_books x c1) as (A & B & C & D & E)
    end.
    unfold errors_by_code in *. rewrite H6.
    repeat split; try assumption. eauto.
  - repeat split.
Qed.

(** ** No state is ever unhealthy *)

Lemma run_ops_cons o ops c : run_ops (o :: ops) c = run_ops ops (apply o c).
Proof. reflexivity. Qed.

Lemma run_ops_stored ops c :
  stored_state (State c) -> stored_state (State (run_ops ops c)).
Proof.
  revert c. induction ops as [|o ops IH]; intros c H; [exact H|].
  rewrite run_ops_cons. apply IH.
  destruct (apply_State o c) as [E|E]; [rewrite E; exact H | exact E].
Qed.

(** X3.  Whatever operations a client has gone through since
    [NewWebSocketClient], its state is Disconnected, Connecting or
    Connected, and [GET /health] answers 200 "healthy": the 503 branch
    of [handleHealth], which tests for Stopping and Stopped, is never
    taken. *)
Theorem health_never_unhealthy
    (cfg : ClientConfig.t) (now : Z) (ops : list operation) :
  let c := run_ops ops (NewWebSocketClient cfg now) in
  stored_state (State c)
  /\ status (handleHealth c) = StatusOK
  /\ flag (handleHealth c) = true.
Proof.
  cbv zeta.
  assert (H : stored_state (State (run_ops ops (NewWebSocketClient cfg now))))
    by (apply run_ops_stored; left; reflexivity).
  split; [exact H|].
  unfold handleHealth, GetState.
  destruct H as [-> | [-> | ->]]; split; reflexivity.
Qed.

(** ** Handles are closed before they are let go *)

Lemma handle_safe_refl c : handle_safe c c.
Proof. exists []. rewrite app_nil_r. auto. Qed.

Lemma handle_safe_same c c' :
  trace c' = trace c -> conn c' = conn c -> handle_safe c c'.
Proof. intros Ht Hc. exists []. rewrite app_nil_r. auto. Qed.

Lemma handle_safe_trans a b c :
  handle_safe a b -> handle_safe b c -> handle_safe a c.
Proof.
  intros (s1 & T1 & H1) (s2 & T2 & H2).
  exists (s1 ++ s2)%list. split; [rewrite T2, T1, app_assoc; reflexivity|].
  destruct H1 as [E1|C1].
  - destruct H2 as [E2|C2]; [left; congruence|].
    right. intros k Hk. apply in_or_app. right. apply C2. congruence.
  - right. intros k Hk. apply in_or_app. left. apply C1, Hk.
Qed.

Lemma handle_safe_emit ev c : handle_safe c (emit ev c).
Proof. exists [ev]. split; [reflexivity | left; reflexivity]. Qed.

Lemma handle_safe_sleep why d c : handle_safe c (sleep why d c).
Proof. exists [Slept why d]. split; [reflexivity | left; reflexivity]. Qed.

Lemma Recover_handle_safe budget e c : handle_safe c (fst (Recover budget e c)).
Proof.
  unfold Recover.
  destruct (negb (CanRecover (Some e))); [apply handle_safe_refl|].
  destruct (GetRecoveryStrategy (Some e)); cbn [fst].
  - apply handle_safe_refl.
  - unfold retryOperation.
    destruct (_ <=? _); [apply handle_safe_same; reflexivity|].
    destruct (timer_elapses _ _ _); cbn [fst].
    + eapply handle_safe_trans; [|apply handle_safe_sleep].
      apply handle_safe_same; reflexivity.
    + apply handle_safe_same; reflexivity.
  - unfold reconnectOperation.
    destruct (timer_elapses _ _ _); cbn [fst];
      [apply handle_safe_sleep | apply handle_safe_refl].
  - unfold resetOperation.
    destruct (timer_elapses _ _ _); cbn [fst].
    + eapply handle_safe_trans; [|apply handle_safe_sleep].
      apply handle_safe_same; reflexivity.
    + apply handle_safe_same; reflexivity.
  - unfold fallbackOperation. cbn [fst]. apply handle_safe_same; reflexivity.
Qed.

Lemma handleErrorWithRecovery_handle_safe e c :
  handle_safe c (handleErrorWithRecovery e c).
Proof.
  unfold handleErrorWithRecovery.
  destruct (AutoRecovery _ && CanRecover (Some e)).
  - eapply handle_safe_trans; [|apply Recover_handle_safe].
    apply handle_safe_same; reflexivity.
  - apply handle_safe_same; reflexivity.
Qed.

Lemma setupConnection_handle_safe k c : handle_safe c (setupConnection k c).
Proof.
  unfold setupConnection, Disconnect. destruct (conn c) as [old|] eqn:E.
  - exists [Wrote old CloseMessage closeFrame; Closed old]. fields.
    rewrite <- app_assoc. split; [reflexivity|].
    right. intros k' Hk. rewrite E in Hk. injection Hk as <-. cbn. auto.
  - exists []. fields. rewrite app_nil_r. split; [reflexivity|].
    right. intros k' Hk. rewrite E in Hk. discriminate.
Qed.

Lemma Connect_handle_safe d c : handle_safe c (fst (Connect d c)).
Proof.
  unfold Connect. destruct d as [e|k].
  - unfold handleConnectionError. cbn [fst].
    eapply handle_safe_trans; [apply (handle_safe_emit Dialed)|].
    eapply handle_safe_trans; [|unfold attemptErrorRecovery;
      destruct (AutoRecovery _ && CanRecover (Some e));
      [apply Recover_handle_safe | apply handle_safe_refl]].
    apply handle_safe_same; reflexivity.
  - cbn [fst].
    eapply handle_safe_trans; [apply (handle_safe_emit Dialed)|].
    eapply handle_safe_trans; [|apply setupConnection_handle_safe].
    apply handle_safe_same; reflexivity.
Qed.

Lemma attemptConnection_handle_safe d c :
  handle_safe c (fst (attemptConnection d c)).
Proof.
  unfold attemptConnection.
  pose proof (Connect_handle_safe d c) as H.
  destruct (Connect d c) as [c1 [err|]]; cbn [fst] in *.
  - destruct (shouldStopRetrying _).
    + cbn [fst]. eapply handle_safe_trans; [exact H|].
      apply handle_safe_same; reflexivity.
    + unfold waitForRetry. destruct (timer_elapses _ _ _); cbn [fst].
      * eapply handle_safe_trans; [exact H|].
        eapply handle_safe_trans; [|apply handle_safe_sleep].
        apply handle_safe_same; reflexivity.
      * eapply handle_safe_trans; [exact H|].
        apply handle_safe_same; reflexivity.
  - eapply handle_safe_trans; [exact H|].
    apply handle_safe_same; reflexivity.
Qed.

Lemma SendMessage_handle_safe tr messageType data c :
  handle_safe c (fst (SendMessage tr messageType data c)).
Proof.
  unfold SendMessage.
  destruct (Allow (clock c) (rateLimiter c)) as [rl allowed].
  destruct allowed; cbn [negb]; [|apply handle_safe_same; reflexivity].
  destruct (CheckMessage _ _ _ _) as [sc [e|]];
    [apply handle_safe_same; reflexivity|].
  destruct (getConnSafely _) as [[k|] [|]];
    try (apply handle_safe_same; reflexivity).
  destruct (ValidateMessage _ _ _); [apply handle_safe_same; reflexivity|].
  destruct (_ <? len data); [apply handle_safe_same; reflexivity|].
  destruct (deadline_err tr); [apply handle_safe_same; reflexivity|].
  destruct (write_err tr); cbn [fst].
  - eapply handle_safe_trans; [|apply handleErrorWithRecovery_handle_safe].
    exists [Wrote k messageType data]. split; [reflexivity | left; reflexivity].
  - exists [Wrote k messageType data]. split; [reflexivity | left; reflexivity].
Qed.

Lemma processReceivedMessage_handle_safe messageType message c :
  handle_safe c (processReceivedMessage messageType message c).
Proof.
  unfold processReceivedMessage. destruct (ProcessMessage _ _ _).
  - eapply handle_safe_trans; [|apply handleErrorWithRecovery_handle_safe].
    apply handle_safe_same; unfold updateStats; destruct (false); reflexivity.
  - apply handle_safe_same; reflexivity.
Qed.

Lemma handle_safe_emit_all evs c : handle_safe c (emit_all evs c).
Proof.
  exists evs. rewrite emit_all_eq. split; [reflexivity | left; reflexivity].
Qed.

Lemma ReadMessages_loop_handle_safe reads : forall c,
  handle_safe c (ReadMessages_loop reads c).
Proof.
  induction reads as [|i rest IH]; intros c.
  - cbn [ReadMessages_loop].
    destruct (negb _); [apply handle_safe_refl | apply handle_safe_same; reflexivity].
  - destruct (shouldContinueReading c) eqn:Hc.
    2:{ rewrite ReadMessages_loop_stopped by exact Hc. apply handle_safe_refl. }
    apply shouldContinueReading_live in Hc as (Hd & Hs & k & Hk).
    rewrite (ReadMessages_loop_step i rest c k Hk Hs Hd). cbv zeta.
    eapply handle_safe_trans; [apply handle_safe_emit_all|].
    destruct (snd _); [|apply handle_safe_same; reflexivity].
    destruct (delivered i) as [[t m]|]; [|apply handle_safe_same; reflexivity].
    eapply handle_safe_trans; [apply processReceivedMessage_handle_safe | apply IH].
Qed.

Lemma ReadMessages_handle_safe reads c : handle_safe c (ReadMessages reads c).
Proof.
  eapply handle_safe_trans; [apply (ReadMessages_loop_handle_safe reads)|].
  unfold ReadMessages. fields.
  destruct (conn (ReadMessages_loop reads c)) as [k|] eqn:E; fields.
  - exists [Closed k]. fields. split; [reflexivity|].
    right. intros k' Hk. rewrite E in Hk. injection Hk as <-. cbn. auto.
  - apply handle_safe_same; fields; [reflexivity | congruence].
Qed.

Lemma Stop_handle_safe c : handle_safe c (Stop c).
Proof.
  unfold Stop. fields. destruct (conn c) as [k|] eqn:E; fields.
  - exists [Wrote k CloseMessage closeFrame; Closed k]. fields.
    rewrite <- app_assoc. split; [reflexivity|].
    right. intros k' Hk. rewrite E in Hk. injection Hk as <-. cbn. auto.
  - apply handle_safe_same; fields; [reflexivity | congruence].
Qed.

Lemma Start_loop_handle_safe script c : handle_safe c (Start_loop script c).
Proof.
  revert c. induction script as [|t rest IH]; intros c; cbn [Start_loop];
    [apply handle_safe_refl|].
  destruct (ctx_done c); [apply handle_safe_refl|].
  pose proof (attemptConnection_handle_safe (outcome t) c) as H1.
  destruct (attemptConnection (outcome t) c) as [c1 go]. cbn [fst] in H1.
  destruct go; cbn [negb]; [|exact H1].
  unfold handleConnectedSession.
  pose proof (ReadMessages_handle_safe (received t) c1) as H2.
  destruct (negb (negb _)).
  - eapply handle_safe_trans; eassumption.
  - eapply handle_safe_trans; [exact H1|].
    eapply handle_safe_trans; [exact H2 | apply IH].
Qed.

Lemma apply_handle_safe o c : handle_safe c (apply o c).
Proof.
  destruct o; cbn [apply].
  - apply SendMessage_handle_safe.
  - unfold sendControlMessage.
    destruct (getConnSafely c) as [[k|] [|]]; cbn [fst];
      try apply handle_safe_refl.
    exists [Wrote k messageType data]. split; [reflexivity | left; reflexivity].
  - apply Connect_handle_safe.
  - apply attemptConnection_handle_safe.
  - apply processReceivedMessage_handle_safe.
  - apply ReadMessages_handle_safe.
  - apply handle_safe_same; reflexivity.
  - apply handle_safe_same; reflexivity.
  - apply Stop_handle_safe.
  - unfold Start.
    eapply handle_safe_trans; [apply (Start_loop_handle_safe script)|].
    apply handle_safe_same; reflexivity.
Qed.

(** X4.  No operation lets go of a handle without closing it.  Over any
    sequence of operations the trace only grows, and the handle the
    client held at the start is still held at the end or [Close] has
    been called on it on the way (by [Stop], by the reader's cleanup, or
    by [setupConnection] before it installs the next handle). *)
Theorem no_handle_is_dropped_unclosed
    (ops : list operation) (c : WebSocketClient) (k : Conn) :
  conn c = Some k ->
  exists s, trace (run_ops ops c) = (trace c ++ s)%list
            /\ (conn (run_ops ops c) = Some k \/ In (Closed k) s).
Proof.
  intros Hk.
  assert (H : handle_safe c (run_ops ops c)).
  { clear Hk. revert c. induction ops as [|o ops IH]; intros c.
    - apply handle_safe_refl.
    - rewrite run_ops_cons.
      eapply handle_safe_trans; [apply apply_handle_safe | apply IH]. }
  destruct H as (s & Ht & [E|C]).
  - exists s. split; [exact Ht | left; congruence].
  - exists s. split; [exact Ht | right; apply C, Hk].
Qed.

(** ** After a stop *)

Lemma processReceivedMessage_frame messageType message c :
  let c' := processReceivedMessage messageType message c in
  config c' = config c /\ conn c' = conn c /\ ctx_done c' = ctx_done c
  /\ State c' = State c /\ RetryCount c' = RetryCount c
  /\ messageProcessor c' = messageProcessor c
  /\ dials (trace c') = dials (trace c)
  /\ written (trace c') = written (trace c)
  /\ retry_waits (trace c') = retry_waits (trace c).
Proof.
  cbv zeta. unfold processReceivedMessage.
  destruct (ProcessMessage _ _ _) as [e|]; [|unfold updateStats; repeat split].
  destruct (handleErrorWithRecovery_frame e (updateStats (len message) false c))
    as (H1 & H2 & H3 & H4 & H5 & _ & _ & H7 & H8 & H9).
  rewrite H1, H2, H3, H4, H5, H7, H8, H9.
  repeat split.
  unfold handleErrorWithRecovery.
  destruct (AutoRecovery _ && CanRecover (Some e)); [|reflexivity].
  unfold Recover. destruct (negb _); [reflexivity|].
  destruct (GetRecoveryStrategy _); cbn [fst]; try reflexivity.
  - unfold retryOperation. destruct (_ <=? _); [reflexivity|].
    destruct (timer_elapses _ _ _); reflexivity.
  - unfold reconnectOperation. destruct (timer_elapses _ _ _); reflexivity.
  - unfold resetOperation. destruct (timer_elapses _ _ _); reflexivity.
Qed.

Lemma silent_step o c :
  dials_directly o = false -> conn c = None -> ctx_done c = true ->
  conn (apply o c) = None /\ ctx_done (apply o c) = true
  /\ written (trace (apply o c)) = written (trace c)
  /\ dials (trace (apply o c)) = dials (trace c).
Proof.
  intros Ho Hc Hd. destruct o; cbn [apply dials_directly] in *; try discriminate.
  - destruct (SendMessage_frame tr messageType data c)
      as (_ & H2 & H3 & _ & _ & H6 & _).
    rewrite H2, H3, H6.
    destruct (SendMessage_effect tr messageType data c)
      as [[_ Hw] | (k & Hk & _)]; [auto | congruence].
  - unfold sendControlMessage, getConnSafely. rewrite Hc. cbn [fst]. auto.
  - destruct (processReceivedMessage_frame (messageType_of t) message c)
      as (_ & H2 & H3 & _ & _ & _ & H7 & H8 & _).
    rewrite H2, H3, H7, H8. auto.
  - rewrite ReadMessages_without_conn by exact Hc. fields. auto.
  - unfold recordError. fields. auto.
  - unfold updatePrometheusMetrics. fields. auto.
  - unfold Stop. fields. rewrite Hc. fields. auto.
  - unfold Start. fields.
    assert (E : Start_loop script c = c)
      by (destruct script; cbn [Start_loop]; rewrite ?Hd; reflexivity).
    rewrite E. auto.
Qed.

(** X5.  A stopped client is silent.  [Stop] writes one close frame to
    the handle it holds, if any, and lets it go.  After that, whatever
    is called on the client short of a direct [Connect] (sends, control
    messages, the reader, [Start], another [Stop]), no frame is written
    and no dial is made: the sends fail on the missing handle, the loops
    end on the cancelled context, and a second [Stop] writes no second
    close frame. *)
Theorem stopped_client_is_silent (c : WebSocketClient) (ops : list operation) :
  forallb (fun o => negb (dials_directly o)) ops = true ->
  let s := Stop c in
  let c' := run_ops ops s in
  written (trace s)
  = (written (trace c)
     ++ match conn c with
        | Some k => [(k, CloseMessage, closeFrame)]
        | None => []
        end)%list
  /\ written (trace c') = written (trace s)
  /\ dials (trace c') = dials (trace s)
  /\ conn c' = None
  /\ ctx_done c' = true.
Proof.
  intros Hops. cbv zeta. split.
  { unfold Stop. fields. destruct (conn c); fields; trace_simpl; reflexivity. }
  assert (Hc : conn (Stop c) = None)
    by (unfold Stop; fields; destruct (conn c) eqn:E; fields; auto).
  assert (Hd : ctx_done (Stop c) = true)
    by (unfold Stop; fields; destruct (conn c); reflexivity).
  revert Hc Hd Hops. generalize (Stop c) as s. clear c.
  induction ops as [|o ops IH]; intros s Hc Hd Hops; [cbn; auto|].
  cbn [forallb] in Hops. apply andb_true_iff in Hops as [Ho Hops].
  apply negb_true_iff in Ho.
  destruct (silent_step o s Ho Hc Hd) as (A & B & C & D).
  rewrite run_ops_cons.
  destruct (IH (apply o s) A B Hops) as (I1 & I2 & I3 & I4).
  repeat split; congruence.
Qed.

(** ** What the reader counts *)

Lemma processReceivedMessage_counts t m c :
  fits c (2 + len m) ->
  let c' := processReceivedMessage t m c in
  MessagesReceived (Stats c') = MessagesReceived (Stats c) + 1
  /\ BytesReceived (Stats c') = BytesReceived (Stats c) + len m
  /\ TotalErrors (Errors (Stats c'))
     = TotalErrors (Errors (Stats c))
       + match ProcessMessage (messageProcessor c) t m with
         | Some _ => 1
         | None => 0
         end
  /\ MessagesSent (Stats c') = MessagesSent (Stats c)
  /\ BytesSent (Stats c') = BytesSent (Stats c).
Proof.
  intros Hf. cbv zeta. pose proof (len_nonneg m) as Hl.
  pose proof (Hf messages_received) as F1.
  pose proof (Hf bytes_received) as F2.
  pose proof (Hf errors_total) as F3. cbn [read] in *.
  unfold processReceivedMessage.
  change (messageProcessor (updateStats (len m) false c))
    with (messageProcessor c).
  destruct (ProcessMessage (messageProcessor c) t m) as [e|].
  - destruct (handleErrorWithRecovery_frame e (updateStats (len m) false c))
      as (_ & _ & _ & _ & _ & H6 & _).
    rewrite H6. unfold recordError, updateStats. fields.
    cbn [MessagesSent MessagesReceived BytesSent BytesReceived Errors TotalErrors].
    rewrite (wrap64_add _ 1 (2 + len m)), (wrap64_add _ (len m) (2 + len m)),
      (wrap64_add _ 1 (2 + len m)) by lia.
    repeat split.
  - unfold updateStats. fields.
    cbn [MessagesSent MessagesReceived BytesSent BytesReceived Errors TotalErrors].
    rewrite (wrap64_add _ 1 (2 + len m)), (wrap64_add _ (len m) (2 + len m)) by lia.
    repeat split. lia.
Qed.

Lemma written_pong_writes k ps :
  written (pong_writes k ps) = map (fun a => (k, PongMessage, a)) ps.
Proof.
  induction ps as [|a ps IH]; [reflexivity|].
  change (written (pong_writes k (a :: ps)))
    with ((k, PongMessage, a) :: written (pong_writes k ps)).
  rewrite IH. reflexivity.
Qed.

Lemma ReadMessages_loop_live reads :
  forall c k,
    conn c = Some k -> State c = StateConnected -> ctx_done c = false ->
    fits c (reads_weight reads) ->
    let c' := ReadMessages_loop reads c in
    let ms := fst (taken reads) in
    let ps := snd (taken reads) in
    conn c' = Some k
    /\ MessagesReceived (Stats c')
       = MessagesReceived (Stats c) + Z.of_nat (length ms)
    /\ BytesReceived (Stats c') = BytesReceived (Stats c) + messages_bytes ms
    /\ TotalErrors (Errors (Stats c'))
       = TotalErrors (Errors (Stats c))
         + refused_messages (messageProcessor c) ms
    /\ MessagesSent (Stats c') = MessagesSent (Stats c)
    /\ BytesSent (Stats c') = BytesSent (Stats c)
    /\ written (trace c')
       = (written (trace c) ++ map (fun a => (k, PongMessage, a)) ps)%list.
Proof.
  induction reads as [|i rest IH]; intros c k Hk Hs Hd Hf; cbv zeta.
  - cbn [ReadMessages_loop taken fst snd length messages_bytes
         refused_messages foldr map].
    replace (shouldContinueReading c) with true
      by (symmetry; apply shouldContinueReading_live; eauto).
    cbn [negb]. unfold handleReadError. fields. rewrite app_nil_r.
    repeat split; try assumption; lia.
  - rewrite (ReadMessages_loop_step i rest c k Hk Hs Hd). cbv zeta.
    pose proof (reads_weight_nonneg rest) as Hr.
    pose proof (incoming_weight_nonneg i) as Hi.
    change (reads_weight (i :: rest))
      with (incoming_weight i + reads_weight rest) in Hf.
    cbn [taken].
    destruct (pings_answered (controls i)) as [ps ok]. cbn [fst snd].
    set (c1 := emit_all (pong_writes k ps) c).
    assert (E1 : Stats c1 = Stats c) by apply emit_all_Stats.
    assert (W1 : written (trace c1)
                 = (written (trace c) ++ map (fun a => (k, PongMessage, a)) ps)%list).
    { subst c1. rewrite emit_all_eq. fields.
      rewrite written_app, written_pong_writes. reflexivity. }
    assert (K1 : conn c1 = Some k) by (subst c1; rewrite emit_all_eq; exact Hk).
    assert (S1 : State c1 = StateConnected)
      by (subst c1; rewrite emit_all_eq; exact Hs).
    assert (D1 : ctx_done c1 = false) by (subst c1; rewrite emit_all_eq; exact Hd).
    assert (M1 : messageProcessor c1 = messageProcessor c)
      by (subst c1; rewrite emit_all_eq; reflexivity).
    destruct ok.
    2:{ unfold handleReadError. fields.
        cbn [fst snd length messages_bytes refused_messages foldr].
        rewrite E1. repeat split; try assumption; lia. }
    unfold incoming_weight in *.
    destruct (delivered i) as [[t m]|].
    2:{ unfold handleReadError. fields.
        cbn [fst snd length messages_bytes refused_messages foldr].
        rewrite E1. repeat split; try assumption; lia. }
    cbn [fst snd] in *.
    assert (Hf1 : fits c1 (2 + len m + reads_weight rest))
      by (eapply fits_same; [exact E1 | exact Hf]).
    assert (Hf1' : fits c1 (2 + len m)) by (eapply fits_weaken; [|exact Hf1]; lia).
    destruct (processReceivedMessage_counts (messageType_of t) m c1 Hf1')
      as (A1 & A2 & A3 & A4 & A5).
    destruct (processReceivedMessage_frame (messageType_of t) m c1)
      as (_ & B2 & B3 & B4 & _ & B6 & _ & B8 & _).
    assert (Hf2 : fits (processReceivedMessage (messageType_of t) m c1)
                    (reads_weight rest)).
    { eapply fits_weaken;
        [|eapply fits_after;
          [exact Hf1 | apply processReceivedMessage_grows; exact Hf1']]. lia. }
    assert (IH' := IH (processReceivedMessage (messageType_of t) m c1) k
                     ltac:(rewrite B2; exact K1) ltac:(rewrite B4; exact S1)
                     ltac:(rewrite B3; exact D1) Hf2).
    cbv zeta in IH'. destruct (taken rest) as [ms ps']. cbn [fst snd] in *.
    destruct IH' as (I1 & I2 & I3 & I4 & I5 & I6 & I7).
    rewrite B6, M1 in I4. rewrite M1 in A3.
    split; [exact I1|].
    rewrite I2, I3, I4, I5, I6, I7, A1, A2, A3, A4, A5, B8, W1, E1.
    cbn [length messages_bytes refused_messages foldr fst snd].
    fold (messages_bytes ms). fold (refused_messages (messageProcessor c) ms).
    rewrite map_app, app_assoc.
    destruct (ProcessMessage (messageProcessor c) (messageType_of t) m);
      repeat split; lia.
Qed.

(** X6.  What a live reader counts and writes.  On a session that is
    connected and not cancelled, [ReadMessages] takes the messages that
    the reads deliver, one after the other, until a read fails: each
    message adds one to the messages received and its bytes to the bytes
    received, before it is validated, so that a message the message
    processor refuses is counted as well and enters one error.  The
    frames the reader writes are the pongs of the ping handler, one for
    each ping that arrives, with the application data of the ping, and
    nothing else; they are no part of the sent counters.  A pong that
    the transport refuses fails the read.  When the reader ends the
    state is Disconnected, the handle is closed and let go. *)
Theorem reader_counts_every_message
    (reads : list incoming) (c : WebSocketClient) (k : Conn) :
  conn c = Some k -> State c = StateConnected -> ctx_done c = false ->
  fits c (reads_weight reads) ->
  let c' := ReadMessages reads c in
  let ms := fst (taken reads) in
  let ps := snd (taken reads) in
  MessagesReceived (Stats c')
  = MessagesReceived (Stats c) + Z.of_nat (length ms)
  /\ BytesReceived (Stats c') = BytesReceived (Stats c) + messages_bytes ms
  /\ TotalErrors (Errors (Stats c'))
     = TotalErrors (Errors (Stats c)) + refused_messages (messageProcessor c) ms
  /\ MessagesSent (Stats c') = MessagesSent (Stats c)
  /\ BytesSent (Stats c') = BytesSent (Stats c)
  /\ written (trace c')
     = (written (trace c) ++ map (fun a => (k, PongMessage, a)) ps)%list
  /\ State c' = StateDisconnected
  /\ conn c' = None
  /\ exists s, trace c' = (trace c ++ s ++ [Closed k])%list.
Proof.
  intros Hk Hs Hd Hf. cbv zeta.
  destruct (ReadMessages_loop_live reads c k Hk Hs Hd Hf)
    as (I1 & I2 & I3 & I4 & I5 & I6 & I7).
  destruct (ReadMessages_loop_handle_safe reads c) as (s & Ht & _).
  rewrite ReadMessages_Stats, ReadMessages_State.
  unfold ReadMessages. fields. rewrite I1. fields.
  rewrite written_app, I7, Ht.
  change (written [Closed k]) with (@nil (Conn * Z * string)).
  rewrite app_nil_r.
  repeat split; try assumption.
  exists s. rewrite app_assoc. reflexivity.
Qed.

(** ** The retry policy without a limit *)

Lemma calculateRetryDelay_unlimited c :
  ClientConfig.MaxRetries (config c) = 0 ->
  calculateRetryDelay c
  = policy_wait 5 (ClientConfig.RetryDelay (config c)) (RetryCount c).
Proof.
  intros H. unfold calculateRetryDelay, policy_wait. rewrite H.
  cbn [Z.eqb]. change (limit_to_int32 5) with 5.
  destruct (RetryCount c <=? 5); reflexivity.
Qed.

Lemma attemptConnection_failed_unlimited e c :
  ClientConfig.MaxRetries (config c) = 0 ->
  ctx_done c = false -> 0 <= RetryCount c < MaxInt32 ->
  let r := attemptConnection (DialFailed e) c in
  config (fst r) = config c
  /\ conn (fst r) = conn c
  /\ ctx_done (fst r) = false
  /\ RetryCount (fst r) = RetryCount c + 1
  /\ dials (trace (fst r)) = S (dials (trace c))
  /\ written (trace (fst r)) = written (trace c)
  /\ snd r = true
  /\ retry_waits (trace (fst r))
     = (retry_waits (trace c)
        ++ [policy_wait 5 (ClientConfig.RetryDelay (config c))
              (RetryCount c + 1)])%list.
Proof.
  intros H0 Hctx Hk. cbv zeta. unfold attemptConnection.
  destruct (Connect_failed e c)
    as (c' & err & -> & H1 & H2 & H3 & H4 & H5 & H6 & H7 & H8 & H9).
  set (c2 := with_RetryCount (wrap32 (RetryCount c' + 1)) c').
  assert (Hj : RetryCount c2 = RetryCount c + 1).
  { subst c2. fields. rewrite H5. apply wrap32_id.
    unfold in_int32, MaxInt32 in *. lia. }
  assert (Hcfg : config c2 = config c) by (subst c2; fields; exact H1).
  rewrite (unlimited_never_stops c2) by (rewrite Hcfg; exact H0).
  unfold waitForRetry.
  rewrite (calculateRetryDelay_unlimited c2) by (rewrite Hcfg; exact H0).
  rewrite Hcfg, Hj.
  assert (Hd : ctx_done c2 = false) by (subst c2; fields; congruence).
  unfold timer_elapses. rewrite Hd. cbn [negb andb].
  unfold sleep. subst c2. fields.
  repeat split; try assumption; try congruence.
  - rewrite <- H8. trace_simpl. reflexivity.
  - rewrite <- H9. trace_simpl. reflexivity.
  - rewrite <- H7. trace_simpl. reflexivity.
Qed.

Lemma Start_loop_unlimited (e : error) :
  forall (n : nat) (c : WebSocketClient),
    ClientConfig.MaxRetries (config c) = 0 ->
    ctx_done c = false -> conn c = None ->
    0 <= RetryCount c -> RetryCount c + Z.of_nat n <= MaxInt32 ->
    let c' := Start_loop (always_failing e n) c in
    RetryCount c' = RetryCount c + Z.of_nat n
    /\ config c' = config c
    /\ ctx_done c' = false
    /\ conn c' = None
    /\ dials (trace c') = (dials (trace c) + n)%nat
    /\ written (trace c') = written (trace c)
    /\ retry_waits (trace c')
       = (retry_waits (trace c)
          ++ unlimited_waits (ClientConfig.RetryDelay (config c))
               (RetryCount c) n)%list.
Proof.
  induction n as [|n IH]; intros c H0 Hctx Hconn Hk Hn; cbv zeta.
  - cbn [always_failing repeat Start_loop unlimited_waits].
    rewrite app_nil_r, Nat.add_0_r, Z.add_0_r. repeat split; assumption.
  - cbn [always_failing repeat Start_loop outcome received unlimited_waits].
    rewrite Hctx.
    destruct (attemptConnection_failed_unlimited e c H0 Hctx ltac:(lia))
      as (A1 & A2 & A3 & A4 & A5 & A6 & A7 & A8).
    destruct (attemptConnection (DialFailed e) c) as [c1 go].
    cbn [fst snd] in *. subst go. cbn [negb].
    unfold handleConnectedSession.
    rewrite ReadMessages_without_conn by congruence.
    fields. rewrite A3. cbn [negb].
    assert (IH' := IH (setState StateDisconnected c1)).
    cbv zeta in IH'. fields.
    destruct IH' as (I1 & I2 & I3 & I4 & I5 & I6 & I7);
      try congruence; try lia.
    change (Start_loop (repeat {| outcome := DialFailed e; received := [] |} n))
      with (Start_loop (always_failing e n)).
    repeat split; try congruence; try lia.
    rewrite I7, A8, A1, A4, <- app_assoc. reflexivity.
Qed.

Lemma unlimited_waits_slow D j n : 5 <= j -> unlimited_waits D j n = repeat D n.
Proof.
  revert j. induction n as [|n IH]; intros j Hj; [reflexivity|].
  cbn [unlimited_waits repeat]. rewrite IH by lia.
  unfold policy_wait.
  replace (j + 1 <=? 5) with false by (symmetry; apply Z.leb_gt; lia).
  reflexivity.
Qed.

Lemma unlimited_waits_fast D j n :
  0 <= j <= 5 ->
  unlimited_waits D j n
  = (repeat 0 (Nat.min n (Z.to_nat (5 - j)))
     ++ repeat D (n - Z.to_nat (5 - j)))%list.
Proof.
  revert j. induction n as [|n IH]; intros j Hj; [reflexivity|].
  destruct (Z.eq_dec j 5) as [->|Hne].
  - rewrite unlimited_waits_slow by lia. reflexivity.
  - cbn [unlimited_waits]. rewrite IH by lia.
    unfold policy_wait.
    replace (j + 1 <=? 5) with true by (symmetry; apply Z.leb_le; lia).
    replace (Z.to_nat (5 - j)) with (S (Z.to_nat (5 - (j + 1)))) by lia.
    reflexivity.
Qed.

(** X7.  With [max_retries = 0] the supervisor never gives up.  However
    many dials fail in a row ([n] of them, [n] within [int32]), the loop
    of [Start] makes all [n] dials and waits after each: not at all
    after the first five failures, then the slow delay [D] after every
    further one.  The loop is still running after the last. *)
Theorem unlimited_retry_schedule
    (cfg : ClientConfig.t) (now : Z) (e : error) (n : nat) :
  ClientConfig.MaxRetries cfg = 0 ->
  Z.of_nat n <= MaxInt32 ->
  let D := ClientConfig.RetryDelay cfg in
  let c := Start_loop (always_failing e n) (NewWebSocketClient cfg now) in
  dials (trace c) = n
  /\ retry_waits (trace c) = (repeat 0 (Nat.min n 5) ++ repeat D (n - 5))%list
  /\ RetryCount c = Z.of_nat n
  /\ written (trace c) = []
  /\ ctx_done c = false.
Proof.
  intros H0 Hn. cbv zeta.
  destruct (Start_loop_unlimited e n (NewWebSocketClient cfg now))
    as (I1 & I2 & I3 & I4 & I5 & I6 & I7);
    try reflexivity; try exact H0;
    try (cbn [RetryCount NewWebSocketClient]; lia).
  rewrite I1, I5, I6, I7. cbn [NewWebSocketClient config trace RetryCount].
  change (retry_waits []) with (@nil Z). change (dials []) with 0%nat.
  change (written []) with (@nil (Conn * Z * string)).
  rewrite unlimited_waits_fast by lia.
  repeat split; try assumption.
Qed.

(** ** The rate limiter *)

Lemma filter_lt_filter (s cut : Z) (l : list Z) :
  cut <= s ->
  filter (fun x => s < x) (filter (fun x => cut < x) l) = filter (fun x => s < x) l.
Proof.
  intros H. induction l as [|a l IH]; [reflexivity|].
  rewrite (filter_cons (fun x => cut < x)), (filter_cons (fun x => s < x) a l).
  destruct (decide (cut < a)) as [Hc|Hc].
  - rewrite filter_cons, IH. reflexivity.
  - rewrite IH. destruct (decide (s < a)); [lia | reflexivity].
Qed.

Lemma Allow_keeps_limits t rl :
  timeWindow (fst (Allow t rl)) = timeWindow rl
  /\ maxRequests (fst (Allow t rl)) = maxRequests rl.
Proof.
  unfold Allow. destruct (t <? blockedUntil rl); [auto|].
  destruct (_ <=? _); auto.
Qed.

Lemma filter_window_le (w t now : Z) (G : list Z) :
  Forall (fun x => x <= now) G -> now <= t ->
  filter (fun x => t - w < x /\ x <= t) G = filter (fun x => t - w < x) G.
Proof.
  intros HG Ht. induction HG as [|a G Ha HG IH]; [reflexivity|].
  rewrite !filter_cons, IH.
  destruct (decide (t - w < a /\ a <= t)), (decide (t - w < a)); try reflexivity; lia.
Qed.

Lemma filter_window_lt (w t now : Z) (G : list Z) :
  t < now ->
  filter (fun x => t - w < x /\ x <= t) (G ++ [now])%list
  = filter (fun x => t - w < x /\ x <= t) G.
Proof.
  intros Ht. rewrite filter_app, filter_cons, filter_nil.
  destruct (decide (t - w < now /\ now <= t)); [lia|]. apply app_nil_r.
Qed.

Lemma Allow_inv now t rl G :
  limiter_inv now rl G -> now <= t ->
  limiter_inv t (fst (Allow t rl))
    (G ++ if snd (Allow t rl) then [t] else [])%list.
Proof.
  intros (I1 & I2 & I3 & I4) Ht.
  assert (I2' : Forall (fun x => x <= t) G)
    by (eapply Forall_impl; [exact I2|]; cbn; intros; lia).
  unfold limiter_inv. destruct (Allow_keeps_limits t rl) as [-> ->].
  unfold Allow. destruct (t <? blockedUntil rl); cbn [fst snd].
  { rewrite app_nil_r. repeat split; try assumption.
    intros s Hs. apply I1. lia. }
  set (valid := filter (fun reqTime => t - timeWindow rl < reqTime) (requests rl)).
  assert (Hv : (length valid <= length (requests rl))%nat) by apply length_filter.
  destruct (maxRequests rl <=? Z.of_nat (length valid)) eqn:E;
    cbn [fst snd requests].
  - rewrite app_nil_r. repeat split; try assumption; [|lia].
    intros s Hs. subst valid. rewrite filter_lt_filter by lia. apply I1. lia.
  - apply Z.leb_gt in E.
    assert (I1' : forall s, t - timeWindow rl <= s ->
                filter (fun x => s < x) (G ++ [t])%list
                = filter (fun x => s < x) (valid ++ [t])%list).
    { intros s Hs. rewrite !filter_app. f_equal.
      subst valid. rewrite filter_lt_filter by lia. apply I1. lia. }
    repeat split.
    + exact I1'.
    + apply Forall_app. split; [exact I2'|]. constructor; [lia | constructor].
    + rewrite length_app. cbn [length]. lia.
    + intros t'. destruct (Z_lt_le_dec t' t) as [Hlt|Hge].
      * rewrite filter_window_lt by exact Hlt. apply I4.
      * rewrite (filter_window_le _ _ t).
        -- rewrite I1' by lia.
           pose proof (length_filter (fun x => t' - timeWindow rl < x) (valid ++ [t])%list) as Hl.
           rewrite length_app in Hl. cbn [length] in Hl. lia.
        -- apply Forall_app. split; [exact I2'|]. constructor; [lia | constructor].
        -- exact Hge.
Qed.

Lemma Allow_run_inv times :
  forall lo rl G,
    limiter_inv lo rl G -> monotone_from lo times = true ->
    exists now,
      limiter_inv now (fst (Allow_run times rl)) (G ++ snd (Allow_run times rl))%list
      /\ timeWindow (fst (Allow_run times rl)) = timeWindow rl
      /\ maxRequests (fst (Allow_run times rl)) = maxRequests rl.
Proof.
  induction times as [|t ts IH]; intros lo rl G HI Hm.
  - exists lo. cbn [Allow_run fst snd]. rewrite app_nil_r. auto.
  - cbn [monotone_from] in Hm. apply andb_true_iff in Hm as [Hlo Hm].
    apply Z.leb_le in Hlo.
    pose proof (Allow_inv lo t rl G HI Hlo) as H1.
    destruct (Allow_keeps_limits t rl) as [Hw Hx].
    cbn [Allow_run]. destruct (Allow t rl) as [rl1 ok]. cbn [fst snd] in *.
    destruct (IH t rl1 _ H1 Hm) as (now & H2 & H3 & H4).
    destruct (Allow_run ts rl1) as [rl2 g]. cbn [fst snd] in *.
    exists now. split; [|split; congruence].
    destruct ok; [|rewrite app_nil_r in H2; exact H2].
    rewrite <- app_assoc in H2. exact H2.
Qed.

(** X8.  The guarantee of the rate limiter.  Called at the readings of a
    clock that does not go back, a limiter made by [NewRateLimiter m w]
    lets through at most [m] calls in any window of length [w]: for
    every instant [t], the calls let through at a time in [(t - w, t]]
    number at most [m] (none at all for [m <= 0]). *)
Theorem Allow_bounds_every_window (m w : Z) (times : list Z) (t : Z) :
  nondecreasing times = true ->
  let granted := snd (Allow_run times (NewRateLimiter m w)) in
  Z.of_nat (length (filter (fun x => t - w < x /\ x <= t) granted)) <= Z.max 0 m.
Proof.
  intros Hm. cbv zeta.
  assert (H0 : forall lo, limiter_inv lo (NewRateLimiter m w) []).
  { intros lo. unfold limiter_inv. cbn. repeat split; try lia; constructor. }
  destruct times as [|t0 ts]; [cbn; lia|].
  assert (Hm' : monotone_from t0 (t0 :: ts) = true).
  { cbn [monotone_from]. rewrite Z.leb_refl. exact Hm. }
  destruct (Allow_run_inv (t0 :: ts) t0 (NewRateLimiter m w) [] (H0 t0) Hm')
    as (now & (_ & _ & _ & I4) & Hw & Hx).
  rewrite Hw, Hx in I4. cbn [NewRateLimiter timeWindow maxRequests app] in I4.
  apply I4.
Qed.

Lemma Allow_bounds_every_window_witness :
  nondecreasing burst = true
  /\ snd (Allow_run burst (NewRateLimiter 3 (10 * second))) = [0; 1; 2; 15 * second]
  /\ Z.of_nat (length (filter (fun x => 4 - 10 * second < x /\ x <= 4)
                         (snd (Allow_run burst (NewRateLimiter 3 (10 * second))))))
     <= Z.max 0 3.
Proof.
  split; [reflexivity|]. split; [vm_compute; reflexivity|].
  apply (Allow_bounds_every_window 3 (10 * second) burst 4). reflexivity.
Defined.

(** ** The books change by four primitives only *)

Lemma books_path_same c c' :
  Stats c' = Stats c -> metrics c' = metrics c -> rtc books_step c c'.
Proof.
  intros H1 H2. apply rtc_once. left. unfold books. rewrite H1, H2. reflexivity.
Qed.

Lemma books_path_then_same c c1 c' :
  rtc books_step c c1 -> Stats c' = Stats c1 -> metrics c' = metrics c1 ->
  rtc books_step c c'.
Proof. intros H H1 H2. eapply rtc_trans; [exact H | apply books_path_same; assumption]. Qed.

Lemma Recover_books budget e c : books (fst (Recover budget e c)) = books c.
Proof.
  unfold Recover. destruct (negb _); [reflexivity|].
  destruct (GetRecoveryStrategy _); cbn [fst]; try reflexivity.
  - unfold retryOperation. destruct (_ <=? _); [reflexivity|].
    destruct (timer_elapses _ _ _); reflexivity.
  - unfold reconnectOperation. destruct (timer_elapses _ _ _); reflexivity.
  - unfold resetOperation. destruct (timer_elapses _ _ _); reflexivity.
Qed.

Lemma books_eq c c' : books c' = books c -> Stats c' = Stats c /\ metrics c' = metrics c.
Proof. unfold books. intros H. injection H as H1 H2. auto. Qed.

Lemma handleErrorWithRecovery_books e c :
  books (handleErrorWithRecovery e c) = books (recordError (Some e) c).
Proof.
  unfold handleErrorWithRecovery.
  destruct (AutoRecovery _ && CanRecover (Some e)); [apply Recover_books | reflexivity].
Qed.

Lemma attemptErrorRecovery_books e c : books (attemptErrorRecovery e c) = books c.
Proof.
  unfold attemptErrorRecovery.
  destruct (AutoRecovery c && CanRecover (Some e)); [apply Recover_books | reflexivity].
Qed.

Lemma Connect_books_path d c : rtc books_step c (fst (Connect d c)).
Proof.
  unfold Connect. destruct d as [e|k].
  - unfold handleConnectionError. cbn [fst].
    apply rtc_once. right. right. left. exists (Some e).
    rewrite attemptErrorRecovery_books. reflexivity.
  - cbn [fst]. apply rtc_once. right. right. right. left. exists k.
    unfold setupConnection, Disconnect. fields.
    destruct (conn c); reflexivity.
Qed.

Lemma attemptConnection_books d c :
  books (fst (attemptConnection d c)) = books (fst (Connect d c)).
Proof.
  unfold attemptConnection. destruct (Connect d c) as [c1 [err|]]; cbn [fst].
  - destruct (shouldStopRetrying _); [reflexivity|].
    unfold waitForRetry. destruct (timer_elapses _ _ _); reflexivity.
  - reflexivity.
Qed.

Lemma SendMessage_books_path tr messageType data c :
  rtc books_step c (fst (SendMessage tr messageType data c)).
Proof.
  assert (Hrec : forall err rl sc,
             rtc books_step c
               (recordError err (with_securityChecker sc (with_rateLimiter rl c)))).
  { intros err rl sc. apply rtc_once. right. right. left. exists err. reflexivity. }
  unfold SendMessage.
  destruct (Allow (clock c) (rateLimiter c)) as [rl allowed].
  destruct allowed; cbn [negb]; [|apply (Hrec _ rl (securityChecker c))].
  destruct (CheckMessage _ _ _ _) as [sc [e|]]; [apply Hrec|].
  destruct (getConnSafely _) as [[k|] [|]]; try apply Hrec.
  destruct (ValidateMessage _ _ _); [apply Hrec|].
  destruct (_ <? len data); [apply Hrec|].
  destruct (deadline_err tr); [apply Hrec|].
  destruct (write_err tr); cbn [fst].
  - apply rtc_once. right. right. left. eexists.
    rewrite handleErrorWithRecovery_books. reflexivity.
  - apply rtc_once. right. left. exists (len data), true.
    split; [apply len_nonneg | reflexivity].
Qed.

Lemma processReceivedMessage_books_path messageType message c :
  rtc books_step c (processReceivedMessage messageType message c).
Proof.
  unfold processReceivedMessage.
  assert (H1 : rtc books_step c (updateStats (len message) false c)).
  { apply rtc_once. right. left. exists (len message), false.
    split; [apply len_nonneg | reflexivity]. }
  destruct (ProcessMessage _ _ _) as [e|]; [|exact H1].
  eapply rtc_trans; [exact H1|].
  apply rtc_once. right. right. left. exists (Some e).
  apply handleErrorWithRecovery_books.
Qed.

Lemma ReadMessages_loop_books_path reads : forall c,
  rtc books_step c (ReadMessages_loop reads c).
Proof.
  induction reads as [|i rest IH]; intros c.
  - cbn [ReadMessages_loop].
    destruct (negb _); [apply rtc_refl | apply books_path_same; reflexivity].
  - destruct (shouldContinueReading c) eqn:Hc.
    2:{ rewrite ReadMessages_loop_stopped by exact Hc. apply rtc_refl. }
    apply shouldContinueReading_live in Hc as (Hd & Hs & k & Hk).
    rewrite (ReadMessages_loop_step i rest c k Hk Hs Hd). cbv zeta.
    set (c1 := emit_all _ c).
    assert (H1 : rtc books_step c c1)
      by (apply books_path_same; subst c1; rewrite emit_all_eq; reflexivity).
    destruct (snd _);
      [|eapply books_path_then_same; [exact H1| |]; reflexivity].
    destruct (delivered i) as [[t m]|];
      [|eapply books_path_then_same; [exact H1| |]; reflexivity].
    eapply rtc_trans; [exact H1|].
    eapply rtc_trans; [apply processReceivedMessage_books_path | apply IH].
Qed.

Lemma ReadMessages_books_path reads c : rtc books_step c (ReadMessages reads c).
Proof.
  eapply books_path_then_same; [apply (ReadMessages_loop_books_path reads)| |];
    unfold ReadMessages; fields;
    destruct (conn (ReadMessages_loop reads c)); reflexivity.
Qed.

Lemma Start_loop_books_path script c : rtc books_step c (Start_loop script c).
Proof.
  revert c. induction script as [|t rest IH]; intros c; cbn [Start_loop];
    [apply rtc_refl|].
  destruct (ctx_done c); [apply rtc_refl|].
  assert (H1 : rtc books_step c (fst (attemptConnection (outcome t) c))).
  { destruct (books_eq _ _ (attemptConnection_books (outcome t) c)) as [A B].
    eapply books_path_then_same; [apply (Connect_books_path (outcome t))|exact A|exact B]. }
  destruct (attemptConnection (outcome t) c) as [c1 go]. cbn [fst] in H1.
  destruct go; cbn [negb]; [|exact H1].
  unfold handleConnectedSession.
  pose proof (ReadMessages_books_path (received t) c1) as H2.
  destruct (negb (negb _)).
  - eapply rtc_trans; eassumption.
  - eapply rtc_trans; [exact H1|]. eapply rtc_trans; [exact H2 | apply IH].
Qed.

Lemma apply_books_path o c : rtc books_step c (apply o c).
Proof.
  destruct o; cbn [apply].
  - apply SendMessage_books_path.
  - apply books_path_same; unfold sendControlMessage;
      destruct (getConnSafely c) as [[k|] [|]]; reflexivity.
  - apply Connect_books_path.
  - destruct (books_eq _ _ (attemptConnection_books d c)) as [A B].
    eapply books_path_then_same; [apply (Connect_books_path d)|exact A|exact B].
  - apply processReceivedMessage_books_path.
  - apply ReadMessages_books_path.
  - apply rtc_once. right. right. left. exists err. reflexivity.
  - apply rtc_once. right. right. right. right. reflexivity.
  - apply books_path_same; unfold Stop; fields; destruct (conn c); reflexivity.
  - eapply books_path_then_same; [apply (Start_loop_books_path script)| |];
      reflexivity.
Qed.

Lemma run_ops_books_path ops c : rtc books_step c (run_ops ops c).
Proof.
  revert c. induction ops as [|o ops IH]; intros c; [apply rtc_refl|].
  rewrite run_ops_cons. eapply rtc_trans; [apply apply_books_path | apply IH].
Qed.

(** An invariant of the books that the four primitives keep is kept by
    every run of operations. *)
Section BooksInvariant.

Variable I : ConnectionStats * PrometheusMetrics -> Prop.
Hypothesis I_updateStats :
  forall c n b, 0 <= n -> I (books c) -> I (books (updateStats n b c)).
Hypothesis I_recordError :
  forall c err, I (books c) -> I (books (recordError err c)).
Hypothesis I_setupConnection :
  forall c k, I (books c) -> I (books (setupConnection k c)).
Hypothesis I_updatePrometheusMetrics :
  forall c, I (books c) -> I (books (updatePrometheusMetrics c)).

Lemma books_step_invariant c c' : books_step c c' -> I (books c) -> I (books c').
Proof.
  intros [E | [(n & b & Hn & E) | [(err & E) | [(k & E) | E]]]] H; rewrite E; auto.
Qed.

Lemma books_path_invariant c c' : rtc books_step c c' -> I (books c) -> I (books c').
Proof.
  induction 1 as [|x y z Hxy _ IH]; [auto|].
  intros H. apply IH. eapply books_step_invariant; eassumption.
Qed.

Lemma run_ops_invariant ops c : I (books c) -> I (books (run_ops ops c)).
Proof. apply books_path_invariant, run_ops_books_path. Qed.

End BooksInvariant.

(** ** The metrics agree with the statistics *)

Lemma mirrored_updateStats c n b :
  0 <= n -> mirrored (books c) -> mirrored (books (updateStats n b c)).
Proof.
  intros _. unfold mirrored, books, updateStats.
  intros (H1 & H2 & H3 & H4 & H5 & H6).
  destruct b; fields;
    cbn [MessagesSentTotal MessagesReceivedTotal BytesSentTotal BytesReceivedTotal
         ErrorsTotal ErrorsByCodeTotal MessagesSent MessagesReceived BytesSent
         BytesReceived Errors];
    rewrite ?H1, ?H2, ?H3, ?H4; repeat split; assumption.
Qed.

Lemma mirrored_recordError c err :
  mirrored (books c) -> mirrored (books (recordError err c)).
Proof.
  unfold mirrored, books, recordError.
  intros (H1 & H2 & H3 & H4 & H5 & H6). fields.
  cbn [MessagesSentTotal MessagesReceivedTotal BytesSentTotal BytesReceivedTotal
       ErrorsTotal ErrorsByCodeTotal MessagesSent MessagesReceived BytesSent
       BytesReceived Errors TotalErrors ErrorsByCode].
  rewrite H5, H6. repeat split; assumption.
Qed.

Lemma mirrored_setupConnection c k :
  mirrored (books c) -> mirrored (books (setupConnection k c)).
Proof.
  unfold mirrored, books, setupConnection, Disconnect.
  intros H. destruct (conn c); fields; exact H.
Qed.

Lemma mirrored_updatePrometheusMetrics c :
  mirrored (books c) -> mirrored (books (updatePrometheusMetrics c)).
Proof.
  unfold mirrored, books, updatePrometheusMetrics.
  intros (H1 & H2 & H3 & H4 & H5 & H6). fields.
  cbn [MessagesSentTotal MessagesReceivedTotal BytesSentTotal BytesReceivedTotal
       ErrorsTotal ErrorsByCodeTotal].
  rewrite H6. repeat split. apply map_union_idemp.
Qed.

(** X9.  The two sets of books agree.  The Prometheus counters that
    [updateStats] and [recordError] keep on the way (messages and bytes
    in both directions, errors, errors by code) equal the statistics
    they shadow after every run of operations from [NewWebSocketClient];
    so the refresh of [updatePrometheusMetrics] leaves them as they are
    and sets only the gauge of the connection and the count of
    reconnections. *)
Theorem metrics_mirror_stats
    (cfg : ClientConfig.t) (now : Z) (ops : list operation) :
  let c := run_ops ops (NewWebSocketClient cfg now) in
  mirrored (books c)
  /\ metrics (updatePrometheusMetrics c)
     = mkPrometheusMetrics
         (if isConnected c then 1 else 0) (ReconnectCount (Stats c))
         (MessagesSentTotal (metrics c)) (MessagesReceivedTotal (metrics c))
         (BytesSentTotal (metrics c)) (BytesReceivedTotal (metrics c))
         (ErrorsTotal (metrics c)) (ErrorsByCodeTotal (metrics c)).
Proof.
  cbv zeta.
  assert (H : mirrored (books (run_ops ops (NewWebSocketClient cfg now)))).
  { apply (run_ops_invariant mirrored).
    - exact mirrored_updateStats.
    - exact mirrored_recordError.
    - exact mirrored_setupConnection.
    - exact mirrored_updatePrometheusMetrics.
    - cbn. repeat split. }
  split; [exact H|].
  destruct H as (H1 & H2 & H3 & H4 & H5 & H6).
  unfold updatePrometheusMetrics. fields.
  rewrite H1, H2, H3, H4, H5, H6, map_union_idemp. reflexivity.
Qed.

(** ** The error book adds up *)

Lemma wrap64_add_wrap_l a b : wrap64 (wrap64 a + b) = wrap64 (a + b).
Proof.
  unfold wrap64, wrap. f_equal.
  replace ((a + 2 ^ (64 - 1)) mod 2 ^ 64 - 2 ^ (64 - 1) + b + 2 ^ (64 - 1))
    with ((a + 2 ^ (64 - 1)) mod 2 ^ 64 + b) by lia.
  rewrite Zplus_mod_idemp_l. f_equal. lia.
Qed.

Lemma tally_sum_insert k x (m : gmap Z Z) :
  tally_sum (<[k:=x]> m) = x + tally_sum (delete k m).
Proof.
  unfold tally_sum. rewrite <- insert_delete_eq.
  apply (map_fold_insert_L (fun _ v acc => v + acc)).
  - intros; lia.
  - apply lookup_delete_eq.
Qed.

Lemma tally_sum_delete k (m : gmap Z Z) :
  tally_sum m = default 0 (m !! k) + tally_sum (delete k m).
Proof.
  destruct (m !! k) as [v|] eqn:E; cbn [default].
  - unfold tally_sum.
    apply (map_fold_delete_L (fun _ v acc => v + acc)); [intros; lia | exact E].
  - rewrite delete_id by exact E. lia.
Qed.

Lemma adds_up_recordError c err :
  adds_up (books c) -> adds_up (books (recordError err c)).
Proof.
  unfold adds_up, books, recordError, map_incr. cbn [fst]. fields.
  cbn [Errors TotalErrors ErrorsByCode]. intros H.
  rewrite H, tally_sum_insert.
  rewrite (tally_sum_delete (extractErrorCode err) (ErrorsByCode (Errors (Stats c)))).
  set (v := default 0 (ErrorsByCode (Errors (Stats c)) !! extractErrorCode err)).
  set (r := tally_sum (delete (extractErrorCode err) (ErrorsByCode (Errors (Stats c))))).
  rewrite !wrap64_add_wrap_l. f_equal. lia.
Qed.

(** X10.  The error book adds up.  After every run of operations from
    [NewWebSocketClient] the total of the errors is the sum of the
    tallies by code (as [int64] values are: up to the wrap-around at
    2^63), every error being filed under exactly one code. *)
Theorem error_book_adds_up
    (cfg : ClientConfig.t) (now : Z) (ops : list operation) :
  let c := run_ops ops (NewWebSocketClient cfg now) in
  TotalErrors (Errors (Stats c))
  = wrap64 (tally_sum (ErrorsByCode (Errors (Stats c)))).
Proof.
  cbv zeta.
  apply (run_ops_invariant adds_up).
  - intros c n b _ H. unfold adds_up, books, updateStats in *.
    destruct b; exact H.
  - exact adds_up_recordError.
  - intros c k H. unfold adds_up, books, setupConnection, Disconnect in *.
    destruct (conn c); exact H.
  - intros c H. exact H.
  - reflexivity.
Qed.

(** ** The numerals of [WriteInt] *)

Lemma append_String a s t : String a s ++ t = String a (s ++ t).
Proof. reflexivity. Qed.

Lemma append_empty t : "" ++ t = t.
Proof. reflexivity. Qed.

Lemma append_assoc (s t u : string) : (s ++ t) ++ u = s ++ (t ++ u).
Proof.
  induction s as [|a s IH]; [reflexivity|].
  rewrite !append_String, IH. reflexivity.
Qed.

Lemma read_digits_app s t acc :
  read_digits (s ++ t) acc
  = match read_digits s acc with
    | Some v => read_digits t v
    | None => None
    end.
Proof.
  revert acc. induction s as [|a s IH]; intros acc; [reflexivity|].
  rewrite append_String. cbn [read_digits].
  destruct ((48 <=? nat_of_ascii a) && (nat_of_ascii a <=? 57))%nat; [apply IH | reflexivity].
Qed.

Lemma WriteInt_digits_acc room : forall i acc,
  WriteInt_digits room i acc = WriteInt_digits room i "" ++ acc.
Proof.
  induction room as [|room IH]; intros i acc; [reflexivity|].
  cbn [WriteInt_digits]. destruct (0 <? i); [|reflexivity].
  rewrite IH. rewrite (IH (i / 10) (String _ "")).
  rewrite append_assoc. reflexivity.
Qed.

Lemma read_WriteInt_digits room : forall i,
  0 <= i < 10 ^ Z.of_nat room ->
  read_digits (WriteInt_digits room i "") 0 = Some i.
Proof.
  induction room as [|room IH]; intros i Hi.
  - change (10 ^ Z.of_nat 0) with 1 in Hi. cbn. f_equal. lia.
  - rewrite Nat2Z.inj_succ, Z.pow_succ_r in Hi by lia.
    cbn [WriteInt_digits]. destruct (0 <? i) eqn:E.
    + apply Z.ltb_lt in E.
      rewrite WriteInt_digits_acc, read_digits_app.
      rewrite IH by (split; [apply Z.div_pos; lia | apply Z.div_lt_upper_bound; lia]).
      cbn [read_digits].
      pose proof (Z.mod_pos_bound i 10 ltac:(lia)) as Hm.
      rewrite nat_ascii_embedding by lia.
      replace ((48 <=? 48 + Z.to_nat (i mod 10)) && (48 + Z.to_nat (i mod 10) <=? 57))%nat
        with true
        by (symmetry; apply andb_true_iff; split; apply Nat.leb_le; lia).
      f_equal. pose proof (Z.div_mod i 10 ltac:(lia)). lia.
    + apply Z.ltb_ge in E. cbn. f_equal. lia.
Qed.

Lemma read_decimal_digits s v :
  0 < v -> read_digits s 0 = Some v -> read_decimal s = Some v.
Proof.
  intros Hv H. destruct s as [|a rest]; [cbn in H; injection H; lia|].
  unfold read_decimal. destruct (Ascii.eqb a "-") eqn:E; [|exact H].
  apply Ascii.eqb_eq in E. subst a. cbn in H. discriminate.
Qed.

(** X11.  [FastStringBuilder.WriteInt] writes the decimal numeral of its
    argument: read back, the text gives the argument again, for every
    [int64] but the least.  For the least, the negation in the code
    wraps around to the same negative value, the digit loop does not
    run, and the text is the minus sign alone. *)
Theorem WriteInt_round_trip (i : Z) :
  in_int64 i ->
  read_decimal (WriteInt i) = if i =? MinInt64 then None else Some i.
Proof.
  intros Hi. unfold in_int64, MinInt64, MaxInt64 in Hi.
  destruct (i =? MinInt64) eqn:E0.
  { apply Z.eqb_eq in E0. subst i. vm_compute. reflexivity. }
  apply Z.eqb_neq in E0. unfold MinInt64 in E0.
  unfold WriteInt. destruct (i =? 0) eqn:E1.
  { apply Z.eqb_eq in E1. subst i. reflexivity. }
  apply Z.eqb_neq in E1.
  assert (Hp : 10 ^ Z.of_nat 20 = 100000000000000000000) by reflexivity.
  destruct (i <? 0) eqn:E2.
  - apply Z.ltb_lt in E2.
    rewrite wrap64_id by (unfold in_int64, MinInt64, MaxInt64; lia).
    pose proof (read_WriteInt_digits 20 (- i) ltac:(lia)) as H.
    rewrite append_String, append_empty.
    unfold read_decimal. cbn [Ascii.eqb Bool.eqb].
    destruct (WriteInt_digits 20 (- i) "") as [|a rest];
      [cbn in H; injection H; lia|].
    rewrite H. cbn. f_equal. lia.
  - apply Z.ltb_ge in E2.
    apply read_decimal_digits; [lia|].
    apply read_WriteInt_digits. lia.
Qed.

Lemma WriteInt_round_trip_witness :
  in_int64 (-2003)
  /\ WriteInt (-2003) = "-2003"
  /\ read_decimal (WriteInt (-2003)) = Some (-2003).
Proof.
  assert (H : in_int64 (-2003)) by (vm_compute; split; discriminate).
  split; [exact H|]. split; [reflexivity|].
  rewrite (WriteInt_round_trip (-2003) H). reflexivity.
Defined.

(** ** Slices, the pool and the builder *)

Lemma string_of_list_ascii_app l1 l2 :
  string_of_list_ascii (l1 ++ l2)%list
  = string_of_list_ascii l1 ++ string_of_list_ascii l2.
Proof.
  induction l1 as [|a l1 IH]; [reflexivity|].
  cbn [app string_of_list_ascii]. rewrite append_String, IH. reflexivity.
Qed.

Lemma list_ascii_of_string_app s t :
  list_ascii_of_string (s ++ t)
  = (list_ascii_of_string s ++ list_ascii_of_string t)%list.
Proof.
  induction s as [|a s IH]; [reflexivity|].
  rewrite append_String. cbn [list_ascii_of_string app]. rewrite IH. reflexivity.
Qed.

Lemma GoSlice_bytes_length b :
  (GoSlice.length_ b <= GoSlice.cap b)%nat ->
  length (GoSlice.bytes b) = GoSlice.length_ b.
Proof. unfold GoSlice.bytes, GoSlice.cap. intros H. rewrite length_take. lia. Qed.

Lemma GoSlice_append_spec b s :
  (GoSlice.length_ b <= GoSlice.cap b)%nat ->
  GoSlice.bytes (GoSlice.append b s) = (GoSlice.bytes b ++ s)%list
  /\ (GoSlice.length_ (GoSlice.append b s) <= GoSlice.cap (GoSlice.append b s))%nat.
Proof.
  intros H. pose proof (GoSlice_bytes_length b H) as Hl.
  unfold GoSlice.append.
  destruct (GoSlice.length_ b + length s <=? GoSlice.cap b)%nat eqn:E;
    unfold GoSlice.bytes at 1, GoSlice.cap at 1;
    cbn [GoSlice.array GoSlice.length_].
  - apply Nat.leb_le in E. unfold GoSlice.cap in *. split.
    + rewrite app_assoc. rewrite take_app_length'; [reflexivity|].
      rewrite length_app. lia.
    + rewrite !length_app, length_drop. lia.
  - split.
    + rewrite take_ge; [reflexivity|]. rewrite length_app. lia.
    + rewrite length_app. lia.
Qed.

Lemma BufferPool_tier_spec size :
  (BufferPool.tier size = SmallBufferSize \/ BufferPool.tier size = MediumBufferSize
   \/ BufferPool.tier size = LargeBufferSize)
  /\ (size <= LargeBufferSize -> size <= BufferPool.tier size).
Proof.
  unfold BufferPool.tier.
  destruct (size <=? SmallBufferSize) eqn:E1; [apply Z.leb_le in E1; auto|].
  destruct (size <=? MediumBufferSize) eqn:E2; [apply Z.leb_le in E2; auto|].
  auto.
Qed.

Lemma BufferPool_well_formed_tier pooled size :
  BufferPool.well_formed pooled ->
  length (pooled (BufferPool.tier size)) = Z.to_nat (BufferPool.tier size).
Proof.
  intros (W1 & W2 & W3).
  destruct (BufferPool_tier_spec size) as [[-> | [-> | ->]] _]; assumption.
Qed.

Lemma BufferPool_Get_spec pooled size :
  BufferPool.well_formed pooled -> 0 <= size <= LargeBufferSize ->
  BufferPool.Get pooled size
  = Some (GoSlice.mk (pooled (BufferPool.tier size)) (Z.to_nat size)).
Proof.
  intros W Hs.
  pose proof (BufferPool_well_formed_tier pooled size W) as Hlen.
  destruct (BufferPool_tier_spec size) as [_ Hle]. specialize (Hle ltac:(lia)).
  revert Hlen Hle. unfold BufferPool.Get, BufferPool.tier.
  destruct (size <? 0) eqn:E0; [apply Z.ltb_lt in E0; lia|].
  unfold GoSlice.reslice, GoSlice.cap. cbn [GoSlice.array].
  destruct (size <=? SmallBufferSize);
    [|destruct (size <=? MediumBufferSize);
      [|replace (size <=? LargeBufferSize) with true
          by (symmetry; apply Z.leb_le; lia)]];
    intros -> Hle;
    match goal with
    | |- context [(?a <=? ?b)%nat] =>
        replace (a <=? b)%nat with true by (symmetry; apply Nat.leb_le; lia)
    end; reflexivity.
Qed.

Lemma FastStringBuilder_write_spec fsb w :
  (GoSlice.length_ fsb <= GoSlice.cap fsb)%nat ->
  FastStringBuilder.String_ (FastStringBuilder.do_write fsb w)
  = FastStringBuilder.String_ fsb ++ FastStringBuilder.text w
  /\ (GoSlice.length_ (FastStringBuilder.do_write fsb w)
      <= GoSlice.cap (FastStringBuilder.do_write fsb w))%nat.
Proof.
  intros H. unfold FastStringBuilder.String_.
  assert (A : forall b s, (GoSlice.length_ b <= GoSlice.cap b)%nat ->
              string_of_list_ascii
                (GoSlice.bytes (GoSlice.append b (list_ascii_of_string s)))
              = string_of_list_ascii (GoSlice.bytes b) ++ s).
  { intros b s Hb. destruct (GoSlice_append_spec b (list_ascii_of_string s) Hb) as [-> _].
    rewrite string_of_list_ascii_app, string_of_list_ascii_of_string. reflexivity. }
  destruct w as [s|a|i]; cbn [FastStringBuilder.do_write FastStringBuilder.text].
  - unfold FastStringBuilder.WriteString. split; [apply A, H|].
    apply GoSlice_append_spec, H.
  - unfold FastStringBuilder.WriteByte. split; [|apply GoSlice_append_spec, H].
    apply (A fsb (String a "") H).
  - unfold FastStringBuilder.WriteInt, GoStrings.WriteInt,
      FastStringBuilder.WriteByte.
    destruct (i =? 0).
    + split; [apply (A fsb "0" H) | apply GoSlice_append_spec, H].
    + destruct (i <? 0).
      * destruct (GoSlice_append_spec fsb ["-"%char] H) as [B1 B2].
        split; [|apply GoSlice_append_spec, B2].
        rewrite A by exact B2. rewrite B1, string_of_list_ascii_app.
        cbn [string_of_list_ascii]. rewrite append_assoc. reflexivity.
      * split; [apply A, H | apply GoSlice_append_spec, H].
Qed.

Lemma FastStringBuilder_writes_spec ws : forall fsb,
  (GoSlice.length_ fsb <= GoSlice.cap fsb)%nat ->
  FastStringBuilder.String_ (foldl FastStringBuilder.do_write fsb ws)
  = FastStringBuilder.String_ fsb ++ FastStringBuilder.texts ws.
Proof.
  induction ws as [|w ws IH]; intros fsb H; cbn [foldl FastStringBuilder.texts foldr].
  - induction (FastStringBuilder.String_ fsb) as [|a s IHs]; [reflexivity|].
    rewrite append_String, <- IHs. reflexivity.
  - destruct (FastStringBuilder_write_spec fsb w H) as [A B].
    rewrite IH by exact B. rewrite A, append_assoc. reflexivity.
Qed.

Lemma FastStringBuilder_New_spec pooled initialSize fsb :
  BufferPool.well_formed pooled ->
  FastStringBuilder.New pooled initialSize = Some fsb ->
  0 <= initialSize
  /\ GoSlice.length_ fsb = Z.to_nat initialSize
  /\ (GoSlice.length_ fsb <= GoSlice.cap fsb)%nat
  /\ GoSlice.bytes fsb
     = if initialSize <=? LargeBufferSize
       then take (Z.to_nat initialSize) (pooled (BufferPool.tier initialSize))
       else repeat Ascii.zero (Z.to_nat initialSize).
Proof.
  intros W. unfold FastStringBuilder.New.
  destruct (Z_lt_le_dec initialSize 0) as [Hn|Hn].
  { unfold BufferPool.Get. replace (initialSize <? 0) with true
      by (symmetry; apply Z.ltb_lt; lia). discriminate. }
  destruct (initialSize <=? LargeBufferSize) eqn:El.
  - apply Z.leb_le in El.
    rewrite (BufferPool_Get_spec pooled initialSize W) by lia.
    pose proof (BufferPool_well_formed_tier pooled initialSize W) as Hlen.
    destruct (BufferPool_tier_spec initialSize) as [_ Hle]. specialize (Hle El).
    intros E. injection E as <-. cbn [GoSlice.length_].
    unfold GoSlice.cap, GoSlice.bytes. cbn [GoSlice.array GoSlice.length_].
    rewrite Hlen. repeat split; lia.
  - apply Z.leb_gt in El. unfold BufferPool.Get.
    replace (initialSize <? 0) with false by (symmetry; apply Z.ltb_ge; lia).
    unfold SmallBufferSize, MediumBufferSize, LargeBufferSize in *.
    replace (initialSize <=? 1024) with false by (symmetry; apply Z.leb_gt; lia).
    replace (initialSize <=? 4096) with false by (symmetry; apply Z.leb_gt; lia).
    replace (initialSize <=? 16384) with false by (symmetry; apply Z.leb_gt; lia).
    intros E. injection E as <-. unfold GoSlice.make, GoSlice.cap, GoSlice.bytes.
    cbn [GoSlice.length_ GoSlice.array]. rewrite repeat_length.
    repeat split; try lia.
    apply take_ge. rewrite repeat_length. lia.
Qed.

Lemma append_nil_r (s : string) : s ++ "" = s.
Proof.
  induction s as [|a s IH]; [reflexivity|]. rewrite append_String, IH. reflexivity.
Qed.

Lemma string_of_list_ascii_length l :
  String.length (string_of_list_ascii l) = length l.
Proof. induction l as [|a l IH]; [reflexivity|]. cbn. rewrite IH. reflexivity. Qed.

Lemma BufferPool_fresh_well_formed : BufferPool.well_formed BufferPool.fresh.
Proof. unfold BufferPool.well_formed, BufferPool.fresh. rewrite !repeat_length. auto. Qed.

(** X12.  A builder starts with the bytes of its buffer.
    [NewFastStringBuilder(n)] takes from the pool a slice of length [n],
    not of length 0, and every write appends after it: the text of
    [String()] is the first [n] bytes of the pool buffer (zeros in a new
    buffer, whatever a buffer given back held otherwise) followed by
    what was written. *)
Theorem builder_starts_with_the_bytes_of_its_buffer
    (pooled : Z -> list ascii) (initialSize : Z)
    (fsb : FastStringBuilder.t) (ws : list FastStringBuilder.write) :
  BufferPool.well_formed pooled ->
  FastStringBuilder.New pooled initialSize = Some fsb ->
  String.length (FastStringBuilder.String_ fsb) = Z.to_nat initialSize
  /\ FastStringBuilder.String_ fsb
     = string_of_list_ascii
         (if initialSize <=? LargeBufferSize
          then take (Z.to_nat initialSize) (pooled (BufferPool.tier initialSize))
          else repeat Ascii.zero (Z.to_nat initialSize))
  /\ FastStringBuilder.String_ (foldl FastStringBuilder.do_write fsb ws)
     = FastStringBuilder.String_ fsb ++ FastStringBuilder.texts ws.
Proof.
  intros W E.
  destruct (FastStringBuilder_New_spec pooled initialSize fsb W E)
    as (H0 & H1 & H2 & H3).
  split; [|split].
  - unfold FastStringBuilder.String_.
    rewrite string_of_list_ascii_length, GoSlice_bytes_length by exact H2.
    exact H1.
  - unfold FastStringBuilder.String_. rewrite H3. reflexivity.
  - apply FastStringBuilder_writes_spec, H2.
Qed.

Lemma builder_starts_with_the_bytes_of_its_buffer_witness :
  BufferPool.well_formed BufferPool.fresh
  /\ FastStringBuilder.New BufferPool.fresh 16 = Some type_11_builder
  /\ FastStringBuilder.String_
       (foldl FastStringBuilder.do_write type_11_builder type_11_writes)
     = string_of_list_ascii (repeat Ascii.zero 16) ++ "TYPE_11".
Proof.
  split; [exact BufferPool_fresh_well_formed|].
  assert (E : FastStringBuilder.New BufferPool.fresh 16 = Some type_11_builder)
    by reflexivity.
  split; [exact E|].
  destruct (builder_starts_with_the_bytes_of_its_buffer BufferPool.fresh 16
              type_11_builder type_11_writes BufferPool_fresh_well_formed E)
    as (_ & H2 & H3).
  rewrite H3, H2. reflexivity.
Defined.

(** ** The text of a [ConnectionError] *)

Lemma Contains_after_zero s c p :
  c <> Ascii.zero ->
  Contains (String Ascii.zero s) (String c p) = Contains s (String c p).
Proof.
  intros Hc. cbn [Contains String.prefix].
  destruct (ascii_dec c Ascii.zero) as [E|E]; [contradiction | reflexivity].
Qed.

Lemma Contains_after_zeros n s c p :
  c <> Ascii.zero ->
  Contains (string_of_list_ascii (repeat Ascii.zero n) ++ s) (String c p)
  = Contains s (String c p).
Proof.
  intros Hc. induction n as [|n IH]; [reflexivity|].
  cbn [repeat string_of_list_ascii]. rewrite append_String.
  rewrite Contains_after_zero by exact Hc. exact IH.
Qed.

(** The builder [b] holds what [b0] held and the text [t] after it. *)
Lemma built_start b0 :
  (GoSlice.length_ b0 <= GoSlice.cap b0)%nat ->
  (GoSlice.length_ b0 <= GoSlice.cap b0)%nat
  /\ FastStringBuilder.String_ b0 = FastStringBuilder.String_ b0 ++ "".
Proof. intros H. split; [exact H | rewrite append_nil_r; reflexivity]. Qed.

Lemma built_WriteString b0 b t s :
  (GoSlice.length_ b <= GoSlice.cap b)%nat
  /\ FastStringBuilder.String_ b = FastStringBuilder.String_ b0 ++ t ->
  (GoSlice.length_ (FastStringBuilder.WriteString s b)
   <= GoSlice.cap (FastStringBuilder.WriteString s b))%nat
  /\ FastStringBuilder.String_ (FastStringBuilder.WriteString s b)
     = FastStringBuilder.String_ b0 ++ (t ++ s).
Proof.
  intros [H1 H2].
  destruct (FastStringBuilder_write_spec b (FastStringBuilder.WString s) H1) as [A B].
  split; [exact B|]. etransitivity; [exact A|].
  rewrite H2, append_assoc. reflexivity.
Qed.

Lemma built_WriteByte b0 b t a :
  (GoSlice.length_ b <= GoSlice.cap b)%nat
  /\ FastStringBuilder.String_ b = FastStringBuilder.String_ b0 ++ t ->
  (GoSlice.length_ (FastStringBuilder.WriteByte a b)
   <= GoSlice.cap (FastStringBuilder.WriteByte a b))%nat
  /\ FastStringBuilder.String_ (FastStringBuilder.WriteByte a b)
     = FastStringBuilder.String_ b0 ++ (t ++ String a "").
Proof.
  intros [H1 H2].
  destruct (FastStringBuilder_write_spec b (FastStringBuilder.WByte a) H1) as [A B].
  split; [exact B|]. etransitivity; [exact A|].
  rewrite H2, append_assoc. reflexivity.
Qed.

Lemma built_WriteInt b0 b t i :
  (GoSlice.length_ b <= GoSlice.cap b)%nat
  /\ FastStringBuilder.String_ b = FastStringBuilder.String_ b0 ++ t ->
  (GoSlice.length_ (FastStringBuilder.WriteInt i b)
   <= GoSlice.cap (FastStringBuilder.WriteInt i b))%nat
  /\ FastStringBuilder.String_ (FastStringBuilder.WriteInt i b)
     = FastStringBuilder.String_ b0 ++ (t ++ WriteInt i).
Proof.
  intros [H1 H2].
  destruct (FastStringBuilder_write_spec b (FastStringBuilder.WInt i) H1) as [A B].
  split; [exact B|]. etransitivity; [exact A|].
  rewrite H2, append_assoc. reflexivity.
Qed.

Lemma ConnectionError_writes_text code op url (cause : option string) fsb :
  (GoSlice.length_ fsb <= GoSlice.cap fsb)%nat ->
  FastStringBuilder.String_ (ConnectionError_writes code op url cause fsb)
  = FastStringBuilder.String_ fsb
    ++ ConnectionError_text code op url (default "" cause).
Proof.
  intros H2. unfold ConnectionError_writes, ConnectionError_text.
  pose proof (built_start fsb H2) as B.
  apply (built_WriteByte fsb _ _ "[") in B.
  apply (built_WriteInt fsb _ _ code) in B.
  apply (built_WriteString fsb _ _ "] 连接错误 [") in B.
  apply (built_WriteString fsb _ _ op) in B.
  apply (built_WriteString fsb _ _ "] ") in B.
  apply (built_WriteString fsb _ _ url) in B.
  apply (built_WriteString fsb _ _ ": ") in B.
  apply (built_WriteString fsb _ _ (ErrorCode_String code)) in B.
  apply (built_WriteString fsb _ _ " - ") in B.
  destruct cause as [t|]; cbn [default].
  - apply (built_WriteString fsb _ _ t) in B.
    destruct B as [_ B]. etransitivity; [exact B|]. f_equal.
    rewrite !append_assoc, !append_empty, !append_String, !append_empty.
    reflexivity.
  - destruct B as [_ B]. etransitivity; [exact B|]. f_equal.
    rewrite !append_assoc, !append_empty, !append_String, !append_empty,
      ?append_nil_r.
    reflexivity.
Qed.

(** X13.  The text of a [ConnectionError].  [Error()] builds its text in
    a builder of initial size 128, so the string it returns is the first
    128 bytes of a small pool buffer followed by the text
    "[code] 连接错误 [op] url: kind - cause".  Over a new buffer those
    bytes are zeros, and the pattern test of [isNetworkError] answers on
    the string as it does on the text alone.  The string is the one that
    [Error] gives for the buffer the pool hands out. *)
Theorem ConnectionError_Error_follows_pool_bytes
    (pooled : Z -> list ascii) (code : ErrorCode) (op url : string)
    (cause : option error) (retry : bool) :
  BufferPool.well_formed pooled ->
  let text :=
    ConnectionError_text code op url
      match cause with Some i => Error i | None => "" end in
  ConnectionError_Error pooled code op url (option_map Error cause)
  = Some (string_of_list_ascii (take 128 (pooled SmallBufferSize)) ++ text)
  /\ containsNetworkErrorPattern
       (string_of_list_ascii (take 128 (BufferPool.fresh SmallBufferSize)) ++ text)
     = containsNetworkErrorPattern text
  /\ (pool_buffer (EConn code op url cause retry) = pooled SmallBufferSize ->
      ConnectionError_Error pooled code op url (option_map Error cause)
      = Some (Error (EConn code op url cause retry))).
Proof.
  intros W. cbv zeta.
  assert (E1 : ConnectionError_Error pooled code op url (option_map Error cause)
               = Some (string_of_list_ascii (take 128 (pooled SmallBufferSize))
                       ++ ConnectionError_text code op url
                            match cause with Some i => Error i | None => "" end)).
  { unfold ConnectionError_Error.
    destruct (FastStringBuilder.New pooled 128) as [fsb|] eqn:E.
    + destruct (FastStringBuilder_New_spec pooled 128 fsb W E) as (_ & _ & H2 & H3).
      rewrite (ConnectionError_writes_text code op url _ fsb H2).
      unfold FastStringBuilder.String_. rewrite H3.
      destruct cause; reflexivity.
    + unfold FastStringBuilder.New in E.
      rewrite (BufferPool_Get_spec pooled 128 W) in E
        by (unfold LargeBufferSize; lia).
      discriminate. }
  split; [exact E1|]. split.
  - change (take 128 (BufferPool.fresh SmallBufferSize))
      with (repeat Ascii.zero 128).
    unfold containsNetworkErrorPattern, patterns. cbn [existsb].
    rewrite !Contains_after_zeros by discriminate. reflexivity.
  - intros P. rewrite E1. cbn [Error]. rewrite P. reflexivity.
Qed.

(** ** What the pool holds decides the class of a failure *)

Lemma prefix_app p : forall s t,
  String.prefix p s = true -> String.prefix p (s ++ t) = true.
Proof.
  induction p as [|a p IH]; intros s t H; [destruct (s ++ t); reflexivity|].
  destruct s as [|b s]; [discriminate|].
  rewrite append_String. cbn [String.prefix] in *.
  destruct (ascii_dec a b); [apply IH, H | discriminate].
Qed.

Lemma Contains_app p s t : Contains s p = true -> Contains (s ++ t) p = true.
Proof.
  induction s as [|a s IH]; intros H.
  - cbn [Contains] in H. rewrite orb_false_r in H.
    destruct p as [|b p]; [|discriminate].
    destruct ("" ++ t); reflexivity.
  - rewrite append_String. cbn [Contains] in *.
    apply orb_true_iff in H as [H|H]; apply orb_true_iff.
    + left. rewrite <- append_String. apply prefix_app, H.
    + right. apply IH, H.
Qed.

(** X27.  What the pool holds decides the class of a failure.  The
    classifier reads the string of [Error()], which for a
    [*ConnectionError] starts with 128 bytes of a pool buffer.  When
    those bytes hold one of the network patterns (the head of a payload
    sent earlier, say), every [*ConnectionError] reads as a network
    error, whatever its code, its cause and its retry flag: it can be
    recovered and the selector answers Reconnect. *)
Theorem stale_pool_bytes_reclassify
    (code : ErrorCode) (op url : string) (inner : option error) (retry : bool)
    (p : string) :
  In p patterns ->
  Contains (string_of_list_ascii
              (take 128 (pool_buffer (EConn code op url inner retry)))) p = true ->
  isNetworkError (Some (EConn code op url inner retry)) = true
  /\ CanRecover (Some (EConn code op url inner retry)) = true
  /\ GetRecoveryStrategy (Some (EConn code op url inner retry)) = RecoveryReconnect.
Proof.
  intros Hp Hc.
  assert (H : isNetworkError (Some (EConn code op url inner retry)) = true).
  { cbn [isNetworkError isNetworkError_nonnil]. unfold containsNetworkErrorPattern.
    apply existsb_exists. exists p. split; [exact Hp|].
    cbn [Error]. apply Contains_app, Hc. }
  split; [exact H|].
  split; [unfold CanRecover | unfold GetRecoveryStrategy]; rewrite H; reflexivity.
Qed.

(** ** The buffer of a send *)

Lemma calculateOptimalBufferSize_ge rt messageSize :
  messageSize <= calculateOptimalBufferSize rt messageSize.
Proof.
  unfold calculateOptimalBufferSize.
  match goal with
  | |- context [if ?b <? messageSize then _ else _] =>
      destruct (b <? messageSize) eqn:E; [lia | apply Z.ltb_ge in E; exact E]
  end.
Qed.

Lemma via_pool_spec pooled (data : list ascii) size :
  BufferPool.well_formed pooled ->
  Z.of_nat (length data) <= size <= LargeBufferSize ->
  match BufferPool.Get pooled size with
  | None => None
  | Some buf =>
      let buf := GoSlice.copy buf data in
      match GoSlice.reslice buf (length data) with
      | None => None
      | Some sendData => Some (GoSlice.bytes sendData, Some (BufferPool.Put buf))
      end
  end
  = Some (data,
          Some (if size =? 0 then None
                else Some (BufferPool.tier size,
                           (data ++ drop (length data)
                                      (pooled (BufferPool.tier size)))%list))).
Proof.
  intros W Hs.
  rewrite (BufferPool_Get_spec pooled size W) by lia.
  pose proof (BufferPool_well_formed_tier pooled size W) as Hlen.
  destruct (BufferPool_tier_spec size) as [HT Hle]. specialize (Hle ltac:(lia)).
  set (T := BufferPool.tier size) in *.
  cbv zeta. unfold GoSlice.copy. cbn [GoSlice.length_ GoSlice.array].
  replace (Nat.min (Z.to_nat size) (length data)) with (length data) by lia.
  rewrite firstn_all.
  unfold GoSlice.reslice, GoSlice.cap. cbn [GoSlice.array].
  assert (Hcap : length (data ++ drop (length data) (pooled T))%list = Z.to_nat T).
  { rewrite length_app, length_drop, Hlen. lia. }
  rewrite Hcap.
  replace (length data <=? Z.to_nat T)%nat with true
    by (symmetry; apply Nat.leb_le; lia).
  unfold GoSlice.bytes. cbn [GoSlice.array GoSlice.length_].
  rewrite take_app_length.
  unfold BufferPool.Put, GoSlice.cap. cbn [GoSlice.array GoSlice.length_].
  rewrite Hcap, Z2Nat.id by (destruct HT as [-> | [-> | ->]]; discriminate).
  replace ((T =? SmallBufferSize) || (T =? MediumBufferSize) || (T =? LargeBufferSize))
    with true by (destruct HT as [-> | [-> | ->]]; reflexivity).
  destruct (size =? 0) eqn:E0.
  - apply Z.eqb_eq in E0. subst size. reflexivity.
  - apply Z.eqb_neq in E0.
    replace (Z.to_nat size =? 0)%nat with false
      by (symmetry; apply Nat.eqb_neq; lia).
    reflexivity.
Qed.

(** X14.  The buffer of a send carries the payload and nothing else.
    Whichever pool buffer [SendMessage] takes, whatever that buffer held
    before, whether the buffer size is adapted or not and whatever the
    scaling yields, the bytes handed to [conn.WriteMessage] are the
    bytes of the payload, and the taking of the buffer never panics.
    The buffer goes back to its pool with the payload still at its
    head; only a buffer of length 0, taken for an empty payload, is
    dropped. *)
Theorem send_buffer_carries_the_payload
    (rt : runtime) (pooled : Z -> list ascii) (adaptive : bool)
    (data : list ascii) :
  BufferPool.well_formed pooled ->
  exists back,
    send_buffer rt pooled adaptive data = Some (data, back)
    /\ match back with
       | Some (Some (T, arr)) =>
           length arr = Z.to_nat T /\ take (length data) arr = data
       | Some None => data = []
       | None => True
       end.
Proof.
  intros W. unfold send_buffer. cbv zeta.
  assert (Hback : forall size,
             Z.of_nat (length data) <= size <= LargeBufferSize ->
             match (if size =? 0 then None
                    else Some (BufferPool.tier size,
                               (data ++ drop (length data)
                                          (pooled (BufferPool.tier size)))%list))
             with
             | Some (T, arr) => length arr = Z.to_nat T /\ take (length data) arr = data
             | None => data = []
             end).
  { intros size Hs. destruct (size =? 0) eqn:E0.
    - apply Z.eqb_eq in E0. destruct data; [reflexivity | cbn in Hs; lia].
    - pose proof (BufferPool_well_formed_tier pooled size W) as Hlen.
      destruct (BufferPool_tier_spec size) as [_ Hle]. specialize (Hle ltac:(lia)).
      split; [|apply take_app_length].
      rewrite length_app, length_drop, Hlen. lia. }
  destruct adaptive.
  - pose proof (calculateOptimalBufferSize_ge rt (Z.of_nat (length data))) as Hge.
    destruct (calculateOptimalBufferSize rt (Z.of_nat (length data)) <=? LargeBufferSize)
      eqn:E; [|eexists; split; [reflexivity | exact Logic.I]].
    apply Z.leb_le in E.
    rewrite via_pool_spec by (try exact W; lia).
    eexists. split; [reflexivity|]. apply Hback. lia.
  - destruct (Z.of_nat (length data) <=? LargeBufferSize) eqn:E;
      [|eexists; split; [reflexivity | exact Logic.I]].
    apply Z.leb_le in E.
    rewrite via_pool_spec by (try exact W; lia).
    eexists. split; [reflexivity|]. apply Hback. lia.
Qed.

Lemma send_buffer_carries_the_payload_witness :
  BufferPool.well_formed BufferPool.fresh
  /\ exists back,
       send_buffer busy_runtime BufferPool.fresh true (list_ascii_of_string "hello")
       = Some (list_ascii_of_string "hello", back).
Proof.
  split; [exact BufferPool_fresh_well_formed|].
  destruct (send_buffer_carries_the_payload busy_runtime BufferPool.fresh true
              (list_ascii_of_string "hello") BufferPool_fresh_well_formed)
    as (back & H & _).
  exists back. exact H.
Defined.

(** ** The security check reads text whatever its case *)

Lemma prefix_ToLower_ascii p : forall s,
  String.prefix p s = true
  -> String.prefix (ToLower_ascii p) (ToLower_ascii s) = true.
Proof.
  induction p as [|a p IH]; intros s H; [destruct s; reflexivity|].
  destruct s as [|b s]; [discriminate|].
  cbn [String.prefix ToLower_ascii] in *.
  destruct (ascii_dec a b) as [->|Hne]; [|discriminate].
  destruct (ascii_dec (lower_ascii b) (lower_ascii b)); [apply IH, H | contradiction].
Qed.

Lemma Contains_ToLower_ascii s q :
  Contains s q = true -> Contains (ToLower_ascii s) (ToLower_ascii q) = true.
Proof.
  induction s as [|a s IH]; cbn [Contains ToLower_ascii]; intros H;
    apply orb_true_iff in H as [H|H]; apply orb_true_iff.
  - left. apply (prefix_ToLower_ascii q ""), H.
  - discriminate.
  - left. apply (prefix_ToLower_ascii q (String a s)), H.
  - right. apply IH, H.
Qed.

Lemma prefix_is_ascii p : forall s,
  String.prefix p s = true -> is_ascii s = true -> is_ascii p = true.
Proof.
  induction p as [|a p IH]; intros s H Hs; [reflexivity|].
  destruct s as [|b s]; [discriminate|].
  cbn [String.prefix is_ascii] in *.
  destruct (ascii_dec a b) as [->|Hne]; [|discriminate].
  apply andb_true_iff in Hs as [H1 H2]. rewrite H1. exact (IH s H H2).
Qed.

Lemma Contains_is_ascii s q :
  Contains s q = true -> is_ascii s = true -> is_ascii q = true.
Proof.
  induction s as [|a s IH]; cbn [Contains]; intros H Hs;
    apply orb_true_iff in H as [H|H].
  - exact (prefix_is_ascii q "" H Hs).
  - discriminate.
  - exact (prefix_is_ascii q (String a s) H Hs).
  - cbn [is_ascii] in Hs. apply andb_true_iff in Hs as [_ Hs]. exact (IH H Hs).
Qed.

(** On a text of ASCII bytes [strings.ToLower] takes its ASCII path,
    whatever the case tables hold. *)
Lemma ToLower_is_ascii s : is_ascii s = true -> ToLower s = ToLower_ascii s.
Proof. intros H. unfold ToLower. rewrite H. reflexivity. Qed.

Lemma first_blocked_found t p ps :
  In p ps -> Contains t p = true -> first_blocked t ps <> None.
Proof.
  induction ps as [|p0 ps IH]; intros Hin Hc; [destruct Hin|].
  cbn [first_blocked]. destruct (Contains t p0) eqn:E; [discriminate|].
  destruct Hin as [->|Hin]; [congruence | apply IH; assumption].
Qed.

(** X15.  The security check reads a text whatever the case of its
    letters.  A text message (of ASCII bytes) that holds a blocked
    pattern in any mix of capitals and small letters is refused, and the
    refusal is entered as a security event: the count of suspicious
    messages goes up by one and the time is kept. *)
Theorem CheckMessage_ignores_case
    (now : Z) (sc : SecurityChecker) (data q : string) :
  is_ascii data = true ->
  In (ToLower q) (blockedPatterns sc) ->
  Contains data q = true ->
  snd (CheckMessage now sc TextMessage data) <> None
  /\ fst (CheckMessage now sc TextMessage data) = recordSecurityEvent now sc
  /\ suspiciousCount (fst (CheckMessage now sc TextMessage data))
     = wrap64 (suspiciousCount sc + 1).
Proof.
  intros Ha Hin Hc. unfold CheckMessage.
  destruct (sc_maxMessageSize sc <? len data); cbn [fst snd];
    [repeat split; discriminate|].
  change (TextMessage =? TextMessage) with true. cbn match.
  assert (Hq : is_ascii q = true) by exact (Contains_is_ascii data q Hc Ha).
  pose proof (first_blocked_found (ToLower data) (ToLower q) (blockedPatterns sc)
                Hin) as H.
  rewrite (ToLower_is_ascii data Ha), (ToLower_is_ascii q Hq) in H.
  specialize (H (Contains_ToLower_ascii data q Hc)).
  rewrite (ToLower_is_ascii data Ha).
  destruct (first_blocked (ToLower_ascii data) (blockedPatterns sc)) as [p|];
    [|contradiction].
  cbn [fst snd]. repeat split. discriminate.
Qed.

(** ** The penalty of the rate limiter *)

(** X16.  The penalty of the rate limiter.  A call that finds the limit
    reached (outside a penalty) is refused, counted as one violation and
    starts a penalty of a full window from that call.  Every call before
    the end of the penalty is refused at once and leaves the limiter as
    it is: it is not counted as a violation, does not extend the
    penalty, and the requests on record are not looked at. *)
Theorem Allow_penalty_lasts_a_window
    (rl : RateLimiter) (t0 : Z) (times : list Z) :
  blockedUntil rl <= t0 ->
  snd (Allow t0 rl) = false ->
  Forall (fun t => t < t0 + timeWindow rl) times ->
  let rl' := fst (Allow t0 rl) in
  blockedUntil rl' = t0 + timeWindow rl
  /\ violationCount rl' = wrap64 (violationCount rl + 1)
  /\ Allow_run times rl' = (rl', []).
Proof.
  intros Hb Hr Ht. cbv zeta. unfold Allow in *.
  replace (t0 <? blockedUntil rl) with false in * by (symmetry; apply Z.ltb_ge; lia).
  destruct (maxRequests rl <=? _); cbn [fst snd] in *; [|discriminate].
  split; [reflexivity|]. split; [reflexivity|].
  induction Ht as [|t times Hlt _ IH]; [reflexivity|].
  cbn [Allow_run]. unfold Allow at 1. cbn [blockedUntil].
  replace (t <? t0 + timeWindow rl) with true by (symmetry; apply Z.ltb_lt; lia).
  rewrite IH. reflexivity.
Qed.

Lemma Allow_penalty_lasts_a_window_witness :
  let rl := fst (Allow_run [0; 1; 2] (NewRateLimiter 3 (10 * second))) in
  blockedUntil rl <= 3
  /\ snd (Allow 3 rl) = false
  /\ Allow_run [4; 9 * second; 10 * second + 2] (fst (Allow 3 rl))
     = (fst (Allow 3 rl), []).
Proof.
  cbv zeta.
  assert (H1 : blockedUntil (fst (Allow_run [0; 1; 2] (NewRateLimiter 3 (10 * second))))
               <= 3) by (vm_compute; discriminate).
  assert (H2 : snd (Allow 3 (fst (Allow_run [0; 1; 2] (NewRateLimiter 3 (10 * second)))))
               = false) by reflexivity.
  split; [exact H1|]. split; [exact H2|].
  apply (Allow_penalty_lasts_a_window _ 3 [4; 9 * second; 10 * second + 2] H1 H2).
  repeat constructor.
Defined.

(** ** The budget of the retry recovery *)

Lemma retryOperation_counts e c :
  ctx_done c = false ->
  let k := default 0 (recoveryHistory (errorRecovery c) !! type_name e) in
  let r := retryOperation None e c in
  snd r = (k <? maxRetries (errorRecovery c))
  /\ ctx_done (fst r) = false
  /\ maxRetries (errorRecovery (fst r)) = maxRetries (errorRecovery c)
  /\ recoveryHistory (errorRecovery (fst r))
     = <[ type_name e := wrap64 (k + 1) ]> (recoveryHistory (errorRecovery c)).
Proof.
  intros Hd. cbv zeta. unfold retryOperation.
  rewrite Z.ltb_antisym.
  destruct (maxRetries (errorRecovery c) <=? _); cbn [negb fst snd].
  - repeat split. exact Hd.
  - unfold timer_elapses. fields. rewrite Hd. cbn [negb andb fst snd].
    repeat split. exact Hd.
Qed.

Lemma retry_run_counts ty : forall es c k,
  Forall (fun e => type_name e = ty) es ->
  ctx_done c = false ->
  default 0 (recoveryHistory (errorRecovery c) !! ty) = k ->
  0 <= k -> k + Z.of_nat (length es) <= MaxInt64 ->
  snd (retry_run es c)
  = map (fun i => k + Z.of_nat i <? maxRetries (errorRecovery c))
        (seq 0 (length es)).
Proof.
  induction es as [|e es IH]; intros c k Hty Hd Hk Hk0 Hn; [reflexivity|].
  inversion Hty as [|? ? He Hes]; subst.
  destruct (retryOperation_counts e c Hd) as (A1 & A2 & A3 & A4).
  cbn [retry_run]. destruct (retryOperation None e c) as [c1 ok].
  cbn [fst snd length] in *.
  assert (IH' := IH c1 (default 0 (recoveryHistory (errorRecovery c) !! type_name e) + 1)
                   Hes A2).
  destruct (retry_run es c1) as [c2 oks]. cbn [snd] in *.
  rewrite IH'.
  - cbn [seq map]. rewrite A1, A3, Z.add_0_r. f_equal.
    rewrite <- seq_shift, map_map. apply map_ext. intros i. f_equal. lia.
  - rewrite A4, lookup_insert_eq. cbn [default]. apply wrap64_id.
    unfold in_int64, MinInt64, MaxInt64 in *. lia.
  - lia.
  - lia.
Qed.

(** X17.  The budget of the retry recovery.  [retryOperation] keeps one
    count per Go type of error and never lowers it on a success: from a
    history with no entry for the type, the first [maxRetries] calls for
    errors of that type wait and return nil, and every later call fails
    at once, however different the errors are otherwise (every
    [*ConnectionError] draws on the same budget). *)
Theorem retry_budget_is_per_error_type
    (es : list error) (c : WebSocketClient) (ty : string) :
  Forall (fun e => type_name e = ty) es ->
  ctx_done c = false ->
  recoveryHistory (errorRecovery c) !! ty = None ->
  Z.of_nat (length es) <= MaxInt64 ->
  snd (retry_run es c)
  = map (fun i => Z.of_nat i <? maxRetries (errorRecovery c)) (seq 0 (length es)).
Proof.
  intros Hty Hd Hh Hn.
  rewrite (retry_run_counts ty es c 0 Hty Hd); try lia.
  - apply map_ext. intros i. reflexivity.
  - rewrite Hh. reflexivity.
Qed.

(** ** A connection renews the retry budget *)

Lemma ReadMessages_loop_frame reads : forall c,
  let c' := ReadMessages_loop reads c in
  config c' = config c /\ conn c' = conn c /\ ctx_done c' = ctx_done c
  /\ RetryCount c' = RetryCount c
  /\ dials (trace c') = dials (trace c)
  /\ retry_waits (trace c') = retry_waits (trace c).
Proof.
  induction reads as [|i rest IH]; intros c; cbv zeta.
  - cbn [ReadMessages_loop]. destruct (negb _); repeat split.
  - destruct (shouldContinueReading c) eqn:Hc.
    2:{ rewrite ReadMessages_loop_stopped by exact Hc. repeat split. }
    apply shouldContinueReading_live in Hc as (Hd & Hs & k & Hk).
    rewrite (ReadMessages_loop_step i rest c k Hk Hs Hd). cbv zeta.
    set (c1 := emit_all _ c).
    assert (H1 : config c1 = config c /\ conn c1 = conn c
                 /\ ctx_done c1 = ctx_done c /\ RetryCount c1 = RetryCount c
                 /\ dials (trace c1) = dials (trace c)
                 /\ retry_waits (trace c1) = retry_waits (trace c)).
    { subst c1. rewrite emit_all_eq. fields. unfold pong_writes.
      rewrite dials_app, retry_waits_app.
      induction (fst (pings_answered (controls i))) as [|a l IHl];
        [cbn; rewrite app_nil_r, Nat.add_0_r; repeat split|].
      destruct IHl as (_ & _ & _ & _ & D1 & D2).
      repeat split.
      - cbn [map]. change (dials (Wrote k PongMessage a :: ?x)) with (dials x).
        exact D1.
      - cbn [map].
        change (retry_waits (Wrote k PongMessage a :: ?x)) with (retry_waits x).
        exact D2. }
    destruct H1 as (A1 & A2 & A3 & A4 & A5 & A6).
    destruct (snd _); [|unfold handleReadError; fields; repeat split; assumption].
    destruct (delivered i) as [[t m]|];
      [|unfold handleReadError; fields; repeat split; assumption].
    cbn [fst snd].
    destruct (processReceivedMessage_frame (messageType_of t) m c1)
      as (B1 & B2 & B3 & _ & B5 & _ & B7 & _ & B9).
    specialize (IH (processReceivedMessage (messageType_of t) m c1)).
    cbv zeta in IH. destruct IH as (I1 & I2 & I3 & I4 & I5 & I6).
    repeat split; congruence.
Qed.

Lemma ReadMessages_frame reads c :
  let c' := ReadMessages reads c in
  config c' = config c /\ conn c' = None /\ ctx_done c' = ctx_done c
  /\ RetryCount c' = RetryCount c
  /\ dials (trace c') = dials (trace c)
  /\ retry_waits (trace c') = retry_waits (trace c).
Proof.
  cbv zeta.
  destruct (ReadMessages_loop_frame reads c) as (I1 & I2 & I3 & I4 & I5 & I6).
  unfold ReadMessages. fields.
  destruct (conn (ReadMessages_loop reads c)) as [k|] eqn:E; fields;
    trace_simpl; repeat split; congruence.
Qed.

(** X19.  A connection renews the retry budget.  However close to the
    limit the attempt counter stands, one successful dial sets it to 0;
    when the session that follows has ended, a run of failing dials gets
    the whole schedule again: [2N] dials, [N] waits of zero and [N - 1]
    waits of [D], then the give-up. *)
Theorem success_renews_the_retry_budget
    (c : WebSocketClient) (k : Conn) (reads : list incoming)
    (e : error) (n : nat) :
  0 < ClientConfig.MaxRetries (config c) ->
  2 * ClientConfig.MaxRetries (config c) <= MaxInt32 ->
  ctx_done c = false ->
  (Z.to_nat (2 * ClientConfig.MaxRetries (config c)) <= n)%nat ->
  let N := ClientConfig.MaxRetries (config c) in
  let D := ClientConfig.RetryDelay (config c) in
  let c' := Start_loop (mkTurn (DialOk k) reads :: always_failing e n) c in
  dials (trace c') = (dials (trace c) + 1 + Z.to_nat (2 * N))%nat
  /\ retry_waits (trace c')
     = (retry_waits (trace c)
        ++ repeat 0 (Z.to_nat N) ++ repeat D (Z.to_nat N - 1))%list
  /\ RetryCount c' = 2 * N
  /\ State c' = StateDisconnected
  /\ conn c' = None.
Proof.
  intros Hpos Hmax Hd Hn. cbv zeta.
  set (N := ClientConfig.MaxRetries (config c)) in *.
  cbn [Start_loop outcome received]. rewrite Hd.
  unfold attemptConnection, Connect. cbn [negb].
  set (c1 := with_RetryCount 0
               (setupConnection k (emit Dialed (setState StateConnecting c)))).
  assert (H1 : config c1 = config c /\ ctx_done c1 = false /\ RetryCount c1 = 0
               /\ dials (trace c1) = S (dials (trace c))
               /\ retry_waits (trace c1) = retry_waits (trace c)).
  { subst c1. unfold setupConnection, Disconnect. fields.
    destruct (conn c); fields; trace_simpl; repeat split; try assumption; lia. }
  destruct H1 as (A1 & A2 & A3 & A4 & A5).
  unfold handleConnectedSession.
  destruct (ReadMessages_frame reads c1) as (B1 & B2 & B3 & B4 & B5 & B7).
  rewrite B3, A2. cbn [negb].
  assert (I := Start_loop_all_failing N Hpos Hmax e (Z.to_nat (2 * N)) n
                 (ReadMessages reads c1)).
  cbv zeta in I.
  destruct I as (I1 & I2 & I3 & I4 & I5 & I6 & _ & I8);
    [rewrite B1, A1; reflexivity | congruence | exact B2 | lia
    | rewrite B4, A3; lia | rewrite B4, A3; lia | lia |].
  rewrite I1, I5, I6, I8, B1, A1, B5, B7, A4, A5.
  rewrite (waits_left_fast N Hpos) by lia.
  replace (Z.to_nat (2 * N) - Z.to_nat N)%nat with (Z.to_nat N) by lia.
  repeat split; try assumption; lia.
Qed.

(** ** The hexadecimal rendering of the message log *)

Lemma writeHexByte_reads_back b rest :
  readHexBytes (writeHexByte b ++ rest) = option_map (String b) (readHexBytes rest)
  /\ String.length (writeHexByte b ++ rest)
     = ((if (nat_of_ascii b <? 16)%nat then 3 else 2) + String.length rest)%nat.
Proof.
  destruct b as [[|] [|] [|] [|] [|] [|] [|] [|]]; split; reflexivity.
Qed.

Example writeHexBytes_small_bytes :
  writeHexBytes (String (ascii_of_nat 5) (String (ascii_of_nat 171) "")) = "005ab".
Proof. reflexivity. Qed.

(** X18.  The hexadecimal rendering of a binary message in the log.
    [writeHexBytes] writes the two hexadecimal digits of every byte and,
    before them, one more "0" for a byte below 16, which so takes three
    characters ("005" for the byte 5).  The text can still be read back
    without ambiguity: a byte that starts with "0" is one of three
    digits. *)
Theorem writeHexBytes_reads_back (data : string) :
  readHexBytes (writeHexBytes data) = Some data
  /\ String.length (writeHexBytes data)
     = (2 * String.length data + bytes_below_16 data)%nat.
Proof.
  induction data as [|b rest [IH1 IH2]]; [split; reflexivity|].
  cbn [writeHexBytes bytes_below_16 String.length].
  destruct (writeHexByte_reads_back b (writeHexBytes rest)) as [H1 H2].
  rewrite H1, H2, IH1, IH2. split; [reflexivity|].
  destruct (nat_of_ascii b <? 16)%nat; lia.
Qed.

(** ** The waits of the recovery *)

Lemma recovery_waits_app a b :
  recovery_waits (a ++ b) = (recovery_waits a ++ recovery_waits b)%list.
Proof. apply omap_app. Qed.

Lemma Recover_waits budget e c :
  CanRecover (Some e) = true -> ctx_done c = false ->
  (forall t d, budget = Some t -> In d (recovery_wait (errorRecovery c) e) -> d <= t) ->
  recovery_waits (trace (fst (Recover budget e c)))
  = (recovery_waits (trace c) ++ recovery_wait (errorRecovery c) e)%list
  /\ ctx_done (fst (Recover budget e c)) = false
  /\ AutoRecovery (fst (Recover budget e c)) = AutoRecovery c
  /\ retryDelay (errorRecovery (fst (Recover budget e c)))
     = match GetRecoveryStrategy (Some e) with
       | RecoveryFallback => Z.min (wrap64 (retryDelay (errorRecovery c) * 2)) (30 * second)
       | _ => retryDelay (errorRecovery c)
       end.
Proof.
  intros Hcan Hd Hb. unfold Recover. rewrite Hcan. cbn [negb].
  assert (Ht : forall d, In d (recovery_wait (errorRecovery c) e) ->
               timer_elapses false budget d = true).
  { intros d Hd'. unfold timer_elapses. cbn [negb andb].
    destruct budget as [t|]; [|reflexivity].
    apply Z.leb_le. apply (Hb t d eq_refl Hd'). }
  revert Ht. clear Hb. unfold recovery_wait.
  destruct (GetRecoveryStrategy (Some e)); cbn [fst]; intros Ht.
  - rewrite app_nil_r. auto.
  - unfold retryOperation. rewrite Z.ltb_antisym in *.
    destruct (maxRetries (errorRecovery c) <=? _); cbn [negb fst] in *.
    + fields. rewrite app_nil_r. auto.
    + fields. rewrite Hd, Ht by (left; reflexivity). cbn [fst]. unfold sleep. fields.
      rewrite recovery_waits_app. auto.
  - unfold reconnectOperation. rewrite Hd, Ht by (left; reflexivity). cbn [fst].
    unfold sleep. fields. rewrite recovery_waits_app. auto.
  - unfold resetOperation. fields. rewrite Hd, Ht by (left; reflexivity). cbn [fst].
    unfold sleep. fields. rewrite recovery_waits_app. auto.
  - unfold fallbackOperation. cbn [fst]. fields. rewrite app_nil_r. auto.
Qed.

Lemma CanRecover_retryable code op url inner :
  CanRecover (Some (EConn code op url inner true)) = true.
Proof.
  unfold CanRecover.
  repeat match goal with
         | |- context [if ?b then _ else _] => destruct b; try reflexivity
         end.
Qed.

(** X20.  A failed write holds the sender.  When the transport refuses
    the frame that [SendMessage] hands to it, the call does not return
    its error before the recovery has run (auto-recovery being on and
    the client not cancelled): it waits the recovery delay for the
    strategies Reconnect and Retry (for Retry, while the budget of the
    error type lasts) and one second for Reset, inside the call. *)
Theorem failed_write_holds_the_sender
    (tr : transport) (messageType : Z) (data : string) (c : WebSocketClient)
    (e : error) :
  written (trace (fst (SendMessage tr messageType data c))) <> written (trace c) ->
  write_err tr = Some e ->
  AutoRecovery c = true ->
  ctx_done c = false ->
  let sendErr := EConn (inferErrorCode (Some e)) "send"
                   (ClientConfig.URL (config c)) (Some e) true in
  snd (SendMessage tr messageType data c) = Some sendErr
  /\ recovery_waits (trace (fst (SendMessage tr messageType data c)))
     = (recovery_waits (trace c) ++ recovery_wait (errorRecovery c) sendErr)%list.
Proof.
  intros Hw He Ha Hd. cbv zeta.
  destruct (SendMessage_effect tr messageType data c)
    as [[_ H] | (k & H1 & H2 & H3 & H4 & H5 & H6 & H7 & _ & H9)];
    [contradiction|].
  rewrite H9, He. cbn [option_map]. split; [reflexivity|].
  unfold SendMessage.
  destruct (Allow (clock c) (rateLimiter c)) as [rl allowed].
  cbn [snd] in H3. subst allowed. cbn [negb]. fields.
  destruct (CheckMessage (clock c) (securityChecker c) messageType data)
    as [sc secErr].
  cbn [snd] in H4. subst secErr.
  unfold getConnSafely. fields. rewrite H1, H2.
  change (ConnectionState_eqb StateConnected StateConnected) with true.
  rewrite H5.
  replace (ClientConfig.MaxMessageSize (config c) <? len data) with false
    by (symmetry; apply Z.ltb_ge; exact H6).
  rewrite H7, He. cbn [fst].
  unfold handleErrorWithRecovery.
  change (AutoRecovery (recordError _ _)) with (AutoRecovery c).
  rewrite Ha, CanRecover_retryable. cbn [andb].
  match goal with
  | |- context [Recover None ?x ?c1] =>
      destruct (Recover_waits None x c1) as (R & _)
  end.
  - apply CanRecover_retryable.
  - exact Hd.
  - intros t d Ht. discriminate.
  - rewrite R. unfold recordError. fields. rewrite recovery_waits_app.
    change (recovery_waits [Wrote k messageType data]) with (@nil Z).
    rewrite app_nil_r. reflexivity.
Qed.

(** ** The recovery waits of the supervisor *)

Lemma trace_grows_dials c c' : handle_safe c c' -> (dials (trace c) <= dials (trace c'))%nat.
Proof. intros (s & -> & _). rewrite dials_app. lia. Qed.

Lemma Connect_failed_recovers e c :
  isNetworkError (Some e) = true -> AutoRecovery c = true -> ctx_done c = false ->
  retryDelay (errorRecovery c) <= ClientConfig.HandshakeTimeout (config c) ->
  let c' := fst (Connect (DialFailed e) c) in
  recovery_waits (trace c')
  = (recovery_waits (trace c) ++ [retryDelay (errorRecovery c)])%list
  /\ AutoRecovery c' = true
  /\ retryDelay (errorRecovery c') = retryDelay (errorRecovery c).
Proof.
  intros Hnet Ha Hd Hle. cbv zeta.
  assert (Hcan : CanRecover (Some e) = true)
    by (unfold CanRecover; rewrite Hnet; reflexivity).
  assert (Hst : GetRecoveryStrategy (Some e) = RecoveryReconnect)
    by (unfold GetRecoveryStrategy; rewrite Hnet; reflexivity).
  unfold Connect, handleConnectionError, attemptErrorRecovery. cbn [fst].
  change (AutoRecovery (recordError _ _)) with (AutoRecovery c).
  rewrite Ha, Hcan. cbn [andb].
  match goal with
  | |- context [Recover ?b e ?c1] =>
      destruct (Recover_waits b e c1 Hcan) as (R1 & _ & R3 & R4)
  end.
  - exact Hd.
  - intros t d Ht Hin. injection Ht as <-. unfold recovery_wait in Hin.
    rewrite Hst in Hin. destruct Hin as [<- | []]. exact Hle.
  - rewrite R1, R3, R4, Hst. unfold recovery_wait. rewrite Hst.
    unfold recordError. fields. rewrite recovery_waits_app.
    change (recovery_waits [Dialed]) with (@nil Z). rewrite app_nil_r.
    auto.
Qed.

Lemma attemptConnection_failed_recovers e c :
  isNetworkError (Some e) = true -> AutoRecovery c = true -> ctx_done c = false ->
  retryDelay (errorRecovery c) <= ClientConfig.HandshakeTimeout (config c) ->
  let r := attemptConnection (DialFailed e) c in
  recovery_waits (trace (fst r))
  = (recovery_waits (trace c) ++ [retryDelay (errorRecovery c)])%list
  /\ AutoRecovery (fst r) = true
  /\ retryDelay (errorRecovery (fst r)) = retryDelay (errorRecovery c)
  /\ config (fst r) = config c
  /\ conn (fst r) = conn c
  /\ ctx_done (fst r) = false
  /\ dials (trace (fst r)) = S (dials (trace c)).
Proof.
  intros Hnet Ha Hd Hle. cbv zeta.
  destruct (Connect_failed_recovers e c Hnet Ha Hd Hle) as (R1 & R2 & R3).
  unfold attemptConnection.
  destruct (Connect_failed e c)
    as (c' & err & E & H1 & H2 & H3 & _ & _ & _ & _ & H8 & _).
  rewrite E in *. cbn [fst] in *.
  destruct (shouldStopRetrying _); cbn [fst].
  - fields. repeat split; congruence.
  - unfold waitForRetry. destruct (timer_elapses _ _ _); cbn [fst].
    + unfold sleep. fields. rewrite recovery_waits_app, dials_app.
      change (recovery_waits [Slept RetryWait _]) with (@nil Z).
      change (dials [Slept RetryWait _]) with 0%nat.
      rewrite app_nil_r, Nat.add_0_r. repeat split; congruence.
    + fields. repeat split; congruence.
Qed.

Lemma Start_loop_failing_recovers (e : error) (D : Z) : forall n c,
  isNetworkError (Some e) = true -> AutoRecovery c = true -> ctx_done c = false ->
  conn c = None -> retryDelay (errorRecovery c) = D ->
  D <= ClientConfig.HandshakeTimeout (config c) ->
  let c' := Start_loop (always_failing e n) c in
  recovery_waits (trace c')
  = (recovery_waits (trace c)
     ++ repeat D (dials (trace c') - dials (trace c)))%list.
Proof.
  induction n as [|n IH]; intros c Hnet Ha Hd Hc HD Hle; cbv zeta.
  - cbn [always_failing repeat Start_loop]. rewrite Nat.sub_diag, app_nil_r.
    reflexivity.
  - cbn [always_failing repeat Start_loop outcome received]. rewrite Hd.
    destruct (attemptConnection_failed_recovers e c Hnet Ha Hd ltac:(lia))
      as (A1 & A2 & A3 & A4 & A5 & A6 & A7).
    destruct (attemptConnection (DialFailed e) c) as [c1 go]. cbn [fst] in *.
    destruct go; cbn [negb].
    + unfold handleConnectedSession.
      rewrite ReadMessages_without_conn by congruence.
      fields. rewrite A6. cbn [negb].
      change (Start_loop (repeat {| outcome := DialFailed e; received := [] |} n))
        with (Start_loop (always_failing e n)).
      assert (IH' := IH (setState StateDisconnected c1) Hnet).
      cbv zeta in IH'. fields.
      rewrite IH' by congruence.
      pose proof (trace_grows_dials _ _
                    (Start_loop_handle_safe (always_failing e n)
                       (setState StateDisconnected c1))) as Hg.
      fields. rewrite A1, A7, HD, <- app_assoc. f_equal.
      replace (dials (trace (Start_loop (always_failing e n)
                               (setState StateDisconnected c1)))
               - dials (trace c))%nat
        with (S (dials (trace (Start_loop (always_failing e n)
                                 (setState StateDisconnected c1)))
                 - S (dials (trace c))))%nat
        by (rewrite A7 in Hg; lia).
      reflexivity.
    + rewrite A1, A7, HD.
      replace (S (dials (trace c)) - dials (trace c))%nat with 1%nat by lia.
      reflexivity.
Qed.

(** X21.  Every failed dial waits for the recovery.  With auto-recovery
    on, as [NewWebSocketClient] sets it, a dial that fails with a
    network error is followed, inside [Connect], by the Reconnect
    recovery, which waits the retry delay [D] (the handshake timeout
    being longer): in a run of failing dials there are as many
    recovery waits of [D] as dials, whatever the retry policy then
    adds, so that the attempts of its fast phase are [D] apart as
    well. *)
Theorem every_failed_dial_waits_for_recovery
    (cfg : ClientConfig.t) (now : Z) (e : error) (n : nat) :
  isNetworkError (Some e) = true ->
  ClientConfig.RetryDelay cfg < ClientConfig.HandshakeTimeout cfg ->
  let c := Start_loop (always_failing e n) (NewWebSocketClient cfg now) in
  recovery_waits (trace c) = repeat (ClientConfig.RetryDelay cfg) (dials (trace c)).
Proof.
  intros Hnet Hle. cbv zeta.
  rewrite (Start_loop_failing_recovers e (ClientConfig.RetryDelay cfg) n
             (NewWebSocketClient cfg now) Hnet);
    try reflexivity; try (cbn [NewWebSocketClient config]; lia).
  cbn [NewWebSocketClient trace]. change (dials []) with 0%nat.
  rewrite Nat.sub_0_r. reflexivity.
Qed.

(** ** The content of a log line *)

Lemma append_length (s t : string) :
  String.length (s ++ t) = (String.length s + String.length t)%nat.
Proof.
  induction s as [|a s IH]; [reflexivity|].
  rewrite append_String. cbn [String.length]. rewrite IH. reflexivity.
Qed.

Lemma substring_0_length m : forall s,
  String.length (substring 0 m s) = Nat.min m (String.length s).
Proof.
  induction m as [|m IH]; intros s; destruct s as [|a s]; try reflexivity.
  cbn [substring String.length]. rewrite IH. reflexivity.
Qed.

Lemma writeHexBytes_length data :
  (String.length (writeHexBytes data) <= 3 * String.length data)%nat.
Proof.
  induction data as [|b rest IH]; [cbn; lia|].
  cbn [writeHexBytes String.length].
  destruct (writeHexByte_reads_back b (writeHexBytes rest)) as [_ ->].
  destruct (nat_of_ascii b <? 16)%nat; lia.
Qed.

Lemma WriteInt_digits_length room : forall i acc,
  (String.length (WriteInt_digits room i acc) <= room + String.length acc)%nat.
Proof.
  induction room as [|room IH]; intros i acc; [cbn; lia|].
  cbn [WriteInt_digits]. destruct (0 <? i); [|lia].
  etransitivity; [apply IH|]. cbn [String.length]. lia.
Qed.

Lemma WriteInt_length i : (String.length (WriteInt i) <= 21)%nat.
Proof.
  unfold WriteInt. destruct (i =? 0); [cbn; lia|].
  destruct (i <? 0).
  - rewrite append_length.
    pose proof (WriteInt_digits_length 20 (wrap64 (- i)) "") as H.
    cbn [String.length] in *. lia.
  - pose proof (WriteInt_digits_length 20 i "") as H.
    cbn [String.length] in *. lia.
Qed.

(** X25.  The content of a log line is bounded.  Whatever the size of a
    message, the content that [logMessage] writes for it is at most 514
    bytes long.  A text (or any message that is not binary) of up to 500
    bytes is written as it is, a longer one as its first 500 bytes and
    the mark "...(truncated)"; a binary message is written in
    hexadecimal up to 32 bytes, and as its length and the first 16
    bytes beyond. *)
Theorem log_content_is_bounded (messageType : Z) (data : string) :
  (String.length (buildMessageContent messageType data) <= 514)%nat
  /\ (messageType <> BinaryMessage -> len data <= 500 ->
      buildMessageContent messageType data = data)
  /\ (messageType <> BinaryMessage -> 500 < len data ->
      buildMessageContent messageType data
      = substring 0 500 data ++ "...(truncated)")
  /\ (messageType = BinaryMessage -> len data <= 32 ->
      buildMessageContent messageType data = "HEX: " ++ writeHexBytes data).
Proof.
  unfold buildMessageContent, buildTextContent, buildBinaryContent, len.
  destruct (messageType =? BinaryMessage) eqn:E;
    [apply Z.eqb_eq in E | apply Z.eqb_neq in E].
  - split; [|split; [|split]]; try contradiction.
    + destruct (Z.of_nat (String.length data) <=? 32) eqn:El.
      * apply Z.leb_le in El. rewrite append_length.
        pose proof (writeHexBytes_length data). cbn [String.length]. lia.
      * rewrite !append_length.
        pose proof (WriteInt_length (Z.of_nat (String.length data))).
        pose proof (writeHexBytes_length (substring 0 16 data)) as H16.
        rewrite substring_0_length in H16. cbn [String.length]. lia.
    + intros _ Hl.
      replace (Z.of_nat (String.length data) <=? 32) with true
        by (symmetry; apply Z.leb_le; exact Hl).
      reflexivity.
  - split; [|split; [|split]]; try contradiction.
    + destruct (Z.of_nat (String.length data) <=? 500) eqn:El.
      * apply Z.leb_le in El. lia.
      * rewrite append_length, substring_0_length. cbn [String.length]. lia.
    + intros _ Hl.
      replace (Z.of_nat (String.length data) <=? 500) with true
        by (symmetry; apply Z.leb_le; exact Hl).
      reflexivity.
    + intros _ Hl.
      replace (Z.of_nat (String.length data) <=? 500) with false
        by (symmetry; apply Z.leb_gt; exact Hl).
      reflexivity.
Qed.

Lemma log_content_is_bounded_witness :
  TextMessage <> BinaryMessage /\ 500 < len long_text
  /\ buildMessageContent TextMessage long_text
     = substring 0 500 long_text ++ "...(truncated)"
  /\ (String.length (buildMessageContent TextMessage long_text) <= 514)%nat.
Proof.
  assert (Ht : TextMessage <> BinaryMessage) by (vm_compute; discriminate).
  assert (Hl : 500 < len long_text) by (vm_compute; reflexivity).
  destruct (log_content_is_bounded TextMessage long_text) as (B & _ & T & _).
  split; [exact Ht|]. split; [exact Hl|]. split; [exact (T Ht Hl) | exact B].
Defined.

(** ** The bookkeeping of a failed dial *)

(** The recovery operations leave in the trace the waits they take and
    nothing else. *)
Lemma Recover_sleeps budget e c :
  exists ws, trace (fst (Recover budget e c))
             = (trace c ++ map (Slept RecoveryWait) ws)%list.
Proof.
  assert (H0 : exists ws, trace c = (trace c ++ map (Slept RecoveryWait) ws)%list)
    by (exists []; rewrite app_nil_r; reflexivity).
  assert (H1 : forall d c0, trace c0 = trace c ->
               exists ws, trace (sleep RecoveryWait d c0)
                          = (trace c ++ map (Slept RecoveryWait) ws)%list).
  { intros d c0 E. exists [d]. unfold sleep. fields. rewrite E. reflexivity. }
  unfold Recover.
  destruct (negb (CanRecover (Some e))); [exact H0|].
  destruct (GetRecoveryStrategy (Some e)); cbn [fst].
  - exact H0.
  - unfold retryOperation.
    destruct (_ <=? _); [exact H0|].
    destruct (timer_elapses _ _ _); cbn [fst]; [apply H1; reflexivity | exact H0].
  - unfold reconnectOperation.
    destruct (timer_elapses _ _ _); cbn [fst]; [apply H1; reflexivity | exact H0].
  - unfold resetOperation.
    destruct (timer_elapses _ _ _); cbn [fst]; [apply H1; reflexivity | exact H0].
  - unfold fallbackOperation. exact H0.
Qed.

(** X26.  The bookkeeping of a failed dial.  A [Connect] whose dial
    fails returns a retryable [*ConnectionError] of operation "connect"
    that wraps the cause under the code inferred from its text; the
    state is Disconnected and the handle held before, if any, is neither
    closed nor replaced: the trace gains the dial and the waits of the
    recovery, no write and no close.  The cause itself, not the error
    returned, is entered in the error book, once. *)
Theorem Connect_books_the_cause (e : error) (c : WebSocketClient) :
  let r := Connect (DialFailed e) c in
  snd r = Some (EConn (inferErrorCode (Some e)) "connect"
                  (ClientConfig.URL (config c)) (Some e) true)
  /\ State (fst r) = StateDisconnected
  /\ conn (fst r) = conn c
  /\ (exists ws, trace (fst r)
                 = (trace c ++ Dialed :: map (Slept RecoveryWait) ws)%list)
  /\ (forall k, In (Closed k) (trace (fst r)) -> In (Closed k) (trace c))
  /\ written (trace (fst r)) = written (trace c)
  /\ dials (trace (fst r)) = S (dials (trace c))
  /\ TotalErrors (Errors (Stats (fst r)))
     = wrap64 (TotalErrors (Errors (Stats c)) + 1)
  /\ LastError (Errors (Stats (fst r))) = Some e
  /\ errors_by_code (kind e) (fst r) = wrap64 (errors_by_code (kind e) c + 1).
Proof.
  cbv zeta. unfold Connect, handleConnectionError. cbn [fst snd].
  set (c2 := recordError (Some e)
               (setState StateDisconnected
                  (emit Dialed (setState StateConnecting c)))).
  destruct (attemptErrorRecovery_frame e c2)
    as (H1 & H2 & H3 & H4 & H5 & H6 & _ & _ & H8 & H9).
  destruct (recordError_books e
              (setState StateDisconnected (emit Dialed (setState StateConnecting c))))
    as (B1 & B2 & B3 & _).
  fold c2 in B1, B2, B3.
  assert (T : exists ws, trace (attemptErrorRecovery e c2)
                         = (trace c ++ Dialed :: map (Slept RecoveryWait) ws)%list).
  { unfold attemptErrorRecovery.
    destruct (AutoRecovery c2 && CanRecover (Some e)).
    - destruct (Recover_sleeps (Some (ClientConfig.HandshakeTimeout (config c2))) e c2)
        as (ws & E).
      exists ws. rewrite E. subst c2. unfold recordError. fields.
      rewrite <- app_assoc. reflexivity.
    - exists []. subst c2. unfold recordError. fields. reflexivity. }
  unfold errors_by_code in *. rewrite H1, H2, H4, H6, H8, H9.
  split; [reflexivity|]. split; [reflexivity|]. split; [reflexivity|].
  split; [exact T|].
  split.
  { intros k Hin. destruct T as (ws & E). rewrite E in Hin.
    apply in_app_or in Hin as [Hin|Hin]; [exact Hin|].
    destruct Hin as [Hin|Hin]; [discriminate|].
    apply in_map_iff in Hin as (d & Hd & _). discriminate. }
  split; [subst c2; unfold recordError; fields; trace_simpl; reflexivity|].
  split; [subst c2; unfold recordError; fields; trace_simpl; reflexivity|].
  split; [exact B1|]. split; [exact B2 | exact B3].
Qed.

End Properties.

(** * The scenarios

    The properties at concrete runs.  The libraries are those of the
    scenarios: the pool hands out new buffers, and the texts sent are
    within ASCII. *)

#[local] Existing Instance scenario_library.

(** ** Classifier and recovery selector *)

Example sendTimeoutErr_text :
  Error (sendTimeoutErr "ws://h" (ENew "use of closed connection"))
  = string_of_list_ascii (repeat Ascii.zero 128)
    ++ "[2003] 连接错误 [send] ws://h: 发送超时 - use of closed connection".
Proof. reflexivity. Qed.

Example GetRecoveryStrategy_sentinel :
  GetRecoveryStrategy (Some (ESentinel ErrWriteTimeout)) = RecoveryReset.
Proof. vm_compute. reflexivity. Qed.

(** The package values that do get Reset are not of a timeout kind: the
    error book files them under Unknown. *)
Example ErrWriteTimeout_kind :
  kind (ESentinel ErrWriteTimeout) = ErrCodeUnknownError
  /\ kind (ESentinel ErrReadTimeout) = ErrCodeUnknownError.
Proof. vm_compute. split; reflexivity. Qed.

Example GetRecoveryStrategy_send_timeout :
  GetRecoveryStrategy (Some (sendTimeoutErr "ws://h" (ENew "use of closed connection")))
  = RecoveryRetry.
Proof. vm_compute. reflexivity. Qed.

(** C2, as the specification states it, fails: the send-timeout failure that
    [SendMessage] builds, and a receive-timeout failure, are of the
    timeout kinds, and the selector answers Retry for both, not Reset. *)
Lemma timeout_kind_is_not_reset :
  kind send_timeout_example = ErrCodeSendTimeout
  /\ kind receive_timeout_example = ErrCodeReceiveTimeout
  /\ GetRecoveryStrategy (Some send_timeout_example) = RecoveryRetry
  /\ GetRecoveryStrategy (Some receive_timeout_example) = RecoveryRetry
  /\ GetRecoveryStrategy (Some send_timeout_example) <> RecoveryReset
  /\ GetRecoveryStrategy (Some receive_timeout_example) <> RecoveryReset.
Proof. vm_compute. repeat split; discriminate. Qed.

Lemma timeout_kind_strategy_witness :
  (kind send_timeout_example = ErrCodeSendTimeout
   \/ kind send_timeout_example = ErrCodeReceiveTimeout)
  /\ GetRecoveryStrategy (Some send_timeout_example) = RecoveryRetry.
Proof.
  split; [left; reflexivity|].
  rewrite (timeout_kind_strategy send_timeout_example (or_introl eq_refl)).
  reflexivity.
Defined.

(** ** The size limit of a send *)

(** C3, as the specification states it, fails: with a limit of 10 bytes, an
    11-byte text sent over a live session is refused by the security
    check, which comes first: the failure is of kind SecurityViolation
    (6001), not MessageTooLarge (2001), and the tally of 2001 stays 0. *)
Lemma oversized_send_is_not_MessageTooLarge :
  State session_limit_10 = StateConnected
  /\ len "hello world" = ClientConfig.MaxMessageSize (config session_limit_10) + 1
  /\ option_map kind (snd (SendMessage transport_ok TextMessage "hello world" session_limit_10))
     = Some ErrCodeSecurityViolation
  /\ option_map kind (snd (SendMessage transport_ok TextMessage "hello world" session_limit_10))
     <> Some ErrCodeMessageTooLarge
  /\ errors_by_code ErrCodeMessageTooLarge
       (fst (SendMessage transport_ok TextMessage "hello world" session_limit_10)) = 0
  /\ errors_by_code ErrCodeSecurityViolation
       (fst (SendMessage transport_ok TextMessage "hello world" session_limit_10)) = 1.
Proof. vm_compute. repeat split; discriminate. Qed.

Lemma send_size_boundary_witness :
  connected_with_limit session_limit_10 1%nat 10
  /\ Forall (fun p => Contains (ToLower "0123456789") p = false)
       (blockedPatterns (securityChecker session_limit_10))
  /\ snd (SendMessage transport_ok TextMessage "0123456789" session_limit_10) = None
  /\ option_map kind
       (snd (SendMessage transport_ok TextMessage "hello world" session_limit_10))
     = Some ErrCodeSecurityViolation.
Proof.
  assert (H : connected_with_limit session_limit_10 1%nat 10)
    by (vm_compute; repeat split).
  assert (Hclean : Forall (fun p => Contains (ToLower "0123456789") p = false)
                     (blockedPatterns (securityChecker session_limit_10)))
    by (repeat constructor).
  split; [exact H|]. split; [exact Hclean|].
  destruct (send_size_boundary session_limit_10 1%nat 10 TextMessage
              "0123456789" "hello world" H) as [[Ha _] Hb].
  - vm_compute. reflexivity.
  - left. reflexivity.
  - intros _. exact Hclean.
  - vm_compute. reflexivity.
  - vm_compute. reflexivity.
  - split; [exact Ha | exact (proj1 (Hb transport_ok))].
Defined.

(** ** The schedule of the retry policy *)

Lemma retry_schedule_witness :
  retry_waits (trace exhausted_run) = [0; 0; DefaultRetryDelay]
  /\ dials (trace exhausted_run) = 4%nat.
Proof.
  destruct (retry_schedule (config_retries 2) 0 dial_timeout 5) as (H1 & H2 & _).
  - reflexivity.
  - vm_compute. discriminate.
  - vm_compute. lia.
  - split; [exact H1 | exact H2].
Defined.

(** C1, at an input where the code departs from the specification:
    with [max_retries = 2] and every dial failing, the supervisor dials
    four times and the waits of the retry policy between the dials are
    0, 0 and D, where the specification has two slow attempts each
    preceded by D (the third dial, like the first two, is preceded by no
    policy wait); with [max_retries = 1] it gives up after two dials and
    one wait of 0, with no slow attempt at all.  At the counter value
    [2N] the policy answers give-up where the specification has a wait
    of D. *)
Theorem slow_phase_one_wait_short :
  retry_waits (trace exhausted_run) = [0; 0; DefaultRetryDelay]
  /\ dials (trace exhausted_run) = 4%nat
  /\ RetryCount exhausted_run = 4
  /\ retry_waits (trace exhausted_run_1) = [0]
  /\ dials (trace exhausted_run_1) = 2%nat
  /\ RetryCount exhausted_run_1 = 2
  /\ shouldStopRetrying exhausted_run = true
  /\ calculateRetryDelay exhausted_run = DefaultRetryDelay.
Proof. vm_compute. repeat split. Qed.

(** ** Giving up *)



(** ** Counters, stopping, handles *)

Lemma counters_never_decrease_witness :
  fits session_limit_10 (weight send_hello)
  /\ counters_le session_limit_10 (apply send_hello session_limit_10)
  /\ read bytes_sent (apply send_hello session_limit_10) = 5.
Proof.
  assert (H : fits session_limit_10 (weight send_hello)).
  { intros k. destruct k; vm_compute; split; discriminate. }
  split; [exact H|]. split.
  - exact (counters_never_decrease send_hello session_limit_10 H).
  - vm_compute. reflexivity.
Defined.

(** C4, at an input where the code departs from the specification:
    [Stop] on a live session stores Disconnected, not Stopped, so that
    [/health] still answers 200 after the stop; and the state is not
    terminal, a direct [Connect] after the stop stores Connected again. *)
Theorem stop_stores_Disconnected :
  State session_limit_10 = StateConnected
  /\ State (Stop session_limit_10) = StateDisconnected
  /\ State (Stop session_limit_10) <> StateStopped
  /\ status (handleHealth (Stop session_limit_10)) = StatusOK
  /\ State (fst (Connect (DialOk 2%nat) (Stop session_limit_10))) = StateConnected.
Proof. vm_compute. repeat split; discriminate. Qed.

Lemma no_handle_is_dropped_unclosed_witness :
  conn session_limit_10 = Some 1%nat
  /\ exists s, trace (run_ops after_stop_ops session_limit_10)
               = (trace session_limit_10 ++ s)%list
               /\ (conn (run_ops after_stop_ops session_limit_10) = Some 1%nat
                   \/ In (Closed 1%nat) s).
Proof.
  split; [reflexivity|].
  apply (no_handle_is_dropped_unclosed after_stop_ops session_limit_10 1%nat).
  reflexivity.
Defined.

Lemma stopped_client_is_silent_witness :
  forallb (fun o => negb (dials_directly o)) after_stop_ops = true
  /\ written (trace (run_ops after_stop_ops (Stop session_limit_10)))
     = [(1%nat, CloseMessage, closeFrame)]
  /\ dials (trace (run_ops after_stop_ops (Stop session_limit_10))) = 1%nat.
Proof.
  split; [reflexivity|].
  destruct (stopped_client_is_silent session_limit_10 after_stop_ops eq_refl)
    as (H1 & H2 & H3 & _).
  split.
  - rewrite H2, H1. reflexivity.
  - rewrite H3. reflexivity.
Defined.

(** ** The reader, the retry policy, the security check *)

Lemma reader_counts_every_message_witness :
  fits session_limit_10 (reads_weight three_reads)
  /\ MessagesReceived (Stats (ReadMessages three_reads session_limit_10)) = 2
  /\ BytesReceived (Stats (ReadMessages three_reads session_limit_10)) = 15
  /\ TotalErrors (Errors (Stats (ReadMessages three_reads session_limit_10))) = 1
  /\ written (trace (ReadMessages three_reads session_limit_10))
     = [(1%nat, PongMessage, "p")].
Proof.
  assert (H : fits session_limit_10 (reads_weight three_reads)).
  { intros x. destruct x; vm_compute; split; discriminate. }
  split; [exact H|].
  destruct (reader_counts_every_message three_reads session_limit_10 1%nat
              eq_refl eq_refl eq_refl H) as (A & B & C & _ & _ & D & _).
  rewrite A, B, C, D. repeat split.
Defined.

Lemma unlimited_retry_schedule_witness :
  ClientConfig.MaxRetries (config_retries 0) = 0
  /\ retry_waits
       (trace (Start_loop (always_failing dial_timeout 7)
                 (NewWebSocketClient (config_retries 0) 0)))
     = [0; 0; 0; 0; 0; DefaultRetryDelay; DefaultRetryDelay]
  /\ dials
       (trace (Start_loop (always_failing dial_timeout 7)
                 (NewWebSocketClient (config_retries 0) 0)))
     = 7%nat.
Proof.
  split; [reflexivity|].
  destruct (unlimited_retry_schedule (config_retries 0) 0 dial_timeout 7 eq_refl)
    as (H1 & H2 & _).
  - vm_compute. discriminate.
  - split; [exact H2 | exact H1].
Defined.

Lemma CheckMessage_ignores_case_witness :
  is_ascii shouting_script = true
  /\ In (ToLower "<SCRIPT") (blockedPatterns (NewSecurityChecker MaxMessageSize))
  /\ Contains shouting_script "<SCRIPT" = true
  /\ snd (CheckMessage 7 (NewSecurityChecker MaxMessageSize) TextMessage shouting_script)
     <> None.
Proof.
  assert (H1 : is_ascii shouting_script = true) by reflexivity.
  assert (H2 : In (ToLower "<SCRIPT")
                 (blockedPatterns (NewSecurityChecker MaxMessageSize)))
    by (left; reflexivity).
  assert (H3 : Contains shouting_script "<SCRIPT" = true) by reflexivity.
  split; [exact H1|]. split; [exact H2|]. split; [exact H3|].
  apply (CheckMessage_ignores_case 7 (NewSecurityChecker MaxMessageSize)
           shouting_script "<SCRIPT" H1 H2 H3).
Defined.

(** ** Recovery *)

Lemma retry_budget_is_per_error_type_witness :
  Forall (fun e => type_name e = "*main.ConnectionError") four_send_failures
  /\ snd (retry_run four_send_failures (NewWebSocketClient (config_retries 2) 0))
     = [true; true; false; false].
Proof.
  assert (H : Forall (fun e => type_name e = "*main.ConnectionError")
                four_send_failures) by (repeat constructor).
  split; [exact H|].
  rewrite (retry_budget_is_per_error_type four_send_failures
             (NewWebSocketClient (config_retries 2) 0) "*main.ConnectionError" H);
    try reflexivity.
  vm_compute. discriminate.
Defined.

Lemma success_renews_the_retry_budget_witness :
  RetryCount before_give_up = 3
  /\ retry_waits
       (trace (Start_loop (mkTurn (DialOk 1%nat) [] :: always_failing dial_timeout 4)
                 before_give_up))
     = (retry_waits (trace before_give_up) ++ [0; 0; DefaultRetryDelay])%list.
Proof.
  split; [reflexivity|].
  destruct (success_renews_the_retry_budget before_give_up 1%nat [] dial_timeout 4)
    as (_ & H & _).
  - reflexivity.
  - vm_compute. discriminate.
  - reflexivity.
  - vm_compute. lia.
  - exact H.
Defined.

Lemma failed_write_holds_the_sender_witness :
  written (trace (fst (SendMessage transport_broken TextMessage "hello" session_limit_10)))
  <> written (trace session_limit_10)
  /\ recovery_waits
       (trace (fst (SendMessage transport_broken TextMessage "hello" session_limit_10)))
     = [DefaultRetryDelay].
Proof.
  assert (H : written (trace (fst (SendMessage transport_broken TextMessage "hello"
                                     session_limit_10)))
              <> written (trace session_limit_10))
    by (vm_compute; discriminate).
  split; [exact H|].
  destruct (failed_write_holds_the_sender transport_broken TextMessage "hello"
              session_limit_10 (EOp "write" "tcp" false (EErrno EPIPE))
              H eq_refl eq_refl eq_refl) as [_ R].
  rewrite R. reflexivity.
Defined.

Lemma every_failed_dial_waits_for_recovery_witness :
  isNetworkError (Some dial_timeout) = true
  /\ recovery_waits
       (trace (Start_loop (always_failing dial_timeout 5)
                 (NewWebSocketClient (config_retries 2) 0)))
     = repeat DefaultRetryDelay 4.
Proof.
  split; [reflexivity|].
  rewrite (every_failed_dial_waits_for_recovery (config_retries 2) 0 dial_timeout 5).
  - reflexivity.
  - reflexivity.
  - vm_compute. reflexivity.
Defined.

Lemma ConnectionError_Error_follows_pool_bytes_witness :
  BufferPool.well_formed BufferPool.fresh
  /\ ConnectionError_Error BufferPool.fresh ErrCodeSendTimeout "send" "ws://h" None
     = Some (string_of_list_ascii (repeat Ascii.zero 128)
             ++ "[2003] 连接错误 [send] ws://h: 发送超时 - ")
  /\ ConnectionError_Error BufferPool.fresh ErrCodeSendTimeout "send" "ws://h" None
     = Some (Error (EConn ErrCodeSendTimeout "send" "ws://h" None false)).
Proof.
  assert (P : pool_buffer (EConn ErrCodeSendTimeout "send" "ws://h" None false)
              = BufferPool.fresh SmallBufferSize) by reflexivity.
  split; [exact BufferPool_fresh_well_formed|].
  destruct (ConnectionError_Error_follows_pool_bytes BufferPool.fresh
              ErrCodeSendTimeout "send" "ws://h" None false
              BufferPool_fresh_well_formed) as (H1 & _ & H3).
  split; [exact H1 | exact (H3 P)].
Defined.

(** Over a new buffer the failure is no network error and the selector
    answers Retry; over the buffer of the earlier send it answers
    Reconnect. *)
Lemma stale_pool_bytes_reclassify_witness :
  In "connection refused" patterns
  /\ GetRecoveryStrategy (Some invalid_message_failure) = RecoveryRetry
  /\ GetRecoveryStrategy (L := stale_library) (Some invalid_message_failure)
     = RecoveryReconnect.
Proof.
  assert (H : In "connection refused" patterns) by (left; reflexivity).
  split; [exact H|]. split; [reflexivity|].
  apply (stale_pool_bytes_reclassify (L := stale_library)
           ErrCodeInvalidMessage "send" "ws://h" (Some (ENew "type")) false
           "connection refused" H).
  reflexivity.
Defined.
